(** * ghostCAT: the object model of libghostcat and the ghostcatd daemon

    A shallow embedding of the parts of [libghostcat.c], [ghostcatd-device.c]
    and [ghostcatd.c] that the specification talks about: the resolution and
    profile setters, the commit path, the macro encoder and decoder, the
    report-rate property, the poll of the active resolution and the command
    line of the daemon.

    Conventions.
    - C integers are [Z]; [unsigned int] values are expected in
      [0, 2^32).  No operation below overflows, so no wrap-around is written
      except where the source masks bits.
    - The intrusive lists ([struct list]) of a device, a profile, ... are Rocq
      lists in list order.  A pointer to a child ([struct ghostcat_resolution *],
      [struct ghostcat_profile *]) is the pair of its parent and its position
      in the parent's list; the pointer comparison [other == resolution] is
      the comparison of positions.  A function that receives a position that
      names no object returns [None]: the C code has no such call.
    - Reference counts, user data and driver data play no role in the
      functions embedded here and are left out of the records.
    - [log_error] and friends only print; library logging is not modelled. *)

From Stdlib Require Import ZArith Lia Bool List.
From stdpp Require Import base option list strings gmap.

Local Open Scope Z_scope.

(** ** Enumerations of [libghostcat-enums.h] *)

Definition GHOSTCAT_SUCCESS : Z := 0.
Definition GHOSTCAT_ERROR_DEVICE : Z := -1000.
Definition GHOSTCAT_ERROR_CAPABILITY : Z := -1001.
Definition GHOSTCAT_ERROR_VALUE : Z := -1002.
Definition GHOSTCAT_ERROR_SYSTEM : Z := -1003.
Definition GHOSTCAT_ERROR_IMPLEMENTATION : Z := -1004.

Definition GHOSTCAT_PROFILE_CAP_NONE : Z := 0.
Definition GHOSTCAT_PROFILE_CAP_SET_DEFAULT : Z := 101.
Definition GHOSTCAT_PROFILE_CAP_DISABLE : Z := 102.
Definition GHOSTCAT_PROFILE_CAP_WRITE_ONLY : Z := 103.

Definition GHOSTCAT_BUTTON_ACTION_TYPE_NONE : Z := 0.
Definition GHOSTCAT_BUTTON_ACTION_TYPE_BUTTON : Z := 1.
Definition GHOSTCAT_BUTTON_ACTION_TYPE_SPECIAL : Z := 2.
Definition GHOSTCAT_BUTTON_ACTION_TYPE_KEY : Z := 3.
Definition GHOSTCAT_BUTTON_ACTION_TYPE_MACRO : Z := 4.
Definition GHOSTCAT_BUTTON_ACTION_TYPE_UNKNOWN : Z := 1000.

Definition GHOSTCAT_MACRO_EVENT_INVALID : Z := -1.
Definition GHOSTCAT_MACRO_EVENT_NONE : Z := 0.
Definition GHOSTCAT_MACRO_EVENT_KEY_PRESSED : Z := 1.
Definition GHOSTCAT_MACRO_EVENT_KEY_RELEASED : Z := 2.
Definition GHOSTCAT_MACRO_EVENT_WAIT : Z := 3.

(** [errno.h] and [stdlib.h]. *)
Definition EINVAL : Z := 22.
Definition EEXIST : Z := 17.
Definition EXIT_SUCCESS : Z := 0.
Definition EXIT_FAILURE : Z := 1.

(** ** The structures of [libghostcat-private.h] *)

Record ghostcat_resolution := mk_resolution {
  res_index : Z;
  res_dpis : list Z;
  res_dpi_x : Z;
  res_dpi_y : Z;
  res_is_active : bool;
  res_is_default : bool;
  res_is_disabled : bool;
  res_is_dpi_shift_target : bool;
  res_dirty : bool;
  res_capabilities : Z
}.

Record ghostcat_macro_event := mk_event {
  ev_type : Z;
  (** the union [event]: [key] and [timeout] share the storage *)
  ev_key : Z
}.

Definition MAX_MACRO_EVENTS : nat := 256.

(** [events] stands for the array [events[MAX_MACRO_EVENTS]]: a list of
    [MAX_MACRO_EVENTS] entries. *)
Record ghostcat_macro := mk_macro {
  macro_name : option string;
  macro_group : option string;
  macro_events : list ghostcat_macro_event
}.

Record ghostcat_button_action := mk_action {
  action_type : Z;
  (** the union [action]: button number, special or key *)
  action_value : Z;
  (** [struct ghostcat_macro *macro], [None] for the null pointer *)
  action_macro : option ghostcat_macro
}.

Record ghostcat_button := mk_button {
  button_index : Z;
  button_action : ghostcat_button_action;
  button_action_caps : Z;
  button_dirty : bool
}.

Record ghostcat_led := mk_led {
  led_index : Z;
  led_mode : Z;
  led_dirty : bool
}.

Record ghostcat_profile := mk_profile {
  profile_index : Z;
  profile_name : option string;
  profile_buttons : list ghostcat_button;
  profile_resolutions : list ghostcat_resolution;
  profile_leds : list ghostcat_led;
  profile_hz : Z;
  profile_rates : list Z;
  profile_rate_dirty : bool;
  profile_angle_snapping : Z;
  profile_angle_snapping_dirty : bool;
  profile_debounce : Z;
  profile_debounce_dirty : bool;
  profile_num_resolutions : Z;
  profile_is_active : bool;
  profile_is_active_dirty : bool;
  profile_is_enabled : bool;
  profile_dirty : bool;
  (** the bit set [capabilities[NLONGS(MAX_CAP)]], as the set of its bits *)
  profile_capabilities : gset Z
}.

Record ghostcat_device := mk_device {
  device_name : string;
  device_num_profiles : Z;
  device_profiles : list ghostcat_profile
}.

(** *** Field assignments *)

Definition set_res_is_active (v : bool) (r : ghostcat_resolution) :=
  mk_resolution (res_index r) (res_dpis r) (res_dpi_x r) (res_dpi_y r)
    v (res_is_default r) (res_is_disabled r) (res_is_dpi_shift_target r)
    (res_dirty r) (res_capabilities r).

Definition set_res_is_default (v : bool) (r : ghostcat_resolution) :=
  mk_resolution (res_index r) (res_dpis r) (res_dpi_x r) (res_dpi_y r)
    (res_is_active r) v (res_is_disabled r) (res_is_dpi_shift_target r)
    (res_dirty r) (res_capabilities r).

Definition set_res_is_dpi_shift_target (v : bool) (r : ghostcat_resolution) :=
  mk_resolution (res_index r) (res_dpis r) (res_dpi_x r) (res_dpi_y r)
    (res_is_active r) (res_is_default r) (res_is_disabled r) v
    (res_dirty r) (res_capabilities r).

Definition set_res_dirty (v : bool) (r : ghostcat_resolution) :=
  mk_resolution (res_index r) (res_dpis r) (res_dpi_x r) (res_dpi_y r)
    (res_is_active r) (res_is_default r) (res_is_disabled r)
    (res_is_dpi_shift_target r) v (res_capabilities r).

Definition set_button_dirty (v : bool) (b : ghostcat_button) :=
  mk_button (button_index b) (button_action b) (button_action_caps b) v.

Definition set_button_action (a : ghostcat_button_action) (b : ghostcat_button) :=
  mk_button (button_index b) a (button_action_caps b) (button_dirty b).

Definition set_led_dirty (v : bool) (l : ghostcat_led) :=
  mk_led (led_index l) (led_mode l) v.

Definition set_profile_resolutions (rs : list ghostcat_resolution)
    (p : ghostcat_profile) :=
  mk_profile (profile_index p) (profile_name p) (profile_buttons p) rs
    (profile_leds p) (profile_hz p) (profile_rates p) (profile_rate_dirty p)
    (profile_angle_snapping p) (profile_angle_snapping_dirty p)
    (profile_debounce p) (profile_debounce_dirty p)
    (profile_num_resolutions p) (profile_is_active p)
    (profile_is_active_dirty p) (profile_is_enabled p) (profile_dirty p)
    (profile_capabilities p).

Definition set_profile_buttons (bs : list ghostcat_button)
    (p : ghostcat_profile) :=
  mk_profile (profile_index p) (profile_name p) bs (profile_resolutions p)
    (profile_leds p) (profile_hz p) (profile_rates p) (profile_rate_dirty p)
    (profile_angle_snapping p) (profile_angle_snapping_dirty p)
    (profile_debounce p) (profile_debounce_dirty p)
    (profile_num_resolutions p) (profile_is_active p)
    (profile_is_active_dirty p) (profile_is_enabled p) (profile_dirty p)
    (profile_capabilities p).

Definition set_profile_leds (ls : list ghostcat_led) (p : ghostcat_profile) :=
  mk_profile (profile_index p) (profile_name p) (profile_buttons p)
    (profile_resolutions p) ls (profile_hz p) (profile_rates p)
    (profile_rate_dirty p) (profile_angle_snapping p)
    (profile_angle_snapping_dirty p) (profile_debounce p)
    (profile_debounce_dirty p) (profile_num_resolutions p)
    (profile_is_active p) (profile_is_active_dirty p) (profile_is_enabled p)
    (profile_dirty p) (profile_capabilities p).

Definition set_profile_hz (hz : Z) (p : ghostcat_profile) :=
  mk_profile (profile_index p) (profile_name p) (profile_buttons p)
    (profile_resolutions p) (profile_leds p) hz (profile_rates p)
    (profile_rate_dirty p) (profile_angle_snapping p)
    (profile_angle_snapping_dirty p) (profile_debounce p)
    (profile_debounce_dirty p) (profile_num_resolutions p)
    (profile_is_active p) (profile_is_active_dirty p) (profile_is_enabled p)
    (profile_dirty p) (profile_capabilities p).

Definition set_profile_rate_dirty (v : bool) (p : ghostcat_profile) :=
  mk_profile (profile_index p) (profile_name p) (profile_buttons p)
    (profile_resolutions p) (profile_leds p) (profile_hz p) (profile_rates p)
    v (profile_angle_snapping p) (profile_angle_snapping_dirty p)
    (profile_debounce p) (profile_debounce_dirty p)
    (profile_num_resolutions p) (profile_is_active p)
    (profile_is_active_dirty p) (profile_is_enabled p) (profile_dirty p)
    (profile_capabilities p).

Definition set_profile_angle_snapping_dirty (v : bool) (p : ghostcat_profile) :=
  mk_profile (profile_index p) (profile_name p) (profile_buttons p)
    (profile_resolutions p) (profile_leds p) (profile_hz p) (profile_rates p)
    (profile_rate_dirty p) (profile_angle_snapping p) v
    (profile_debounce p) (profile_debounce_dirty p)
    (profile_num_resolutions p) (profile_is_active p)
    (profile_is_active_dirty p) (profile_is_enabled p) (profile_dirty p)
    (profile_capabilities p).

Definition set_profile_debounce_dirty (v : bool) (p : ghostcat_profile) :=
  mk_profile (profile_index p) (profile_name p) (profile_buttons p)
    (profile_resolutions p) (profile_leds p) (profile_hz p) (profile_rates p)
    (profile_rate_dirty p) (profile_angle_snapping p)
    (profile_angle_snapping_dirty p) (profile_debounce p) v
    (profile_num_resolutions p) (profile_is_active p)
    (profile_is_active_dirty p) (profile_is_enabled p) (profile_dirty p)
    (profile_capabilities p).

Definition set_profile_is_active (v : bool) (p : ghostcat_profile) :=
  mk_profile (profile_index p) (profile_name p) (profile_buttons p)
    (profile_resolutions p) (profile_leds p) (profile_hz p) (profile_rates p)
    (profile_rate_dirty p) (profile_angle_snapping p)
    (profile_angle_snapping_dirty p) (profile_debounce p)
    (profile_debounce_dirty p) (profile_num_resolutions p) v
    (profile_is_active_dirty p) (profile_is_enabled p) (profile_dirty p)
    (profile_capabilities p).

Definition set_profile_is_active_dirty (v : bool) (p : ghostcat_profile) :=
  mk_profile (profile_index p) (profile_name p) (profile_buttons p)
    (profile_resolutions p) (profile_leds p) (profile_hz p) (profile_rates p)
    (profile_rate_dirty p) (profile_angle_snapping p)
    (profile_angle_snapping_dirty p) (profile_debounce p)
    (profile_debounce_dirty p) (profile_num_resolutions p)
    (profile_is_active p) v (profile_is_enabled p) (profile_dirty p)
    (profile_capabilities p).

Definition set_profile_is_enabled (v : bool) (p : ghostcat_profile) :=
  mk_profile (profile_index p) (profile_name p) (profile_buttons p)
    (profile_resolutions p) (profile_leds p) (profile_hz p) (profile_rates p)
    (profile_rate_dirty p) (profile_angle_snapping p)
    (profile_angle_snapping_dirty p) (profile_debounce p)
    (profile_debounce_dirty p) (profile_num_resolutions p)
    (profile_is_active p) (profile_is_active_dirty p) v (profile_dirty p)
    (profile_capabilities p).

Definition set_profile_dirty (v : bool) (p : ghostcat_profile) :=
  mk_profile (profile_index p) (profile_name p) (profile_buttons p)
    (profile_resolutions p) (profile_leds p) (profile_hz p) (profile_rates p)
    (profile_rate_dirty p) (profile_angle_snapping p)
    (profile_angle_snapping_dirty p) (profile_debounce p)
    (profile_debounce_dirty p) (profile_num_resolutions p)
    (profile_is_active p) (profile_is_active_dirty p) (profile_is_enabled p)
    v (profile_capabilities p).

Definition set_device_profiles (ps : list ghostcat_profile)
    (d : ghostcat_device) :=
  mk_device (device_name d) (device_num_profiles d) ps.

(** ** Resolution setters ([libghostcat.c]) *)

(** [ghostcat_profile_for_each_resolution(profile, res) body]: the body runs
    once per resolution, in list order, on the profile as the earlier
    iterations left it.  [body j res p] is the body at the resolution [res]
    found at position [j]. *)
Definition ghostcat_profile_for_each_resolution
    (body : nat -> ghostcat_resolution -> ghostcat_profile -> ghostcat_profile)
    (profile : ghostcat_profile) : ghostcat_profile :=
  fold_left
    (fun p j =>
       match profile_resolutions p !! j with
       | Some res => body j res p
       | None => p
       end)
    (seq 0 (length (profile_resolutions profile))) profile.

(** A write through a resolution pointer: [f] applied to the resolution at
    position [j] of the profile. *)
Definition update_resolution (j : nat)
    (f : ghostcat_resolution -> ghostcat_resolution)
    (p : ghostcat_profile) : ghostcat_profile :=
  set_profile_resolutions (alter f j (profile_resolutions p)) p.

Definition ghostcat_resolution_set_active (profile : ghostcat_profile)
    (i : nat) : option (Z * ghostcat_profile) :=
  resolution ← profile_resolutions profile !! i;
  if res_is_disabled resolution then
    Some (GHOSTCAT_ERROR_VALUE, profile)
  else
    let p := ghostcat_profile_for_each_resolution
               (fun j _ p => update_resolution j (set_res_is_active false) p)
               profile in
    let p := update_resolution i (set_res_is_active true) p in
    let p := update_resolution i (set_res_dirty true) p in
    let p := set_profile_dirty true p in
    Some (GHOSTCAT_SUCCESS, p).

Definition ghostcat_resolution_set_default (profile : ghostcat_profile)
    (i : nat) : option (Z * ghostcat_profile) :=
  resolution ← profile_resolutions profile !! i;
  if res_is_disabled resolution then
    Some (GHOSTCAT_ERROR_VALUE, profile)
  else
    (* Unset the default on the other resolutions *)
    let p := ghostcat_profile_for_each_resolution
               (fun j other p =>
                  if (j =? i)%nat || negb (res_is_default other) then p
                  else
                    let p := update_resolution j (set_res_is_default false) p in
                    let p := update_resolution i (set_res_dirty true) p in
                    set_profile_dirty true p)
               profile in
    match profile_resolutions p !! i with
    | Some resolution' =>
        if negb (res_is_default resolution') then
          let p := update_resolution i (set_res_is_default true) p in
          let p := update_resolution i (set_res_dirty true) p in
          Some (GHOSTCAT_SUCCESS, set_profile_dirty true p)
        else Some (GHOSTCAT_SUCCESS, p)
    | None => None
    end.

Definition ghostcat_resolution_set_dpi_shift_target (profile : ghostcat_profile)
    (i : nat) : option (Z * ghostcat_profile) :=
  resolution ← profile_resolutions profile !! i;
  if res_is_disabled resolution then
    Some (GHOSTCAT_ERROR_VALUE, profile)
  else
    (* Unset the dpi_shift_target on the other resolutions *)
    let p := ghostcat_profile_for_each_resolution
               (fun j other p =>
                  if (j =? i)%nat || negb (res_is_dpi_shift_target other) then p
                  else
                    let p := update_resolution j
                               (set_res_is_dpi_shift_target false) p in
                    let p := update_resolution j (set_res_dirty true) p in
                    set_profile_dirty true p)
               profile in
    match profile_resolutions p !! i with
    | Some resolution' =>
        if negb (res_is_dpi_shift_target resolution') then
          let p := update_resolution i (set_res_is_dpi_shift_target true) p in
          let p := update_resolution i (set_res_dirty true) p in
          Some (GHOSTCAT_SUCCESS, set_profile_dirty true p)
        else Some (GHOSTCAT_SUCCESS, p)
    | None => None
    end.

(** ** Profile setters ([libghostcat.c]) *)

(** [long_bit_is_set(profile->capabilities, cap)].  The source aborts on
    [GHOSTCAT_PROFILE_CAP_NONE] and on [cap >= MAX_CAP]; every caller below
    passes a capability constant in range. *)
Definition ghostcat_profile_has_capability (profile : ghostcat_profile)
    (cap : Z) : bool :=
  bool_decide (cap ∈ profile_capabilities profile).

Definition ghostcat_profile_set_enabled (profile : ghostcat_profile)
    (enabled : bool) : Z * ghostcat_profile :=
  if negb (ghostcat_profile_has_capability profile GHOSTCAT_PROFILE_CAP_DISABLE)
  then (GHOSTCAT_ERROR_CAPABILITY, profile)
  else if profile_is_active profile && negb enabled
  then (GHOSTCAT_ERROR_VALUE, profile)
  else
    let profile := set_profile_is_enabled enabled profile in
    let profile := set_profile_dirty true profile in
    (GHOSTCAT_SUCCESS, profile).

(** The same call through a profile pointer: the profile at position [k] of
    the device. *)
Definition ghostcat_device_profile_set_enabled (device : ghostcat_device)
    (k : nat) (enabled : bool) : option (Z * ghostcat_device) :=
  profile ← device_profiles device !! k;
  let '(rc, profile') := ghostcat_profile_set_enabled profile enabled in
  Some (rc, set_device_profiles (<[k := profile']> (device_profiles device))
              device).

Definition ghostcat_profile_set_active (device : ghostcat_device) (k : nat)
    : option (Z * ghostcat_device) :=
  profile ← device_profiles device !! k;
  if negb (profile_is_enabled profile) then
    Some (GHOSTCAT_ERROR_VALUE, device)
  else if device_num_profiles device =? 1 then
    Some (GHOSTCAT_SUCCESS, device)
  else
    let ps :=
      (fun p =>
         if profile_is_active p then
           set_profile_dirty true
             (set_profile_is_active_dirty true
                (set_profile_is_active false p))
         else p) <$> device_profiles device in
    let ps :=
      alter (fun p =>
               set_profile_dirty true
                 (set_profile_is_active_dirty true
                    (set_profile_is_active true p))) k ps in
    Some (GHOSTCAT_SUCCESS, set_device_profiles ps device).

Definition ghostcat_profile_set_report_rate (profile : ghostcat_profile)
    (hz : Z) : Z * ghostcat_profile :=
  if negb (profile_hz profile =? hz) then
    let profile := set_profile_hz hz profile in
    let profile := set_profile_dirty true profile in
    let profile := set_profile_rate_dirty true profile in
    (GHOSTCAT_SUCCESS, profile)
  else (GHOSTCAT_SUCCESS, profile).

(** ** The driver interface and the commit ([libghostcat.c]) *)

(** [struct ghostcat_driver]: the callbacks are function pointers, [None]
    for a null pointer.  [commit] and [refresh_active_resolution] receive the
    device and may write to its object graph: they return their [int]
    together with the device as they leave it.  [set_active_profile] sends a
    command to the hardware; it reads the device as it is at the call. *)
Record ghostcat_driver := mk_driver {
  driver_name : string;
  commit : option (ghostcat_device -> Z * ghostcat_device);
  set_active_profile : option (ghostcat_device -> Z -> Z);
  refresh_active_resolution : option (ghostcat_device -> Z * ghostcat_device)
}.

(** The assignments at the head of the loop body of [ghostcat_device_commit]. *)
Definition commit_clear_profile (profile : ghostcat_profile) : ghostcat_profile :=
  let profile := set_profile_dirty false profile in
  let profile := set_profile_angle_snapping_dirty false profile in
  let profile := set_profile_debounce_dirty false profile in
  let profile := set_profile_rate_dirty false profile in
  let profile :=
    set_profile_buttons (set_button_dirty false <$> profile_buttons profile)
      profile in
  let profile :=
    set_profile_leds (set_led_dirty false <$> profile_leds profile) profile in
  set_profile_resolutions
    (set_res_dirty false <$> profile_resolutions profile) profile.

(** The loop [list_for_each(profile, &device->profiles, link)] of
    [ghostcat_device_commit]: [done] are the profiles already visited, as the
    loop left them, [todo] the ones still to visit.  The result is the return
    value and the profile list at the return. *)
Fixpoint commit_profiles (driver : ghostcat_driver) (device : ghostcat_device)
    (done todo : list ghostcat_profile) : Z * list ghostcat_profile :=
  match todo with
  | [] => (GHOSTCAT_SUCCESS, done)
  | profile :: rest =>
      let profile := commit_clear_profile profile in
      let next :=
        commit_profiles driver device
          (done ++ [set_profile_is_active_dirty false profile]) rest in
      if profile_is_active_dirty profile && profile_is_active profile then
        match set_active_profile driver with
        | None => (GHOSTCAT_ERROR_IMPLEMENTATION, done ++ profile :: rest)
        | Some callback =>
            let rc :=
              callback (set_device_profiles (done ++ profile :: rest) device)
                (profile_index profile) in
            if negb (rc =? 0) then
              (GHOSTCAT_ERROR_DEVICE, done ++ profile :: rest)
            else next
        end
      else next
  end.

Definition ghostcat_device_commit (driver : ghostcat_driver)
    (device : ghostcat_device) : Z * ghostcat_device :=
  match commit driver with
  | None => (GHOSTCAT_ERROR_CAPABILITY, device)
  | Some callback =>
      let '(rc, device) := callback device in
      if negb (rc =? 0) then (GHOSTCAT_ERROR_DEVICE, device)
      else
        let '(rc, ps) :=
          commit_profiles driver device [] (device_profiles device) in
        (rc, set_device_profiles ps device)
  end.

(** [device->driver] may be null here: the driver is an option. *)
Definition ghostcat_device_refresh_active_resolution
    (driver : option ghostcat_driver) (device : ghostcat_device)
    : Z * ghostcat_device :=
  match driver with
  | None => (0, device)
  | Some drv =>
      match refresh_active_resolution drv with
      | None => (0, device)
      | Some callback => callback device
      end
  end.

(** *** Dirty flags of a subtree *)

Definition profile_flags_clean (p : ghostcat_profile) : bool :=
  negb (profile_dirty p) && negb (profile_rate_dirty p)
  && negb (profile_angle_snapping_dirty p) && negb (profile_debounce_dirty p)
  && negb (profile_is_active_dirty p)
  && forallb (fun b => negb (button_dirty b)) (profile_buttons p)
  && forallb (fun l => negb (led_dirty l)) (profile_leds p)
  && forallb (fun r => negb (res_dirty r)) (profile_resolutions p).

Definition device_flags_clean (d : ghostcat_device) : bool :=
  forallb profile_flags_clean (device_profiles d).

(** ** Macros: key codes and the modifier table *)

(** Key codes of [linux/input-event-codes.h]. *)
Definition KEY_RESERVED : Z := 0.
Definition KEY_LEFTCTRL : Z := 29.
Definition KEY_LEFTSHIFT : Z := 42.
Definition KEY_RIGHTSHIFT : Z := 54.
Definition KEY_LEFTALT : Z := 56.
Definition KEY_RIGHTCTRL : Z := 97.
Definition KEY_RIGHTALT : Z := 100.
Definition KEY_LEFTMETA : Z := 125.
Definition KEY_RIGHTMETA : Z := 126.

Definition MODIFIER_LEFTCTRL : Z := Z.shiftl 1 0.
Definition MODIFIER_LEFTSHIFT : Z := Z.shiftl 1 1.
Definition MODIFIER_LEFTALT : Z := Z.shiftl 1 2.
Definition MODIFIER_LEFTMETA : Z := Z.shiftl 1 3.
Definition MODIFIER_RIGHTCTRL : Z := Z.shiftl 1 4.
Definition MODIFIER_RIGHTSHIFT : Z := Z.shiftl 1 5.
Definition MODIFIER_RIGHTALT : Z := Z.shiftl 1 6.
Definition MODIFIER_RIGHTMETA : Z := Z.shiftl 1 7.

Record ghostcat_modifier_mapping_entry := mk_mapping {
  modifier_mask : Z;
  key : Z
}.

Definition ghostcat_modifier_mapping : list ghostcat_modifier_mapping_entry :=
  [ mk_mapping MODIFIER_LEFTCTRL KEY_LEFTCTRL;
    mk_mapping MODIFIER_LEFTSHIFT KEY_LEFTSHIFT;
    mk_mapping MODIFIER_LEFTALT KEY_LEFTALT;
    mk_mapping MODIFIER_LEFTMETA KEY_LEFTMETA;
    mk_mapping MODIFIER_RIGHTCTRL KEY_RIGHTCTRL;
    mk_mapping MODIFIER_RIGHTSHIFT KEY_RIGHTSHIFT;
    mk_mapping MODIFIER_RIGHTALT KEY_RIGHTALT;
    mk_mapping MODIFIER_RIGHTMETA KEY_RIGHTMETA ].

(** Modelled from the spec: [ghostcat_key_is_modifier] is declared in
    [libghostcat-util.h], which is not among the sources.  The specification
    classifies a key code as a modifier when it is a "recognised keycode in
    the eight-entry modifier table". *)
Definition ghostcat_key_is_modifier (key_code : Z) : bool :=
  existsb (fun mapping => key_code =? key mapping) ghostcat_modifier_mapping.

(** ** Macros: construction ([libghostcat.c]) *)

(** [zalloc]: an all-zero [struct ghostcat_button_macro]; the name is a copy
    of the argument. *)
Definition ghostcat_button_macro_new (name : string) : ghostcat_macro :=
  mk_macro (Some name) None
    (replicate MAX_MACRO_EVENTS (mk_event GHOSTCAT_MACRO_EVENT_NONE 0)).

Definition set_macro_events (es : list ghostcat_macro_event) (m : ghostcat_macro) :=
  mk_macro (macro_name m) (macro_group m) es.

Definition ghostcat_button_macro_set_event (m : ghostcat_macro) (index : nat)
    (type : Z) (data : Z) : Z * ghostcat_macro :=
  if (MAX_MACRO_EVENTS <=? index)%nat then (GHOSTCAT_ERROR_VALUE, m)
  else if (type =? GHOSTCAT_MACRO_EVENT_KEY_PRESSED)
          || (type =? GHOSTCAT_MACRO_EVENT_KEY_RELEASED)
          || (type =? GHOSTCAT_MACRO_EVENT_WAIT) then
    (0, set_macro_events (<[index := mk_event type data]> (macro_events m)) m)
  else if type =? GHOSTCAT_MACRO_EVENT_NONE then
    (0, set_macro_events
          (alter (fun e => mk_event type (ev_key e)) index (macro_events m)) m)
  else (GHOSTCAT_ERROR_VALUE, m).

(** [ghostcat_button_copy_macro]: whether the button had a macro or not, its
    macro is zeroed storage that then receives the events, the name and the
    group of [macro]. *)
Definition ghostcat_button_copy_macro (button : ghostcat_button)
    (macro : ghostcat_macro) : ghostcat_button :=
  set_button_action
    (mk_action GHOSTCAT_BUTTON_ACTION_TYPE_MACRO
       (action_value (button_action button))
       (Some (mk_macro (macro_name macro) (macro_group macro)
                (macro_events macro))))
    button.

(** One iteration of the two [ARRAY_FOR_EACH(ghostcat_modifier_mapping, mapping)]
    loops of the encoder; the state is the macro and the counter [i]. *)
Definition macro_add_modifier (modifiers : Z) (type : Z)
    (st : ghostcat_macro * nat) (mapping : ghostcat_modifier_mapping_entry)
    : ghostcat_macro * nat :=
  let '(macro, i) := st in
  if negb (Z.land modifiers (modifier_mask mapping) =? 0) then
    (snd (ghostcat_button_macro_set_event macro i type (key mapping)), S i)
  else (macro, i).

Definition ghostcat_button_macro_new_from_keycode (button : ghostcat_button)
    (key modifiers : Z) : Z * ghostcat_button :=
  let macro := ghostcat_button_macro_new "key" in
  let i := 0%nat in
  let '(macro, i) :=
    fold_left (macro_add_modifier modifiers GHOSTCAT_MACRO_EVENT_KEY_PRESSED)
      ghostcat_modifier_mapping (macro, i) in
  let macro :=
    snd (ghostcat_button_macro_set_event macro i
           GHOSTCAT_MACRO_EVENT_KEY_PRESSED key) in
  let i := S i in
  let macro :=
    snd (ghostcat_button_macro_set_event macro i
           GHOSTCAT_MACRO_EVENT_KEY_RELEASED key) in
  let i := S i in
  let '(macro, _) :=
    fold_left (macro_add_modifier modifiers GHOSTCAT_MACRO_EVENT_KEY_RELEASED)
      ghostcat_modifier_mapping (macro, i) in
  (0, ghostcat_button_copy_macro button macro).

(** ** Macros: decoding ([libghostcat.c]) *)

(** The loops [for (i = 0; i < MAX_MACRO_EVENTS; i++)] read [events[i]] in
    order; they are recursions over the event list.  The three functions below
    receive [action->macro], which the caller has checked for null. *)
Fixpoint macro_num_keys_loop (events : list ghostcat_macro_event) (count : Z) : Z :=
  match events with
  | [] => count
  | event :: rest =>
      if (ev_type event =? GHOSTCAT_MACRO_EVENT_NONE)
         || (ev_type event =? GHOSTCAT_MACRO_EVENT_INVALID) then count
      else if ghostcat_key_is_modifier (ev_key event) then
        macro_num_keys_loop rest count
      else if ev_type event =? GHOSTCAT_MACRO_EVENT_KEY_PRESSED then
        macro_num_keys_loop rest (count + 1)
      else macro_num_keys_loop rest count
  end.

Definition ghostcat_action_macro_num_keys (macro : ghostcat_macro) : Z :=
  macro_num_keys_loop (macro_events macro) 0.

Fixpoint single_modifier_loop (events : list ghostcat_macro_event)
    (modifier_key_count action_key_count : Z) : Z * Z :=
  match events with
  | [] => (modifier_key_count, action_key_count)
  | event :: rest =>
      if (ev_type event =? GHOSTCAT_MACRO_EVENT_NONE)
         || (ev_type event =? GHOSTCAT_MACRO_EVENT_INVALID) then
        (modifier_key_count, action_key_count)
      else
        let modifier_key_count :=
          if ghostcat_key_is_modifier (ev_key event)
             && (ev_type event =? GHOSTCAT_MACRO_EVENT_KEY_PRESSED)
          then modifier_key_count + 1 else modifier_key_count in
        let action_key_count :=
          if negb (ghostcat_key_is_modifier (ev_key event))
             && (ev_type event =? GHOSTCAT_MACRO_EVENT_KEY_PRESSED)
          then action_key_count + 1 else action_key_count in
        single_modifier_loop rest modifier_key_count action_key_count
  end.

Definition ghostcat_action_is_single_modifier_key (macro : ghostcat_macro) : bool :=
  let '(modifier_key_count, action_key_count) :=
    single_modifier_loop (macro_events macro) 0 0 in
  (modifier_key_count =? 1) && (action_key_count =? 0).

(** The eight [case KEY_...:] labels of the two inner [switch] statements:
    the mask the label works on, [None] for [default:]. *)
Definition switch_modifier_key (k : Z) : option Z :=
  if k =? KEY_LEFTCTRL then Some MODIFIER_LEFTCTRL
  else if k =? KEY_LEFTSHIFT then Some MODIFIER_LEFTSHIFT
  else if k =? KEY_LEFTALT then Some MODIFIER_LEFTALT
  else if k =? KEY_LEFTMETA then Some MODIFIER_LEFTMETA
  else if k =? KEY_RIGHTCTRL then Some MODIFIER_RIGHTCTRL
  else if k =? KEY_RIGHTSHIFT then Some MODIFIER_RIGHTSHIFT
  else if k =? KEY_RIGHTALT then Some MODIFIER_RIGHTALT
  else if k =? KEY_RIGHTMETA then Some MODIFIER_RIGHTMETA
  else None.

(** The main loop.  The result is the return value and, when the function
    wrote them, the values stored through [key_out] and [modifiers_out].
    [~MODIFIER_X] is an [int] converted to [unsigned int]: the complement
    modulo [2^32]. *)
Fixpoint keycode_from_macro_loop (events : list ghostcat_macro_event)
    (key modifiers : Z) : Z * option (Z * Z) :=
  match events with
  | [] => (- EINVAL, None)
  | event :: rest =>
      if ev_type event =? GHOSTCAT_MACRO_EVENT_INVALID then (- EINVAL, None)
      else if ev_type event =? GHOSTCAT_MACRO_EVENT_NONE then (0, None)
      else if ev_type event =? GHOSTCAT_MACRO_EVENT_KEY_PRESSED then
        match switch_modifier_key (ev_key event) with
        | Some mask => keycode_from_macro_loop rest key (Z.lor modifiers mask)
        | None =>
            if negb (key =? KEY_RESERVED) then (- EINVAL, None)
            else keycode_from_macro_loop rest (ev_key event) modifiers
        end
      else if ev_type event =? GHOSTCAT_MACRO_EVENT_KEY_RELEASED then
        match switch_modifier_key (ev_key event) with
        | Some mask =>
            keycode_from_macro_loop rest key
              (Z.land modifiers (Z.lnot mask mod 2 ^ 32))
        | None =>
            if negb (ev_key event =? key) then (- EINVAL, None)
            else (1, Some (key, modifiers))
        end
      else if ev_type event =? GHOSTCAT_MACRO_EVENT_WAIT then
        keycode_from_macro_loop rest key modifiers
      else (- EINVAL, None)
  end.

(** [macro->events[0]]. *)
Definition macro_first_event (macro : ghostcat_macro) : ghostcat_macro_event :=
  default (mk_event GHOSTCAT_MACRO_EVENT_NONE 0) (macro_events macro !! 0%nat).

Definition ghostcat_action_keycode_from_macro (action : ghostcat_button_action)
    : Z * option (Z * Z) :=
  match action_macro action with
  | None => (- EINVAL, None)
  | Some macro =>
      if negb (action_type action =? GHOSTCAT_BUTTON_ACTION_TYPE_MACRO) then
        (- EINVAL, None)
      else if ev_type (macro_first_event macro) =? GHOSTCAT_MACRO_EVENT_NONE then
        (- EINVAL, None)
      else if ghostcat_action_is_single_modifier_key macro then
        (1, Some (ev_key (macro_first_event macro), 0))
      else if negb (ghostcat_action_macro_num_keys macro =? 1) then
        (- EINVAL, None)
      else keycode_from_macro_loop (macro_events macro) KEY_RESERVED 0
  end.

(** ** The daemon: bus surface ([ghostcatd-device.c], [ghostcatd-profile.c]) *)

(** The interface names [GHOSTCATD_NAME_ROOT ".Device"], [".Profile"], ... *)
Inductive ghostcatd_interface :=
| Manager_interface | Device_interface | Profile_interface
| Resolution_interface | Button_interface | Led_interface.

(** What the daemon hands to the bus: [sd_bus_emit_properties_changed] with
    the object path, the interface and the property names, and
    [sd_bus_emit_signal]. *)
Inductive bus_signal :=
| properties_changed (path : string) (interface : ghostcatd_interface)
    (names : list string)
| emit_signal (path : string) (interface : ghostcatd_interface)
    (member : string).

(** The contents of a property-set or method-call message. *)
Inductive sd_bus_value :=
| bus_u (v : Z) | bus_i (v : Z) | bus_b (v : bool) | bus_s (v : string).

Definition sd_bus_message := list sd_bus_value.

Definition ENXIO : Z := 6.

(** [sd_bus_message_read(m, "u", &rate)]: positive on success, a negative
    errno when the message does not hold an unsigned 32-bit value. *)
Definition sd_bus_message_read_u (m : sd_bus_message) : Z * option Z :=
  match m with
  | bus_u v :: _ => (1, Some v)
  | _ => (- ENXIO, None)
  end.

Section Daemon.

(** The bus answers every emission with a return code. *)
Variable sd_bus_rc : bus_signal -> Z.

(** [struct ghostcatd_resolution], [struct ghostcatd_button] and
    [struct ghostcatd_led] and their resync functions are defined in
    [ghostcatd-resolution.c], [ghostcatd-button.c] and [ghostcatd-led.c],
    which are not among the sources: they are parameters.  A resync function
    yields the signals it hands to the bus and its return value. *)
Variables ghostcatd_resolution ghostcatd_button ghostcatd_led : Type.
Variable ghostcatd_resolution_resync : ghostcatd_resolution -> list bus_signal * Z.
Variable ghostcatd_button_resync : ghostcatd_button -> list bus_signal * Z.
Variable ghostcatd_led_resync : ghostcatd_led -> list bus_signal * Z.

(** [struct ghostcatd_profile].  [lib_profile] points into the profile list of
    the library device: it is a position in that list.  The arrays
    [resolutions], [buttons], [leds] with their counts are lists. *)
Record ghostcatd_profile := mk_dprofile {
  dprofile_lib_profile : nat;
  dprofile_index : Z;
  dprofile_path : string;
  dprofile_resolutions : list ghostcatd_resolution;
  dprofile_buttons : list ghostcatd_button;
  dprofile_leds : list ghostcatd_led
}.

(** [struct ghostcatd_device].  [lib_driver] is [lib_device->driver];
    [profiles] with [n_profiles] is a list of populated slots. *)
Record ghostcatd_device := mk_ddevice {
  ddevice_sysname : string;
  ddevice_path : string;
  ddevice_lib_device : ghostcat_device;
  ddevice_lib_driver : option ghostcat_driver;
  ddevice_profiles : list ghostcatd_profile
}.

Definition set_ddevice_lib_device (lib : ghostcat_device) (d : ghostcatd_device) :=
  mk_ddevice (ddevice_sysname d) (ddevice_path d) lib (ddevice_lib_driver d)
    (ddevice_profiles d).

Definition sd_bus_emit_properties_changed (path : string)
    (interface : ghostcatd_interface) (names : list string)
    : list bus_signal * Z :=
  ([properties_changed path interface names],
   sd_bus_rc (properties_changed path interface names)).

Definition sd_bus_emit_signal (path : string)
    (interface : ghostcatd_interface) (member : string)
    : list bus_signal * Z :=
  ([emit_signal path interface member],
   sd_bus_rc (emit_signal path interface member)).

(** [for (size_t i = 0; rc == 0 && i < n; i++) rc = func(bus, array[i]);]
    shared by [ghostcatd_for_each_profile_signal],
    [ghostcatd_for_each_resolution_signal], [..._button_signal] and
    [..._led_signal]. *)
Fixpoint ghostcatd_for_each_signal {A : Type} (func : A -> list bus_signal * Z)
    (array : list A) : list bus_signal * Z :=
  match array with
  | [] => ([], 0)
  | x :: rest =>
      let '(out, rc) := func x in
      if rc =? 0 then
        let '(out', rc') := ghostcatd_for_each_signal func rest in
        (out ++ out', rc')
      else (out, rc)
  end.

Definition ghostcatd_for_each_profile_signal (device : ghostcatd_device)
    (func : ghostcatd_profile -> list bus_signal * Z) : list bus_signal * Z :=
  ghostcatd_for_each_signal func (ddevice_profiles device).

Definition ghostcatd_profile_resync (profile : ghostcatd_profile)
    : list bus_signal * Z :=
  let out1 :=
    fst (ghostcatd_for_each_signal ghostcatd_resolution_resync
           (dprofile_resolutions profile)) in
  let out2 :=
    fst (ghostcatd_for_each_signal ghostcatd_button_resync
           (dprofile_buttons profile)) in
  let out3 :=
    fst (ghostcatd_for_each_signal ghostcatd_led_resync
           (dprofile_leds profile)) in
  let '(out4, rc) :=
    sd_bus_emit_properties_changed (dprofile_path profile) Profile_interface
      ["Resolutions"; "Buttons"; "Leds"; "IsActive"]%string in
  (out1 ++ out2 ++ out3 ++ out4, rc).

Definition ghostcatd_profile_notify_dirty (profile : ghostcatd_profile)
    : list bus_signal * Z :=
  (fst (sd_bus_emit_properties_changed (dprofile_path profile)
          Profile_interface ["IsDirty"]%string), 0).

(** The property setter of [ReportRate].  The result is the return value,
    the library device after the call and the signals handed to the bus. *)
Definition ghostcatd_profile_set_report_rate (m : sd_bus_message)
    (profile : ghostcatd_profile) (lib_device : ghostcat_device)
    : option (Z * ghostcat_device * list bus_signal) :=
  lib_profile ← device_profiles lib_device !! dprofile_lib_profile profile;
  match sd_bus_message_read_u m with
  | (r, Some rate) =>
      if r <? 0 then Some (r, lib_device, [])
      else
        (* basic sanity check *)
        let rate :=
          if rate <? 125 then 125
          else if 8000 <? rate then 8000
          else rate in
        let '(r, lib_profile) :=
          ghostcat_profile_set_report_rate lib_profile rate in
        let lib_device :=
          set_device_profiles
            (<[dprofile_lib_profile profile := lib_profile]>
               (device_profiles lib_device)) lib_device in
        if r =? 0 then
          Some (0, lib_device,
                fst (sd_bus_emit_properties_changed (dprofile_path profile)
                       Profile_interface ["ReportRate"]%string)
                ++ fst (ghostcatd_profile_notify_dirty profile))
        else Some (0, lib_device, [])
  | (r, None) => Some (r, lib_device, [])
  end.

(** ** The daemon: the poll of the active resolution *)

(** The result is the return value [changed], the device after the refresh
    and the signals handed to the bus. *)
Definition ghostcatd_device_poll_active_resolution (device : ghostcatd_device)
    : Z * ghostcatd_device * list bus_signal :=
  let '(changed, lib) :=
    ghostcat_device_refresh_active_resolution (ddevice_lib_driver device)
      (ddevice_lib_device device) in
  let device := set_ddevice_lib_device lib device in
  if 0 <? changed then
    (* Active resolution changed, emit signals *)
    (changed, device,
     fst (ghostcatd_for_each_profile_signal device ghostcatd_profile_resync))
  else (changed, device, []).

(** The signals of the poll of one device, and the value its refresh hook
    returns on that poll. *)
Definition poll_signals (device : ghostcatd_device) : list bus_signal :=
  snd (ghostcatd_device_poll_active_resolution device).

Definition refresh_result (device : ghostcatd_device) : Z :=
  fst (ghostcat_device_refresh_active_resolution (ddevice_lib_driver device)
         (ddevice_lib_device device)).

(** The property-changed signal that [ghostcatd_profile_resync] emits for
    the profile itself. *)
Definition profile_resync_signal (profile : ghostcatd_profile) : bus_signal :=
  properties_changed (dprofile_path profile) Profile_interface
    ["Resolutions"; "Buttons"; "Leds"; "IsActive"]%string.

(** The profiles that [ghostcatd_for_each_profile_signal] reaches with
    [ghostcatd_profile_resync]: the loop runs while [rc == 0], so it visits
    the profiles in order up to and including the first one whose
    property-changed signal the bus answers with a non-zero value. *)
Fixpoint resynced_profiles (profiles : list ghostcatd_profile)
    : list ghostcatd_profile :=
  match profiles with
  | [] => []
  | profile :: rest =>
      if sd_bus_rc (profile_resync_signal profile) =? 0 then
        profile :: resynced_profiles rest
      else [profile]
  end.

Definition POLL_INTERVAL_USEC : Z := 2 * 1000000.

(** [on_poll_active_resolution]: [GHOSTCATD_DEVICE_FOREACH] visits the devices
    of the context, here the list [devices] in map order; then the timer is
    armed again at [now + POLL_INTERVAL_USEC].  The result is the return
    value, the devices after the tick, the signals of the tick and the new
    time of the timer. *)
Fixpoint poll_devices (devices : list ghostcatd_device)
    : list ghostcatd_device * list bus_signal :=
  match devices with
  | [] => ([], [])
  | device :: rest =>
      let '(_, device', out) := ghostcatd_device_poll_active_resolution device in
      let '(rest', out') := poll_devices rest in
      (device' :: rest', out ++ out')
  end.

Definition on_poll_active_resolution (devices : list ghostcatd_device) (now : Z)
    : Z * list ghostcatd_device * list bus_signal * Z :=
  let '(devices', out) := poll_devices devices in
  (0, devices', out, now + POLL_INTERVAL_USEC).

End Daemon.

(** ** The daemon: [main] ([ghostcatd.c]) *)

Inductive log_level_t := LL_QUIET | LL_INFO | LL_VERBOSE | LL_RAW.

(** What [main] itself prints: the version line on standard output, the
    usage line on standard error, and the two [log_error] lines of the exit
    path; the second one prints [%m] for the [errno] it is given. *)
Inductive main_output :=
| print_version
| print_usage
| log_error_bus_name_taken
| log_error_failed_to_start (errno : Z).

(** The outcome of the start-up steps that [main] calls:
    [install_ghostcatd_devel_dbus_policy], [ghostcatd_new] and
    [ghostcatd_run]. *)
Record startup := mk_startup {
  install_ghostcatd_devel_dbus_policy : bool;
  ghostcatd_new : Z;
  ghostcatd_run : Z
}.

(** The code after the label [exit:]. *)
Definition main_exit (out : list main_output) (level : log_level_t) (r : Z)
    : list main_output * log_level_t * Z :=
  if r <? 0 then
    if r =? - EEXIST then
      (out ++ [log_error_bus_name_taken], level, EXIT_FAILURE)
    else
      (out ++ [log_error_failed_to_start (- r)], level, EXIT_FAILURE)
  else (out, level, EXIT_SUCCESS).

(** The code from the call of [install_ghostcatd_devel_dbus_policy] on. *)
Definition main_start (env : startup) (level : log_level_t)
    : list main_output * log_level_t * Z :=
  if negb (install_ghostcatd_devel_dbus_policy env) then main_exit [] level 0
  else if ghostcatd_new env <? 0 then main_exit [] level (ghostcatd_new env)
  else main_exit [] level (ghostcatd_run env).

(** [main(argc, argv)]: [argv] is the argument vector, the program name
    first.  The result is what [main] prints, the log level at the end and
    the exit status. *)
Definition main (env : startup) (argv : list string)
    : list main_output * log_level_t * Z :=
  match argv !! 1%nat with
  | Some arg =>
      if String.eqb arg "--version" then ([print_version], LL_INFO, 0)
      else if String.eqb arg "--quiet" then main_start env LL_QUIET
      else if String.eqb arg "--verbose" || String.eqb arg "--verbose=raw"
      then main_start env LL_RAW
      else if String.eqb arg "--verbose=debug" then main_start env LL_VERBOSE
      else main_exit [print_usage] LL_INFO (- EINVAL)
  | None => main_start env LL_INFO
  end.

(** ** Predicates of the specification *)

(** The number of enabled profiles of a device, and "[profile] is the last
    enabled profile of [device]": it is enabled and it is the only one. *)
Definition num_enabled_profiles (device : ghostcat_device) : nat :=
  length (List.filter profile_is_enabled (device_profiles device)).

Definition is_last_enabled_profile (device : ghostcat_device)
    (profile : ghostcat_profile) : bool :=
  profile_is_enabled profile && (num_enabled_profiles device =? 1)%nat.

(** The device has an active profile that is enabled. *)
Definition active_profile_enabled (device : ghostcat_device) : bool :=
  existsb (fun p => profile_is_active p && profile_is_enabled p)
    (device_profiles device).

(** The profiles for which the loop of [ghostcat_device_commit] calls
    [set_active_profile]. *)
Definition switch_pending (p : ghostcat_profile) : bool :=
  profile_is_active_dirty p && profile_is_active p.

(** The driver has a [set_active_profile] callback and it succeeds for the
    profile [p], whatever the state of the device. *)
Definition switch_succeeds (driver : ghostcat_driver) (p : ghostcat_profile)
    : Prop :=
  exists callback,
    set_active_profile driver = Some callback
    /\ forall device, callback device (profile_index p) = 0.

(** One iteration at position [j] clears the bit [get] at [j] unless [j] is
    the target [i], and keeps it at the other positions. *)
Definition clears_at (get : ghostcat_resolution -> bool) (i j : nat)
    (l l' : list ghostcat_resolution) : Prop :=
  length l' = length l
  /\ forall m r', m <> i -> l' !! m = Some r' ->
       exists r, l !! m = Some r
                 /\ get r' = if decide (m = j) then false else get r.

(** The entries of the modifier table whose mask is set in [modifiers], in
    table order. *)
Definition selected_modifiers (modifiers : Z)
    : list ghostcat_modifier_mapping_entry :=
  List.filter
    (fun mapping => negb (Z.land modifiers (modifier_mask mapping) =? 0))
    ghostcat_modifier_mapping.

Definition key_event (type : Z) (mapping : ghostcat_modifier_mapping_entry)
    : ghostcat_macro_event :=
  mk_event type (key mapping).

Definition none_event : ghostcat_macro_event :=
  mk_event GHOSTCAT_MACRO_EVENT_NONE 0.

(** The encoding of a key with modifiers in the words of the specification:
    a press event for each set modifier in canonical order, the press and the
    release of the key, a release event for the same modifiers in the same
    order. *)
Definition keycode_events (key modifiers : Z) : list ghostcat_macro_event :=
  (key_event GHOSTCAT_MACRO_EVENT_KEY_PRESSED <$> selected_modifiers modifiers)
  ++ [mk_event GHOSTCAT_MACRO_EVENT_KEY_PRESSED key;
      mk_event GHOSTCAT_MACRO_EVENT_KEY_RELEASED key]
  ++ (key_event GHOSTCAT_MACRO_EVENT_KEY_RELEASED
        <$> selected_modifiers modifiers).

(** An event array whose used slots are [l]: the other slots hold
    [GHOSTCAT_MACRO_EVENT_NONE]. *)
Definition padded_events (l : list ghostcat_macro_event)
    : list ghostcat_macro_event :=
  l ++ replicate (MAX_MACRO_EVENTS - length l) none_event.

(** Every entry of the modifier table is a modifier for the predicate, is a
    label of the decoder's [switch] with the mask of the entry, and has a
    one-bit mask. *)
Definition table_entry_ok (mapping : ghostcat_modifier_mapping_entry) : Prop :=
  ghostcat_key_is_modifier (key mapping) = true
  /\ switch_modifier_key (key mapping) = Some (modifier_mask mapping)
  /\ exists k, 0 <= k /\ modifier_mask mapping = 2 ^ k.

(** The masks of a list of table entries, or-ed onto [acc]: the modifier
    mask of the decoder after the press events of these entries. *)
Definition or_masks (sel : list ghostcat_modifier_mapping_entry) (acc : Z) : Z :=
  fold_left (fun a mapping => Z.lor a (modifier_mask mapping)) sel acc.

(** The report rate the bus setter stores for a written value. *)
Definition clamped_report_rate (rate : Z) : Z := Z.max 125 (Z.min rate 8000).

(** ** Sample objects *)

Module Sample.

Definition resolution (index : Z) (active dflt disabled shift dirty : bool)
    : ghostcat_resolution :=
  mk_resolution index [400; 800; 1600] 800 800 active dflt disabled shift
    dirty 0.

Definition profile (index : Z) (active enabled : bool) (caps : gset Z)
    (rs : list ghostcat_resolution) : ghostcat_profile :=
  mk_profile index None [mk_button 0 (mk_action 0 0 None) 0 false] rs
    [mk_led 0 0 false] 1000 [125; 500; 1000] false (-1) false (-1) false
    (Z.of_nat (length rs)) active false enabled false caps.

(** Three resolutions: the first active and default, the second the shift
    target, the third disabled. *)
Definition resolutions : list ghostcat_resolution :=
  [ resolution 0 true true false false false;
    resolution 1 false false false true false;
    resolution 2 false false true false false ].

Definition profile0 : ghostcat_profile :=
  profile 0 true true {[ GHOSTCAT_PROFILE_CAP_DISABLE ]} resolutions.

Definition profile1 : ghostcat_profile :=
  profile 1 false true {[ GHOSTCAT_PROFILE_CAP_DISABLE ]} resolutions.

Definition device1 : ghostcat_device := mk_device "mouse" 1 [profile0].

Definition device2 : ghostcat_device := mk_device "mouse" 2 [profile0; profile1].

(** The active profile is disabled and the other profile is the only
    enabled one; the sanity check of the probe accepts such a device. *)
Definition device_active_disabled : ghostcat_device :=
  mk_device "mouse" 2
    [ profile 0 true false {[ GHOSTCAT_PROFILE_CAP_DISABLE ]} resolutions;
      profile1 ].

(** The two-profile device after a switch to its second profile. *)
Definition device2_switched : ghostcat_device :=
  match ghostcat_profile_set_active device2 1 with
  | Some (_, device) => device
  | None => device2
  end.

(** The test driver of [libghostcat-test.c]: [commit] and
    [set_active_profile] return 0, there is no refresh hook. *)
Definition test_driver : ghostcat_driver :=
  mk_driver "Test driver" (Some (fun device => (0, device)))
    (Some (fun _ _ => 0)) None.

(** A driver whose [set_active_profile] fails with [-EIO]. *)
Definition failing_switch_driver : ghostcat_driver :=
  mk_driver "failing switch" (Some (fun device => (0, device)))
    (Some (fun _ _ => -5)) None.

(** A driver whose [commit] fails with [-EIO]. *)
Definition failing_commit_driver : ghostcat_driver :=
  mk_driver "failing commit" (Some (fun device => (-5, device)))
    (Some (fun _ _ => 0)) None.

(** A driver whose refresh hook finds the second resolution of the first
    profile active and reports a change. *)
Definition refreshing_driver : ghostcat_driver :=
  mk_driver "refreshing" (Some (fun device => (0, device)))
    (Some (fun _ _ => 0))
    (Some (fun device =>
             (1, set_device_profiles
                   (alter
                      (fun p =>
                         set_profile_resolutions
                           (alter (set_res_is_active true) 1%nat
                              (set_res_is_active false
                                 <$> profile_resolutions p)) p)
                      0%nat (device_profiles device)) device))).

(** The daemon side: the children of a profile are named by their object
    paths, and their resync emits one signal each. *)
Definition child_resync (interface : ghostcatd_interface) (path : string)
    : list bus_signal * Z :=
  ([properties_changed path interface ["IsActive"]%string], 0).

Definition dprofile (k : nat) (path : string)
    : ghostcatd_profile string string string :=
  mk_dprofile string string string k (Z.of_nat k) path
    [(path +:+ "/r0")%string; (path +:+ "/r1")%string]
    [(path +:+ "/b0")%string] [(path +:+ "/l0")%string].

Definition ddevice (driver : option ghostcat_driver)
    : ghostcatd_device string string string :=
  mk_ddevice string string string "hidraw0" "/device/hidraw0" device2 driver
    [dprofile 0 "/profile/hidraw0/p0"; dprofile 1 "/profile/hidraw0/p1"].

(** The devices of a poll tick: one whose driver reports a change, one
    whose driver has no refresh hook. *)
Definition refreshing_ddevice : ghostcatd_device string string string :=
  ddevice (Some refreshing_driver).

Definition polled_devices : list (ghostcatd_device string string string) :=
  [refreshing_ddevice; ddevice (Some test_driver)].

End Sample.

(** * More of the library and of the daemon *)

(** ** Resolutions: DPI values, capabilities, the disabled flag
    ([libghostcat.c], [libghostcat-private.h]) *)

Definition GHOSTCAT_RESOLUTION_CAP_SEPARATE_XY_RESOLUTION : Z := 1.
Definition GHOSTCAT_RESOLUTION_CAP_DISABLE : Z := 2.

Definition set_res_dpis (dpis : list Z) (r : ghostcat_resolution) :=
  mk_resolution (res_index r) dpis (res_dpi_x r) (res_dpi_y r)
    (res_is_active r) (res_is_default r) (res_is_disabled r)
    (res_is_dpi_shift_target r) (res_dirty r) (res_capabilities r).

Definition set_res_dpi_x (v : Z) (r : ghostcat_resolution) :=
  mk_resolution (res_index r) (res_dpis r) v (res_dpi_y r)
    (res_is_active r) (res_is_default r) (res_is_disabled r)
    (res_is_dpi_shift_target r) (res_dirty r) (res_capabilities r).

Definition set_res_dpi_y (v : Z) (r : ghostcat_resolution) :=
  mk_resolution (res_index r) (res_dpis r) (res_dpi_x r) v
    (res_is_active r) (res_is_default r) (res_is_disabled r)
    (res_is_dpi_shift_target r) (res_dirty r) (res_capabilities r).

Definition set_res_is_disabled (v : bool) (r : ghostcat_resolution) :=
  mk_resolution (res_index r) (res_dpis r) (res_dpi_x r) (res_dpi_y r)
    (res_is_active r) (res_is_default r) v
    (res_is_dpi_shift_target r) (res_dirty r) (res_capabilities r).

Definition set_res_capabilities (v : Z) (r : ghostcat_resolution) :=
  mk_resolution (res_index r) (res_dpis r) (res_dpi_x r) (res_dpi_y r)
    (res_is_active r) (res_is_default r) (res_is_disabled r)
    (res_is_dpi_shift_target r) (res_dirty r) v.

(** [!!(resolution->capabilities & (1 << cap))]; the source asserts
    [cap <= GHOSTCAT_RESOLUTION_CAP_DISABLE], which holds of the two
    capability constants. *)
Definition ghostcat_resolution_has_capability
    (resolution : ghostcat_resolution) (cap : Z) : bool :=
  negb (Z.land (res_capabilities resolution) (Z.shiftl 1 cap) =? 0).

Definition ghostcat_resolution_set_cap (cap : Z) (res : ghostcat_resolution)
    : ghostcat_resolution :=
  set_res_capabilities (Z.lor (res_capabilities res) (Z.shiftl 1 cap)) res.

(** [res_dpis] holds the [ndpis] used entries of the array [dpis[300]]. *)
Definition resolution_has_dpi (resolution : ghostcat_resolution) (dpi : Z)
    : bool :=
  existsb (fun d => dpi =? d) (res_dpis resolution).

Definition ghostcat_resolution_set_dpi (profile : ghostcat_profile) (i : nat)
    (dpi : Z) : option (Z * ghostcat_profile) :=
  resolution ← profile_resolutions profile !! i;
  if negb (resolution_has_dpi resolution dpi) then
    Some (GHOSTCAT_ERROR_VALUE, profile)
  else if negb (res_dpi_x resolution =? dpi)
          || negb (res_dpi_y resolution =? dpi) then
    let p := update_resolution i (set_res_dpi_x dpi) profile in
    let p := update_resolution i (set_res_dpi_y dpi) p in
    let p := update_resolution i (set_res_dirty true) p in
    Some (GHOSTCAT_SUCCESS, set_profile_dirty true p)
  else Some (GHOSTCAT_SUCCESS, profile).

Definition ghostcat_resolution_set_dpi_xy (profile : ghostcat_profile)
    (i : nat) (x y : Z) : option (Z * ghostcat_profile) :=
  resolution ← profile_resolutions profile !! i;
  if negb (ghostcat_resolution_has_capability resolution
             GHOSTCAT_RESOLUTION_CAP_SEPARATE_XY_RESOLUTION) then
    Some (GHOSTCAT_ERROR_CAPABILITY, profile)
  else if ((x =? 0) && negb (y =? 0)) || (negb (x =? 0) && (y =? 0)) then
    Some (GHOSTCAT_ERROR_VALUE, profile)
  else if negb (resolution_has_dpi resolution x)
          || negb (resolution_has_dpi resolution y) then
    Some (GHOSTCAT_ERROR_VALUE, profile)
  else if negb (res_dpi_x resolution =? x)
          || negb (res_dpi_y resolution =? y) then
    let p := update_resolution i (set_res_dpi_x x) profile in
    let p := update_resolution i (set_res_dpi_y y) p in
    let p := update_resolution i (set_res_dirty true) p in
    Some (GHOSTCAT_SUCCESS, set_profile_dirty true p)
  else Some (GHOSTCAT_SUCCESS, profile).

Definition ghostcat_resolution_set_disabled (profile : ghostcat_profile)
    (i : nat) (disable : bool) : option (Z * ghostcat_profile) :=
  resolution ← profile_resolutions profile !! i;
  if negb (ghostcat_resolution_has_capability resolution
             GHOSTCAT_RESOLUTION_CAP_DISABLE) then
    Some (GHOSTCAT_ERROR_CAPABILITY, profile)
  else if disable && res_is_active resolution then
    Some (GHOSTCAT_ERROR_VALUE, profile)
  else if disable && res_is_default resolution then
    Some (GHOSTCAT_ERROR_VALUE, profile)
  else
    let p := update_resolution i (set_res_is_disabled disable) profile in
    let p := update_resolution i (set_res_dirty true) p in
    Some (GHOSTCAT_SUCCESS, set_profile_dirty true p).

(** [ghostcat_resolution_set_dpi_list_from_range]: the [while] loop runs
    while [ndpis] is below the 300 entries of the array; [room] is the number
    of free entries.  [dpi] is an [unsigned int]: the addition wraps.  The
    result is the entries written and [maxed_out]. *)
Definition DPIS_LENGTH : nat := 300.

Definition dpi_stepsize (dpi : Z) : Z :=
  if dpi <? 1000 then 50
  else if dpi <? 2600 then 100
  else if dpi <? 5000 then 200
  else 500.

Fixpoint dpi_list_from_range_loop (room : nat) (dpi max : Z)
    : list Z * bool :=
  match room with
  | O => ([], false)
  | S room' =>
      if max <? dpi then ([], true)
      else
        let '(dpis, maxed_out) :=
          dpi_list_from_range_loop room'
            ((dpi + dpi_stepsize dpi) mod 2 ^ 32) max in
        (dpi :: dpis, maxed_out)
  end.

(** The result is the resolution and whether the function logged
    "resolution range exceeds available space". *)
Definition ghostcat_resolution_set_dpi_list_from_range
    (res : ghostcat_resolution) (min max : Z) : ghostcat_resolution * bool :=
  let '(dpis, maxed_out) := dpi_list_from_range_loop DPIS_LENGTH min max in
  (set_res_dpis dpis res, negb maxed_out).

(** [assert(dpis[i] > dpis[i - 1])] for every [i > 0]. *)
Fixpoint strictly_increasing (l : list Z) : bool :=
  match l with
  | x :: ((y :: _) as rest) => (x <? y) && strictly_increasing rest
  | _ => true
  end.

(** [ghostcat_resolution_set_dpi_list]: [None] when an [assert] of the
    source fails and the process aborts. *)
Definition ghostcat_resolution_set_dpi_list (res : ghostcat_resolution)
    (dpis : list Z) : option ghostcat_resolution :=
  if (length dpis <=? DPIS_LENGTH)%nat && strictly_increasing dpis then
    Some (set_res_dpis dpis res)
  else None.

(** ** Profiles: angle snapping, debounce, name ([libghostcat.c]) *)

Definition set_profile_angle_snapping (v : Z) (p : ghostcat_profile) :=
  mk_profile (profile_index p) (profile_name p) (profile_buttons p)
    (profile_resolutions p) (profile_leds p) (profile_hz p) (profile_rates p)
    (profile_rate_dirty p) v (profile_angle_snapping_dirty p)
    (profile_debounce p) (profile_debounce_dirty p)
    (profile_num_resolutions p) (profile_is_active p)
    (profile_is_active_dirty p) (profile_is_enabled p) (profile_dirty p)
    (profile_capabilities p).

Definition set_profile_debounce (v : Z) (p : ghostcat_profile) :=
  mk_profile (profile_index p) (profile_name p) (profile_buttons p)
    (profile_resolutions p) (profile_leds p) (profile_hz p) (profile_rates p)
    (profile_rate_dirty p) (profile_angle_snapping p)
    (profile_angle_snapping_dirty p) v (profile_debounce_dirty p)
    (profile_num_resolutions p) (profile_is_active p)
    (profile_is_active_dirty p) (profile_is_enabled p) (profile_dirty p)
    (profile_capabilities p).

Definition ghostcat_profile_set_angle_snapping (profile : ghostcat_profile)
    (value : Z) : Z * ghostcat_profile :=
  if negb (profile_angle_snapping profile =? value) then
    let profile := set_profile_angle_snapping value profile in
    let profile := set_profile_dirty true profile in
    let profile := set_profile_angle_snapping_dirty true profile in
    (GHOSTCAT_SUCCESS, profile)
  else (GHOSTCAT_SUCCESS, profile).

Definition ghostcat_profile_set_debounce (profile : ghostcat_profile)
    (value : Z) : Z * ghostcat_profile :=
  if negb (profile_debounce profile =? value) then
    let profile := set_profile_debounce value profile in
    let profile := set_profile_dirty true profile in
    let profile := set_profile_debounce_dirty true profile in
    (GHOSTCAT_SUCCESS, profile)
  else (GHOSTCAT_SUCCESS, profile).

(** ** The sanity check after the probe ([libghostcat.c]) *)

(** [ghostcat_resolution_get_dpi_list] and
    [ghostcat_profile_get_report_rate_list] return the number of entries;
    the copy into the caller's buffer is not observed by the check.  Their
    [assert] on the buffer size holds at every call of the check: the size
    is 300 at first and a previous nonzero return afterwards. *)
Definition ghostcat_resolution_get_dpi_list (resolution : ghostcat_resolution)
    : Z :=
  Z.of_nat (length (res_dpis resolution)).

Definition ghostcat_profile_get_report_rate_list (profile : ghostcat_profile)
    : Z :=
  Z.of_nat (length (profile_rates profile)).

(** The inner loop over the resolutions of a profile: [false] at the first
    resolution with an empty DPI list ([goto out]). *)
Fixpoint sanity_check_resolutions (resolutions : list ghostcat_resolution)
    : bool :=
  match resolutions with
  | [] => true
  | resolution :: rest =>
      if ghostcat_resolution_get_dpi_list resolution =? 0 then false
      else sanity_check_resolutions rest
  end.

(** The loop over the profiles: [None] for [goto out], otherwise the value
    of [has_active] after the loop. *)
Fixpoint sanity_check_profiles (profiles : list ghostcat_profile)
    (has_active : bool) : option bool :=
  match profiles with
  | [] => Some has_active
  | profile :: rest =>
      (* Allow max 1 active profile *)
      if profile_is_active profile && has_active then None
      else
        let has_active := has_active || profile_is_active profile in
        if 16 <? profile_num_resolutions profile then None
        else if negb (sanity_check_resolutions (profile_resolutions profile))
        then None
        else if ghostcat_profile_get_report_rate_list profile =? 0 then None
        else sanity_check_profiles rest has_active
  end.

Definition ghostcat_sanity_check_device (device : ghostcat_device) : bool :=
  if (device_num_profiles device =? 0) || (16 <? device_num_profiles device)
  then false
  else
    match sanity_check_profiles (device_profiles device) false with
    | None => false
    | Some has_active =>
        (* Require 1 active profile *)
        has_active
    end.

(** What a checked device satisfies, stated without the loops. *)
Definition profile_sane (p : ghostcat_profile) : bool :=
  (profile_num_resolutions p <=? 16)
  && forallb (fun r => negb (length (res_dpis r) =? 0)%nat)
       (profile_resolutions p)
  && negb (length (profile_rates p) =? 0)%nat.

Definition num_active_profiles (device : ghostcat_device) : nat :=
  length (List.filter profile_is_active (device_profiles device)).

(** ** Buttons ([libghostcat.c], [libghostcat-private.h]) *)

Definition GHOSTCAT_BUTTON_ACTION_SPECIAL_INVALID : Z := -1.

Definition set_button_action_caps (v : Z) (b : ghostcat_button) :=
  mk_button (button_index b) (button_action b) v (button_dirty b).

(** [button->action_caps |= 1 << type]. *)
Definition ghostcat_button_enable_action_type (button : ghostcat_button)
    (type : Z) : ghostcat_button :=
  set_button_action_caps
    (Z.lor (button_action_caps button) (Z.shiftl 1 type)) button.

(** The [switch] lets the five action types through and returns 0 for every
    other value, before any shift. *)
Definition ghostcat_button_has_action_type (button : ghostcat_button)
    (action_type : Z) : bool :=
  if (action_type =? GHOSTCAT_BUTTON_ACTION_TYPE_NONE)
     || (action_type =? GHOSTCAT_BUTTON_ACTION_TYPE_BUTTON)
     || (action_type =? GHOSTCAT_BUTTON_ACTION_TYPE_SPECIAL)
     || (action_type =? GHOSTCAT_BUTTON_ACTION_TYPE_KEY)
     || (action_type =? GHOSTCAT_BUTTON_ACTION_TYPE_MACRO)
  then negb (Z.land (button_action_caps button) (Z.shiftl 1 action_type) =? 0)
  else false.

Definition ghostcat_button_get_button (button : ghostcat_button) : Z :=
  if negb (action_type (button_action button)
           =? GHOSTCAT_BUTTON_ACTION_TYPE_BUTTON) then 0
  else action_value (button_action button).

Definition ghostcat_button_get_special (button : ghostcat_button) : Z :=
  if negb (action_type (button_action button)
           =? GHOSTCAT_BUTTON_ACTION_TYPE_SPECIAL)
  then GHOSTCAT_BUTTON_ACTION_SPECIAL_INVALID
  else action_value (button_action button).

Definition ghostcat_button_get_key (button : ghostcat_button) : Z :=
  if negb (action_type (button_action button)
           =? GHOSTCAT_BUTTON_ACTION_TYPE_KEY) then 0
  else action_value (button_action button).

(** [button->action = *action], and the macro pointer the button had is put
    back unless the new action is a macro. *)
Definition ghostcat_button_set_action (button : ghostcat_button)
    (action : ghostcat_button_action) : ghostcat_button :=
  let macro := action_macro (button_action button) in
  let button := set_button_action action button in
  if negb (action_type action =? GHOSTCAT_BUTTON_ACTION_TYPE_MACRO) then
    set_button_action
      (mk_action (action_type (button_action button))
         (action_value (button_action button)) macro) button
  else button.

(** A write through a button pointer: [f] applied to the button at position
    [j] of the profile. *)
Definition update_button (j : nat) (f : ghostcat_button -> ghostcat_button)
    (p : ghostcat_profile) : ghostcat_profile :=
  set_profile_buttons (alter f j (profile_buttons p)) p.

(** The setters receive a button pointer: the profile and the position of
    the button among its buttons.  [action] starts as [{0}]: type 0, value
    0, a null macro pointer. *)
Definition ghostcat_button_set_button (profile : ghostcat_profile) (j : nat)
    (btn : Z) : option (Z * ghostcat_profile) :=
  button ← profile_buttons profile !! j;
  if negb (ghostcat_button_has_action_type button
             GHOSTCAT_BUTTON_ACTION_TYPE_BUTTON) then
    Some (GHOSTCAT_ERROR_CAPABILITY, profile)
  else
    let action := mk_action GHOSTCAT_BUTTON_ACTION_TYPE_BUTTON btn None in
    let p := update_button j (fun b => ghostcat_button_set_action b action)
               profile in
    let p := update_button j (set_button_dirty true) p in
    Some (GHOSTCAT_SUCCESS, set_profile_dirty true p).

Definition ghostcat_button_set_special (profile : ghostcat_profile) (j : nat)
    (act : Z) : option (Z * ghostcat_profile) :=
  button ← profile_buttons profile !! j;
  if negb (ghostcat_button_has_action_type button
             GHOSTCAT_BUTTON_ACTION_TYPE_SPECIAL) then
    Some (GHOSTCAT_ERROR_CAPABILITY, profile)
  else
    let action := mk_action GHOSTCAT_BUTTON_ACTION_TYPE_SPECIAL act None in
    let p := update_button j (fun b => ghostcat_button_set_action b action)
               profile in
    let p := update_button j (set_button_dirty true) p in
    Some (GHOSTCAT_SUCCESS, set_profile_dirty true p).

Definition ghostcat_button_set_key (profile : ghostcat_profile) (j : nat)
    (key : Z) : option (Z * ghostcat_profile) :=
  button ← profile_buttons profile !! j;
  if negb (ghostcat_button_has_action_type button
             GHOSTCAT_BUTTON_ACTION_TYPE_KEY) then
    Some (GHOSTCAT_ERROR_CAPABILITY, profile)
  else
    let action := mk_action GHOSTCAT_BUTTON_ACTION_TYPE_KEY key None in
    let p := update_button j (fun b => ghostcat_button_set_action b action)
               profile in
    let p := update_button j (set_button_dirty true) p in
    Some (GHOSTCAT_SUCCESS, set_profile_dirty true p).

Definition ghostcat_button_disable (profile : ghostcat_profile) (j : nat)
    : option (Z * ghostcat_profile) :=
  button ← profile_buttons profile !! j;
  if negb (ghostcat_button_has_action_type button
             GHOSTCAT_BUTTON_ACTION_TYPE_NONE) then
    Some (GHOSTCAT_ERROR_CAPABILITY, profile)
  else
    let action := mk_action GHOSTCAT_BUTTON_ACTION_TYPE_NONE 0 None in
    let p := update_button j (fun b => ghostcat_button_set_action b action)
               profile in
    let p := update_button j (set_button_dirty true) p in
    Some (GHOSTCAT_SUCCESS, set_profile_dirty true p).

(** ** Macros of a button and macro events ([libghostcat.c]) *)

(** The result of [ghostcat_button_get_macro]: a null pointer, a new macro,
    or no result at all, when the action type is Macro and the button has
    no macro storage: the function then reads through a null pointer. *)
Inductive get_macro_result :=
| macro_null
| macro_copy (macro : ghostcat_macro)
| macro_null_dereference.

(** The new macro has the name of the button's macro and its events; its
    group is the null pointer of the zeroed allocation. *)
Definition ghostcat_button_get_macro (button : ghostcat_button)
    : get_macro_result :=
  if negb (action_type (button_action button)
           =? GHOSTCAT_BUTTON_ACTION_TYPE_MACRO) then macro_null
  else
    match action_macro (button_action button) with
    | None => macro_null_dereference
    | Some m => macro_copy (mk_macro (macro_name m) None (macro_events m))
    end.

Definition ghostcat_button_set_macro (profile : ghostcat_profile) (j : nat)
    (macro : ghostcat_macro) : option (Z * ghostcat_profile) :=
  button ← profile_buttons profile !! j;
  if negb (ghostcat_button_has_action_type button
             GHOSTCAT_BUTTON_ACTION_TYPE_MACRO) then
    Some (GHOSTCAT_ERROR_CAPABILITY, profile)
  else
    let p := update_button j (fun b => ghostcat_button_copy_macro b macro)
               profile in
    let p := update_button j (set_button_dirty true) p in
    Some (GHOSTCAT_SUCCESS, set_profile_dirty true p).

(** [macro->events[index]] for an index below [MAX_MACRO_EVENTS]. *)
Definition macro_event_at (macro : ghostcat_macro) (index : nat)
    : ghostcat_macro_event :=
  default (mk_event GHOSTCAT_MACRO_EVENT_NONE 0) (macro_events macro !! index).

(** The value of an [unsigned int] returned as [int]. *)
Definition unsigned_to_int (v : Z) : Z :=
  if v <? 2 ^ 31 then v else v - 2 ^ 32.

Definition ghostcat_button_macro_get_event_type (macro : ghostcat_macro)
    (index : nat) : Z :=
  if (MAX_MACRO_EVENTS <=? index)%nat then GHOSTCAT_MACRO_EVENT_INVALID
  else ev_type (macro_event_at macro index).

Definition ghostcat_button_macro_get_event_key (macro : ghostcat_macro)
    (index : nat) : Z :=
  if (MAX_MACRO_EVENTS <=? index)%nat then 0
  else if negb (ev_type (macro_event_at macro index)
                =? GHOSTCAT_MACRO_EVENT_KEY_PRESSED)
          && negb (ev_type (macro_event_at macro index)
                   =? GHOSTCAT_MACRO_EVENT_KEY_RELEASED) then - EINVAL
  else unsigned_to_int (ev_key (macro_event_at macro index)).

Definition ghostcat_button_macro_get_event_timeout (macro : ghostcat_macro)
    (index : nat) : Z :=
  if (MAX_MACRO_EVENTS <=? index)%nat then 0
  else if negb (ev_type (macro_event_at macro index)
                =? GHOSTCAT_MACRO_EVENT_WAIT) then 0
  else unsigned_to_int (ev_key (macro_event_at macro index)).

(** *** Sample button *)

Module Pad.

(** A button that supports the five action types, assigned to button 1. *)
Definition button : ghostcat_button :=
  ghostcat_button_enable_action_type
    (ghostcat_button_enable_action_type
       (ghostcat_button_enable_action_type
          (ghostcat_button_enable_action_type
             (ghostcat_button_enable_action_type
                (mk_button 0
                   (mk_action GHOSTCAT_BUTTON_ACTION_TYPE_BUTTON 1 None)
                   0 false)
                GHOSTCAT_BUTTON_ACTION_TYPE_NONE)
             GHOSTCAT_BUTTON_ACTION_TYPE_BUTTON)
          GHOSTCAT_BUTTON_ACTION_TYPE_SPECIAL)
       GHOSTCAT_BUTTON_ACTION_TYPE_KEY)
    GHOSTCAT_BUTTON_ACTION_TYPE_MACRO.

Definition profile : ghostcat_profile :=
  set_profile_buttons [button] Sample.profile0.

End Pad.

(** ** The daemon: commit, resync and the profile calls
    ([ghostcatd-device.c], [ghostcatd-profile.c]) *)

(** [sd_bus_message_read(m, "b", &disabled)]. *)
Definition sd_bus_message_read_b (m : sd_bus_message) : Z * option bool :=
  match m with
  | bus_b v :: _ => (1, Some v)
  | _ => (- ENXIO, None)
  end.

Section DaemonCalls.

Variable sd_bus_rc : bus_signal -> Z.
Variables ghostcatd_resolution ghostcatd_button ghostcatd_led : Type.
Variable ghostcatd_resolution_resync : ghostcatd_resolution -> list bus_signal * Z.
Variable ghostcatd_button_resync : ghostcatd_button -> list bus_signal * Z.
Variable ghostcatd_led_resync : ghostcatd_led -> list bus_signal * Z.

(** The return value of [sd_bus_reply_method_return]. *)
Variable sd_bus_reply_rc : Z.

Local Abbreviation dprofile :=
  (ghostcatd_profile ghostcatd_resolution ghostcatd_button ghostcatd_led).
Local Abbreviation ddevice :=
  (ghostcatd_device ghostcatd_resolution ghostcatd_button ghostcatd_led).

Definition ghostcatd_device_resync (device : ddevice) : list bus_signal * Z :=
  let out :=
    fst (ghostcatd_for_each_profile_signal _ _ _ device
           (ghostcatd_profile_resync sd_bus_rc _ _ _
              ghostcatd_resolution_resync ghostcatd_button_resync
              ghostcatd_led_resync)) in
  let '(out', rc) :=
    sd_bus_emit_signal sd_bus_rc (ddevice_path _ _ _ device) Device_interface
      "Resync" in
  (out ++ out', rc).

(** The task that the [Commit] method schedules.  [ghostcat_device_commit]
    reads the driver through [device->driver]: there is no result without
    one.  The result is the device after the commit and the signals handed
    to the bus. *)
Definition ghostcatd_device_commit_pending (device : ddevice)
    : option (ddevice * list bus_signal) :=
  driver ← ddevice_lib_driver _ _ _ device;
  let '(r, lib) :=
    ghostcat_device_commit driver (ddevice_lib_device _ _ _ device) in
  let device := set_ddevice_lib_device _ _ _ lib device in
  let out1 := if r <? 0 then fst (ghostcatd_device_resync device) else [] in
  let out2 :=
    fst (ghostcatd_for_each_profile_signal _ _ _ device
           (ghostcatd_profile_notify_dirty sd_bus_rc _ _ _)) in
  Some (device, out1 ++ out2).

Definition ghostcatd_profile_active_signal_cb (profile : dprofile)
    : list bus_signal * Z :=
  (fst (sd_bus_emit_properties_changed sd_bus_rc (dprofile_path _ _ _ profile)
          Profile_interface ["IsActive"]%string), 0).

(** The method [SetActive] of a profile of [device].
    [sd_bus_message_read(m, "")] reads nothing and returns 0.  The result
    is the return value, the device after the call, the signals handed to
    the bus and the value of the method reply, if a reply was sent. *)
Definition ghostcatd_profile_set_active (device : ddevice) (profile : dprofile)
    : option (Z * ddevice * list bus_signal * option Z) :=
  '(r, lib) ← ghostcat_profile_set_active (ddevice_lib_device _ _ _ device)
                (dprofile_lib_profile _ _ _ profile);
  let device := set_ddevice_lib_device _ _ _ lib device in
  let '(out1, r) :=
    if r <? 0 then ghostcatd_device_resync device else ([], r) in
  if r <? 0 then Some (r, device, out1, None)
  else
    let out2 :=
      fst (ghostcatd_for_each_profile_signal _ _ _ device
             ghostcatd_profile_active_signal_cb) in
    let out3 := fst (ghostcatd_profile_notify_dirty sd_bus_rc _ _ _ profile) in
    if sd_bus_reply_rc <? 0 then
      Some (sd_bus_reply_rc, device, out1 ++ out2 ++ out3, Some 0)
    else Some (0, device, out1 ++ out2 ++ out3, Some 0).

(** The property setter of [Disabled].  The result is the return value, the
    library device after the call and the signals handed to the bus. *)
Definition ghostcatd_profile_set_disabled (m : sd_bus_message)
    (profile : dprofile) (lib_device : ghostcat_device)
    : option (Z * ghostcat_device * list bus_signal) :=
  match sd_bus_message_read_b m with
  | (r, Some disabled) =>
      if r <? 0 then Some (r, lib_device, [])
      else
        '(r, lib_device) ←
          ghostcat_device_profile_set_enabled lib_device
            (dprofile_lib_profile _ _ _ profile) (negb disabled);
        if r =? 0 then
          Some (0, lib_device,
                fst (sd_bus_emit_properties_changed sd_bus_rc
                       (dprofile_path _ _ _ profile) Profile_interface
                       ["Disabled"]%string)
                ++ fst (ghostcatd_profile_notify_dirty sd_bus_rc _ _ _
                          profile))
        else Some (0, lib_device, [])
  | (r, None) => Some (r, lib_device, [])
  end.

End DaemonCalls.

(** The property-changed signal with one property name of a profile. *)
Definition profile_signal {R B L : Type} (name : string)
    (profile : ghostcatd_profile R B L) : bus_signal :=
  properties_changed (dprofile_path R B L profile) Profile_interface [name].

(** ** The Mars Gaming driver ([driver-marsgaming.c], [marsgaming-probe.c],
    [marsgaming-commit.c]) *)

Definition set_profile_rates (rates : list Z) (p : ghostcat_profile) :=
  mk_profile (profile_index p) (profile_name p) (profile_buttons p)
    (profile_resolutions p) (profile_leds p) (profile_hz p) rates
    (profile_rate_dirty p) (profile_angle_snapping p)
    (profile_angle_snapping_dirty p) (profile_debounce p)
    (profile_debounce_dirty p) (profile_num_resolutions p)
    (profile_is_active p) (profile_is_active_dirty p) (profile_is_enabled p)
    (profile_dirty p) (profile_capabilities p).

(** [marsgaming_probe_profile_report_rate]: [interval] is the [uint8_t] that
    the mouse answers to the query of its polling interval.  There is no
    result for the interval 0: the function divides by it. *)
Definition marsgaming_probe_profile_report_rate (interval : Z)
    (profile : ghostcat_profile) : option ghostcat_profile :=
  let profile := set_profile_rates [125; 250; 500; 1000] profile in
  if interval =? 0 then None
  else Some (set_profile_hz (1000 ÷ interval) profile).

(** [marsgaming_commit_profile_report_rate]: the result is the return value
    and the polling interval handed to
    [marsgaming_command_profile_set_polling_interval], if the command is
    sent.  [ghostcat_profile_get_report_rate] returns the [unsigned int]
    rate as [int]; the quotient is stored in a [uint8_t].  There is no
    result for the rate 0. *)
Definition marsgaming_commit_profile_report_rate (profile : ghostcat_profile)
    : option (Z * option Z) :=
  if negb (profile_rate_dirty profile) then Some (0, None)
  else if unsigned_to_int (profile_hz profile) =? 0 then None
  else Some (0, Some ((1000 ÷ unsigned_to_int (profile_hz profile))
                      mod 2 ^ 8)).

Section Marsgaming.

(** [marsgaming_query_current_profile] asks the mouse for its current
    profile, and [marsgaming_commit_profile] sends the settings of a dirty
    profile with the commands of [marsgaming-command.c]; the query and the
    commands are not among the sources.  The answer of the mouse and what
    the commands leave of a profile are parameters. *)
Variable marsgaming_query_current_profile : ghostcat_device -> Z.
Variable marsgaming_commit_profile : ghostcat_profile -> ghostcat_profile.

(** [profile->is_active = current_profile == profile->index], then
    [marsgaming_commit_profile(profile)], for every profile. *)
Definition marsgaming_commit_profiles (device : ghostcat_device)
    : Z * ghostcat_device :=
  let current_profile := marsgaming_query_current_profile device in
  (0, set_device_profiles
        ((fun profile =>
            marsgaming_commit_profile
              (set_profile_is_active
                 (current_profile =? profile_index profile) profile))
           <$> device_profiles device) device).

(** [marsgaming_commit] opens the hidraw node, commits the profiles and
    releases the node; the return values of the three calls are dropped. *)
Definition marsgaming_commit (device : ghostcat_device)
    : Z * ghostcat_device :=
  let '(_, device) := marsgaming_commit_profiles device in
  (0, device).

(** [marsgaming_set_active_profile] sends the command and returns 0. *)
Definition marsgaming_set_active_profile (device : ghostcat_device)
    (profile : Z) : Z := 0.

Definition marsgaming_driver : ghostcat_driver :=
  mk_driver "Mars Gaming" (Some marsgaming_commit)
    (Some marsgaming_set_active_profile) None.

End Marsgaming.

(** *** Predicates on resolutions *)

(** A resolution with the dirty flag and one of the three exclusive bits
    erased: what the setter of that bit may not change. *)
Definition forget_is_active (r : ghostcat_resolution) : ghostcat_resolution :=
  set_res_dirty false (set_res_is_active false r).

Definition forget_is_default (r : ghostcat_resolution) : ghostcat_resolution :=
  set_res_dirty false (set_res_is_default false r).

Definition forget_is_dpi_shift_target (r : ghostcat_resolution)
    : ghostcat_resolution :=
  set_res_dirty false (set_res_is_dpi_shift_target false r).

(** A profile with its dirty flag erased and its resolutions erased by
    [forget]. *)
Definition forget_profile
    (forget : ghostcat_resolution -> ghostcat_resolution)
    (p : ghostcat_profile) : ghostcat_profile :=
  set_profile_dirty false
    (set_profile_resolutions (forget <$> profile_resolutions p) p).

(** No resolution of the profile is disabled and at the same time active or
    default. *)
Definition disabled_consistent (p : ghostcat_profile) : Prop :=
  forall m r,
    profile_resolutions p !! m = Some r ->
    res_is_disabled r = true ->
    res_is_active r = false /\ res_is_default r = false.

(** *** Sample objects with resolution capabilities *)

Module Mouse.

(** A resolution with both capabilities: separate x/y values and the
    disabled flag. *)
Definition resolution (index : Z) (active dflt disabled shift : bool)
    : ghostcat_resolution :=
  ghostcat_resolution_set_cap GHOSTCAT_RESOLUTION_CAP_DISABLE
    (ghostcat_resolution_set_cap
       GHOSTCAT_RESOLUTION_CAP_SEPARATE_XY_RESOLUTION
       (mk_resolution index [400; 800; 1600] 800 800 active dflt disabled
          shift false 0)).

(** The first resolution active and default, the second the shift target,
    the third disabled. *)
Definition profile : ghostcat_profile :=
  Sample.profile 0 true true ∅
    [ resolution 0 true true false false;
      resolution 1 false false false true;
      resolution 2 false false true false ].

End Mouse.

(** *** Predicates on the commit *)

(** A profile with every dirty flag of its subtree cleared: what
    [ghostcat_device_commit] may not change. *)
Definition forget_flags (p : ghostcat_profile) : ghostcat_profile :=
  set_profile_is_active_dirty false (commit_clear_profile p).

(** *** Predicates on buttons *)

(** What a setter of the action type [type] with the value [value] did when
    it returned [rc] and left the profile [profile']: it succeeds exactly
    when the button supports the type, a failure is the Capability error
    and writes nothing, and after a success the getters of the button at
    position [j] read [value] for [type] and their null values for the
    other types, the macro storage of the button is the one it had, the
    button and the profile are dirty and the other buttons are as
    before. *)
Definition setter_outcome (profile : ghostcat_profile) (j : nat)
    (button : ghostcat_button) (type value rc : Z)
    (profile' : ghostcat_profile) : Prop :=
  (rc = GHOSTCAT_SUCCESS
   <-> ghostcat_button_has_action_type button type = true)
  /\ (rc <> GHOSTCAT_SUCCESS ->
      rc = GHOSTCAT_ERROR_CAPABILITY /\ profile' = profile)
  /\ (rc = GHOSTCAT_SUCCESS ->
      exists button',
        profile_buttons profile' !! j = Some button'
        /\ ghostcat_button_get_button button'
           = (if type =? GHOSTCAT_BUTTON_ACTION_TYPE_BUTTON then value else 0)
        /\ ghostcat_button_get_special button'
           = (if type =? GHOSTCAT_BUTTON_ACTION_TYPE_SPECIAL then value
              else GHOSTCAT_BUTTON_ACTION_SPECIAL_INVALID)
        /\ ghostcat_button_get_key button'
           = (if type =? GHOSTCAT_BUTTON_ACTION_TYPE_KEY then value else 0)
        /\ ghostcat_button_get_macro button' = macro_null
        /\ action_macro (button_action button')
           = action_macro (button_action button)
        /\ button_action_caps button' = button_action_caps button
        /\ button_dirty button' = true
        /\ profile_dirty profile' = true
        /\ forall m, m <> j ->
             profile_buttons profile' !! m = profile_buttons profile !! m).

(** * Properties *)

(** ** Resolution setters on a disabled resolution *)

(** C6. On a resolution whose [is_disabled] flag is set, each of
    [ghostcat_resolution_set_active], [ghostcat_resolution_set_default] and
    [ghostcat_resolution_set_dpi_shift_target] returns the Invalid-Value
    error and leaves the profile, with all its resolutions, exactly as it
    was: no status bit and no dirty flag is written. *)
Theorem disabled_resolution_setters_fail
    (profile : ghostcat_profile) (i : nat) (resolution : ghostcat_resolution) :
  profile_resolutions profile !! i = Some resolution ->
  res_is_disabled resolution = true ->
  ghostcat_resolution_set_active profile i
    = Some (GHOSTCAT_ERROR_VALUE, profile)
  /\ ghostcat_resolution_set_default profile i
    = Some (GHOSTCAT_ERROR_VALUE, profile)
  /\ ghostcat_resolution_set_dpi_shift_target profile i
    = Some (GHOSTCAT_ERROR_VALUE, profile).
Proof.
  intros Hlookup Hdisabled.
  unfold ghostcat_resolution_set_active, ghostcat_resolution_set_default,
    ghostcat_resolution_set_dpi_shift_target.
  rewrite Hlookup; simpl. rewrite Hdisabled. auto.
Qed.

Lemma disabled_resolution_setters_fail_witness :
  ghostcat_resolution_set_active Sample.profile0 2
    = Some (GHOSTCAT_ERROR_VALUE, Sample.profile0)
  /\ ghostcat_resolution_set_default Sample.profile0 2
    = Some (GHOSTCAT_ERROR_VALUE, Sample.profile0)
  /\ ghostcat_resolution_set_dpi_shift_target Sample.profile0 2
    = Some (GHOSTCAT_ERROR_VALUE, Sample.profile0).
Proof.
  apply (disabled_resolution_setters_fail Sample.profile0 2
           (Sample.resolution 2 false false true false false));
    reflexivity.
Defined.

(** ** Activating the only profile *)

(** C10. On a device with exactly one profile ([num_profiles] is 1),
    [ghostcat_profile_set_active] on the enabled profile returns Success and
    returns the device as it was: [is_active], [is_active_dirty] and [dirty]
    of the profile keep their values. *)
Theorem set_active_single_profile_unchanged
    (device : ghostcat_device) (k : nat) (profile : ghostcat_profile) :
  device_profiles device !! k = Some profile ->
  profile_is_enabled profile = true ->
  device_num_profiles device = 1 ->
  ghostcat_profile_set_active device k = Some (GHOSTCAT_SUCCESS, device).
Proof.
  intros Hlookup Henabled Hone.
  unfold ghostcat_profile_set_active.
  rewrite Hlookup; simpl. rewrite Henabled, Hone. reflexivity.
Qed.

Lemma set_active_single_profile_unchanged_witness :
  ghostcat_profile_set_active Sample.device1 0
    = Some (GHOSTCAT_SUCCESS, Sample.device1).
Proof.
  apply (set_active_single_profile_unchanged Sample.device1 0 Sample.profile0);
    reflexivity.
Defined.

(** ** Disabling a profile *)

Lemma filter_enabled_lookup (ps : list ghostcat_profile) (k : nat)
    (p : ghostcat_profile) :
  ps !! k = Some p -> profile_is_enabled p = true ->
  (1 <= length (List.filter profile_is_enabled ps))%nat.
Proof.
  revert k. induction ps as [|q ps IH]; intros k Hk Hp; [done|].
  destruct k as [|k]; simpl in *.
  - injection Hk as ->. rewrite Hp. simpl. lia.
  - specialize (IH k Hk Hp). destruct (profile_is_enabled q); simpl; lia.
Qed.

Lemma filter_enabled_two (ps : list ghostcat_profile) (j k : nat)
    (a b : ghostcat_profile) :
  ps !! j = Some a -> ps !! k = Some b -> j <> k ->
  profile_is_enabled a = true -> profile_is_enabled b = true ->
  (2 <= length (List.filter profile_is_enabled ps))%nat.
Proof.
  revert j k. induction ps as [|q ps IH]; intros j k Hj Hk Hne Ha Hb; [done|].
  destruct j as [|j], k as [|k]; simpl in *; try congruence.
  - injection Hj as ->. rewrite Ha. simpl.
    pose proof (filter_enabled_lookup ps k b Hk Hb). lia.
  - injection Hk as ->. rewrite Hb. simpl.
    pose proof (filter_enabled_lookup ps j a Hj Ha). lia.
  - assert (j <> k) by congruence.
    specialize (IH j k Hj Hk H Ha Hb).
    destruct (profile_is_enabled q); simpl; lia.
Qed.

(** When the active profile of the device is enabled, the last enabled
    profile is the active one. *)
Lemma last_enabled_profile_is_active
    (device : ghostcat_device) (k : nat) (profile : ghostcat_profile) :
  device_profiles device !! k = Some profile ->
  is_last_enabled_profile device profile = true ->
  active_profile_enabled device = true ->
  profile_is_active profile = true.
Proof.
  intros Hk Hlast Hact.
  unfold is_last_enabled_profile in Hlast.
  apply andb_prop in Hlast as [Hen Hone]. apply Nat.eqb_eq in Hone.
  unfold active_profile_enabled in Hact.
  apply existsb_exists in Hact as (a & Hin & Ha).
  apply andb_prop in Ha as [Hactive Haen].
  apply list_elem_of_In, list_elem_of_lookup in Hin as [j Hj].
  destruct (decide (j = k)) as [->|Hne].
  - congruence.
  - pose proof (filter_enabled_two _ j k a profile Hj Hk Hne Haen Hen) as H2.
    unfold num_enabled_profiles in Hone. lia.
Qed.

(** C7, the claim as stated fails: in a device whose active profile is
    disabled, the only enabled profile is not active, and disabling it
    succeeds: the call returns Success, clears [is_enabled] and sets
    [dirty]. *)
Lemma set_enabled_last_enabled_succeeds :
  device_profiles Sample.device_active_disabled !! 1%nat = Some Sample.profile1
  /\ ghostcat_profile_has_capability Sample.profile1
       GHOSTCAT_PROFILE_CAP_DISABLE = true
  /\ is_last_enabled_profile Sample.device_active_disabled Sample.profile1 = true
  /\ ghostcat_profile_set_enabled Sample.profile1 false
     = (GHOSTCAT_SUCCESS,
        set_profile_dirty true (set_profile_is_enabled false Sample.profile1))
  /\ fst (ghostcat_profile_set_enabled Sample.profile1 false)
     <> GHOSTCAT_ERROR_VALUE.
Proof. repeat split; try reflexivity. vm_compute. discriminate. Qed.

(** C7, amended. For a profile with the disable capability,
    [ghostcat_profile_set_enabled (profile, false)] fails with Invalid-Value
    and leaves the profile (its [is_enabled] and [dirty] flags included)
    unchanged whenever the profile is the active profile of its device, or
    is the last enabled profile of a device whose active profile is
    enabled. *)
Theorem set_enabled_false_active_fails
    (device : ghostcat_device) (k : nat) (profile : ghostcat_profile) :
  device_profiles device !! k = Some profile ->
  ghostcat_profile_has_capability profile GHOSTCAT_PROFILE_CAP_DISABLE = true ->
  profile_is_active profile = true
  \/ (is_last_enabled_profile device profile = true
      /\ active_profile_enabled device = true) ->
  ghostcat_profile_set_enabled profile false = (GHOSTCAT_ERROR_VALUE, profile)
  /\ ghostcat_device_profile_set_enabled device k false
     = Some (GHOSTCAT_ERROR_VALUE, device).
Proof.
  intros Hk Hcap Hcases.
  assert (Hactive : profile_is_active profile = true).
  { destruct Hcases as [H|[Hlast Hact]]; [exact H|].
    eapply last_enabled_profile_is_active; eauto. }
  assert (Hcall : ghostcat_profile_set_enabled profile false
                  = (GHOSTCAT_ERROR_VALUE, profile)).
  { unfold ghostcat_profile_set_enabled. rewrite Hcap, Hactive. reflexivity. }
  split; [exact Hcall|].
  unfold ghostcat_device_profile_set_enabled.
  rewrite Hk; simpl. rewrite Hcall.
  rewrite list_insert_id by exact Hk. destruct device; reflexivity.
Qed.

Lemma set_enabled_false_active_fails_witness :
  ghostcat_profile_set_enabled Sample.profile0 false
    = (GHOSTCAT_ERROR_VALUE, Sample.profile0)
  /\ ghostcat_device_profile_set_enabled Sample.device2 0 false
     = Some (GHOSTCAT_ERROR_VALUE, Sample.device2).
Proof.
  apply (set_enabled_false_active_fails Sample.device2 0 Sample.profile0);
    [reflexivity | reflexivity | left; reflexivity].
Defined.

(** ** The report rate written on the bus *)

(** C5. A value written on the [ReportRate] property is accepted: the
    setter returns 0, whatever the value, and the report rate of the profile
    is afterwards the value clamped into [125, 8000]: 125 for every value
    below 125, 8000 for every value above 8000, the value itself in
    between. *)
Theorem report_rate_write_clamped
    (sd_bus_rc : bus_signal -> Z)
    (ghostcatd_resolution ghostcatd_button ghostcatd_led : Type)
    (profile : ghostcatd_profile ghostcatd_resolution ghostcatd_button
                 ghostcatd_led)
    (lib_device : ghostcat_device) (lib_profile : ghostcat_profile)
    (rate : Z) (m : sd_bus_message) :
  device_profiles lib_device !! dprofile_lib_profile _ _ _ profile
    = Some lib_profile ->
  exists lib_device' lib_profile' out,
    ghostcatd_profile_set_report_rate sd_bus_rc _ _ _ (bus_u rate :: m)
      profile lib_device = Some (0, lib_device', out)
    /\ device_profiles lib_device' !! dprofile_lib_profile _ _ _ profile
       = Some lib_profile'
    /\ profile_hz lib_profile' = clamped_report_rate rate
    /\ (rate < 125 -> profile_hz lib_profile' = 125)
    /\ (8000 < rate -> profile_hz lib_profile' = 8000)
    /\ (125 <= rate <= 8000 -> profile_hz lib_profile' = rate).
Proof.
  intros Hlookup.
  unfold ghostcatd_profile_set_report_rate.
  rewrite Hlookup; simpl.
  set (rate' := if rate <? 125 then 125 else if 8000 <? rate then 8000 else rate).
  assert (Hclamp : rate' = clamped_report_rate rate).
  { unfold rate', clamped_report_rate.
    destruct (Z.ltb_spec rate 125); [lia|].
    destruct (Z.ltb_spec 8000 rate); lia. }
  assert (Hhz : profile_hz (snd (ghostcat_profile_set_report_rate lib_profile rate'))
                = rate'
                /\ fst (ghostcat_profile_set_report_rate lib_profile rate') = 0).
  { unfold ghostcat_profile_set_report_rate.
    destruct (Z.eqb_spec (profile_hz lib_profile) rate'); simpl; auto. }
  destruct (ghostcat_profile_set_report_rate lib_profile rate')
    as [r lib_profile'] eqn:Hcall.
  simpl in Hhz. destruct Hhz as [Hhz ->]. simpl.
  eexists _, lib_profile', _. split; [reflexivity|].
  split.
  { simpl. apply list_lookup_insert_eq. eapply lookup_lt_Some; eauto. }
  rewrite Hhz, Hclamp. unfold clamped_report_rate. repeat split; lia.
Qed.

(** ** The command line of the daemon *)

(** C9, the claim as stated fails: with an unknown argument the exit status
    of [main] is 1 ([EXIT_FAILURE]), not 22. *)
Lemma main_unknown_argument_exit_status :
  snd (main (mk_startup true 0 0) ["ghostcatd"; "--frobnicate"]%string) = 1
  /\ snd (main (mk_startup true 0 0) ["ghostcatd"; "--frobnicate"]%string)
     <> 22.
Proof. split; [reflexivity | discriminate]. Qed.

(** C9, amended. When the first command-line argument is none of
    [--version], [--quiet], [--verbose], [--verbose=raw] and
    [--verbose=debug], [main] prints the usage message, starts nothing,
    reports the error 22 ([EINVAL]) in its log line and exits with status 1
    ([EXIT_FAILURE]). *)
Theorem main_unknown_argument
    (env : startup) (program arg : string) (rest : list string) :
  arg <> "--version"%string -> arg <> "--quiet"%string ->
  arg <> "--verbose"%string -> arg <> "--verbose=raw"%string ->
  arg <> "--verbose=debug"%string ->
  main env (program :: arg :: rest)
    = ([print_usage; log_error_failed_to_start EINVAL], LL_INFO, EXIT_FAILURE).
Proof.
  intros H1 H2 H3 H4 H5. unfold main. simpl.
  apply String.eqb_neq in H1, H2, H3, H4, H5.
  rewrite H1, H2, H3, H4, H5. reflexivity.
Qed.

Lemma main_unknown_argument_witness :
  main (mk_startup true 0 0) ["ghostcatd"; "--frobnicate"]%string
    = ([print_usage; log_error_failed_to_start EINVAL], LL_INFO, EXIT_FAILURE).
Proof.
  apply (main_unknown_argument (mk_startup true 0 0) "ghostcatd" "--frobnicate" []);
    discriminate.
Defined.

(** ** Decoding a macro: a modifier alone *)

Lemma switch_modifier_key_is_modifier (k : Z) :
  ghostcat_key_is_modifier k = true <-> is_Some (switch_modifier_key k).
Proof.
  unfold ghostcat_key_is_modifier, switch_modifier_key; simpl.
  repeat match goal with
         | |- context [k =? ?c] => destruct (k =? c); simpl
         end;
    split; eauto; try discriminate; intros [? ?]; discriminate.
Qed.

Lemma switch_modifier_key_not_modifier (k : Z) :
  ghostcat_key_is_modifier k = false -> switch_modifier_key k = None.
Proof.
  intros Hk. destruct (switch_modifier_key k) eqn:Hs; [|reflexivity].
  assert (ghostcat_key_is_modifier k = true)
    by (apply switch_modifier_key_is_modifier; eauto).
  congruence.
Qed.

(** C2. A macro action whose events are one key-pressed event of a modifier
    key, every other slot being [GHOSTCAT_MACRO_EVENT_NONE], decodes with
    return value 1 to that modifier's key code as the key and 0 as the
    modifier mask. *)
Theorem keycode_from_macro_single_modifier
    (k value : Z) (name group : option string)
    (rest : list ghostcat_macro_event) :
  ghostcat_key_is_modifier k = true ->
  Forall (fun e => ev_type e = GHOSTCAT_MACRO_EVENT_NONE) rest ->
  ghostcat_action_keycode_from_macro
    (mk_action GHOSTCAT_BUTTON_ACTION_TYPE_MACRO value
       (Some (mk_macro name group
                (mk_event GHOSTCAT_MACRO_EVENT_KEY_PRESSED k :: rest))))
  = (1, Some (k, 0)).
Proof.
  intros Hmod Hrest.
  unfold ghostcat_action_keycode_from_macro, macro_first_event,
    ghostcat_action_is_single_modifier_key; simpl.
  rewrite Hmod; simpl.
  assert (Hloop : single_modifier_loop rest 1 0 = (1, 0)).
  { destruct Hrest as [|e rest He _]; [reflexivity|].
    simpl. rewrite He. reflexivity. }
  change (0 + 1) with 1. rewrite Hloop. reflexivity.
Qed.

Lemma keycode_from_macro_single_modifier_witness :
  ghostcat_action_keycode_from_macro
    (mk_action GHOSTCAT_BUTTON_ACTION_TYPE_MACRO 0
       (Some (mk_macro (Some "ctrl"%string) None
                (mk_event GHOSTCAT_MACRO_EVENT_KEY_PRESSED KEY_LEFTCTRL
                 :: replicate 255 (mk_event GHOSTCAT_MACRO_EVENT_NONE 0)))))
  = (1, Some (KEY_LEFTCTRL, 0)).
Proof.
  apply (keycode_from_macro_single_modifier KEY_LEFTCTRL 0 (Some "ctrl"%string)
           None (replicate 255 (mk_event GHOSTCAT_MACRO_EVENT_NONE 0)));
    [reflexivity | apply Forall_replicate; reflexivity].
Defined.

Lemma report_rate_write_clamped_witness :
  exists lib_device' lib_profile' out,
    ghostcatd_profile_set_report_rate (fun _ => 0) string string string
      [bus_u 50] (Sample.dprofile 1 "/profile/hidraw0/p1") Sample.device2
    = Some (0, lib_device', out)
    /\ device_profiles lib_device' !! 1%nat = Some lib_profile'
    /\ profile_hz lib_profile' = clamped_report_rate 50
    /\ (50 < 125 -> profile_hz lib_profile' = 125)
    /\ (8000 < 50 -> profile_hz lib_profile' = 8000)
    /\ (125 <= 50 <= 8000 -> profile_hz lib_profile' = 50).
Proof.
  apply (report_rate_write_clamped (fun _ => 0) string string string
           (Sample.dprofile 1 "/profile/hidraw0/p1") Sample.device2
           Sample.profile1 50 []).
  reflexivity.
Defined.

(** ** Commit *)

Lemma forallb_fmap_true {A : Type} (f : A -> bool) (g : A -> A) (l : list A) :
  (forall x, f (g x) = true) -> forallb f (g <$> l) = true.
Proof.
  intros Hfg. induction l as [|x l IH]; simpl; [reflexivity|].
  rewrite Hfg. exact IH.
Qed.

Lemma commit_clear_profile_clean (p : ghostcat_profile) :
  profile_flags_clean (set_profile_is_active_dirty false (commit_clear_profile p))
  = true.
Proof.
  unfold profile_flags_clean, commit_clear_profile; simpl.
  rewrite (forallb_fmap_true _ (set_button_dirty false)) by reflexivity.
  rewrite (forallb_fmap_true _ (set_led_dirty false)) by reflexivity.
  rewrite (forallb_fmap_true _ (set_res_dirty false)) by reflexivity.
  reflexivity.
Qed.

Lemma commit_clear_profile_switch (p : ghostcat_profile) :
  profile_is_active_dirty (commit_clear_profile p)
  && profile_is_active (commit_clear_profile p) = switch_pending p.
Proof. reflexivity. Qed.

Lemma commit_clear_profile_index (p : ghostcat_profile) :
  profile_index (commit_clear_profile p) = profile_index p.
Proof. reflexivity. Qed.

Lemma forallb_snoc {A : Type} (f : A -> bool) (l : list A) (x : A) :
  forallb f (l ++ [x]) = forallb f l && f x.
Proof. rewrite forallb_app. simpl. rewrite andb_true_r. reflexivity. Qed.

Lemma commit_profiles_success (driver : ghostcat_driver)
    (device : ghostcat_device) (todo done : list ghostcat_profile) :
  forallb profile_flags_clean done = true ->
  (forall p, p ∈ todo -> switch_pending p = true -> switch_succeeds driver p) ->
  exists ps,
    commit_profiles driver device done todo = (GHOSTCAT_SUCCESS, ps)
    /\ forallb profile_flags_clean ps = true.
Proof.
  revert done. induction todo as [|p todo IH]; intros done Hdone Hswitch.
  - exists done. split; [reflexivity | exact Hdone].
  - assert (Hnext : exists ps,
               commit_profiles driver device
                 (done ++ [set_profile_is_active_dirty false
                             (commit_clear_profile p)]) todo
               = (GHOSTCAT_SUCCESS, ps)
               /\ forallb profile_flags_clean ps = true).
    { apply IH.
      - rewrite forallb_snoc, Hdone, commit_clear_profile_clean. reflexivity.
      - intros q Hq. apply Hswitch. right. exact Hq. }
    cbn [commit_profiles]. cbv zeta.
    rewrite commit_clear_profile_switch, commit_clear_profile_index.
    destruct (switch_pending p) eqn:Hpending; [|exact Hnext].
    destruct (Hswitch p (list_elem_of_here _ _) Hpending) as (cb & -> & Hcb).
    rewrite Hcb. exact Hnext.
Qed.

(** C4, the claim as stated fails: the commit callback of the driver
    succeeds, yet [ghostcat_device_commit] returns the Device error and
    leaves dirty flags set, because the [set_active_profile] callback, which
    the function calls for a freshly activated profile, fails. *)
Lemma commit_switch_failure_keeps_flags :
  commit Sample.failing_switch_driver
    = Some (fun device => (0, device))
  /\ fst (ghostcat_device_commit Sample.failing_switch_driver
            Sample.device2_switched) = GHOSTCAT_ERROR_DEVICE
  /\ device_flags_clean
       (snd (ghostcat_device_commit Sample.failing_switch_driver
               Sample.device2_switched)) = false.
Proof. repeat split; vm_compute; reflexivity. Qed.

(** C4, amended. If the commit callback of the driver succeeds and, for
    every profile that is both [is_active_dirty] and [is_active], the driver
    has a [set_active_profile] callback that succeeds, then
    [ghostcat_device_commit] returns Success and every dirty flag in the
    subtree is clear: [dirty], [rate_dirty], [angle_snapping_dirty],
    [debounce_dirty] and [is_active_dirty] of each profile and [dirty] of
    each button, led and resolution.  If the commit callback fails,
    [ghostcat_device_commit] returns the Device error and writes nothing:
    the device, with all its dirty flags, is as the callback left it. *)
Theorem device_commit_flags
    (driver : ghostcat_driver) (device : ghostcat_device)
    (callback : ghostcat_device -> Z * ghostcat_device)
    (rc : Z) (device1 : ghostcat_device) :
  commit driver = Some callback ->
  callback device = (rc, device1) ->
  (rc = 0 ->
   (forall p, p ∈ device_profiles device1 -> switch_pending p = true ->
              switch_succeeds driver p) ->
   exists device2,
     ghostcat_device_commit driver device = (GHOSTCAT_SUCCESS, device2)
     /\ device_flags_clean device2 = true)
  /\ (rc <> 0 ->
      ghostcat_device_commit driver device = (GHOSTCAT_ERROR_DEVICE, device1)).
Proof.
  intros Hcommit Hcall. unfold ghostcat_device_commit.
  rewrite Hcommit, Hcall. split.
  - intros -> Hswitch. simpl.
    destruct (commit_profiles_success driver device1 (device_profiles device1)
                [] eq_refl Hswitch) as (ps & -> & Hclean).
    eexists. split; [reflexivity | exact Hclean].
  - intros Hrc. apply Z.eqb_neq in Hrc. rewrite Hrc. reflexivity.
Qed.

Lemma device_commit_flags_witness :
  (exists device2,
     ghostcat_device_commit Sample.test_driver Sample.device2_switched
       = (GHOSTCAT_SUCCESS, device2)
     /\ device_flags_clean device2 = true)
  /\ ghostcat_device_commit Sample.failing_commit_driver
       Sample.device2_switched
     = (GHOSTCAT_ERROR_DEVICE, Sample.device2_switched).
Proof.
  split.
  - apply (device_commit_flags Sample.test_driver Sample.device2_switched
             (fun device => (0, device)) 0 Sample.device2_switched
             eq_refl eq_refl); [reflexivity|].
    intros p _ _. exists (fun _ _ => 0). split; reflexivity.
  - apply (device_commit_flags Sample.failing_commit_driver
             Sample.device2_switched (fun device => (-5, device)) (-5)
             Sample.device2_switched eq_refl eq_refl).
    lia.
Defined.

(** ** The poll of the active resolution *)

Section Poll.

Variable sd_bus_rc : bus_signal -> Z.
Variables ghostcatd_resolution ghostcatd_button ghostcatd_led : Type.
Variable resolution_resync : ghostcatd_resolution -> list bus_signal * Z.
Variable button_resync : ghostcatd_button -> list bus_signal * Z.
Variable led_resync : ghostcatd_led -> list bus_signal * Z.

Local Abbreviation dprofile :=
  (ghostcatd_profile ghostcatd_resolution ghostcatd_button ghostcatd_led).
Local Abbreviation ddevice :=
  (ghostcatd_device ghostcatd_resolution ghostcatd_button ghostcatd_led).
Local Abbreviation profile_resync :=
  (ghostcatd_profile_resync sd_bus_rc _ _ _ resolution_resync button_resync
     led_resync).
Local Abbreviation poll :=
  (ghostcatd_device_poll_active_resolution sd_bus_rc _ _ _ resolution_resync
     button_resync led_resync).
Local Abbreviation signals_of :=
  (poll_signals sd_bus_rc _ _ _ resolution_resync button_resync led_resync).

Lemma profile_resync_emits (p : dprofile) :
  profile_resync_signal _ _ _ p ∈ fst (profile_resync p)
  /\ snd (profile_resync p) = sd_bus_rc (profile_resync_signal _ _ _ p).
Proof.
  unfold ghostcatd_profile_resync, sd_bus_emit_properties_changed,
    profile_resync_signal; simpl.
  split; [|reflexivity].
  rewrite !elem_of_app. right. right. right. apply list_elem_of_here.
Qed.

Lemma for_each_signal_first {A : Type} (func : A -> list bus_signal * Z)
    (x : A) (rest : list A) (s : bus_signal) :
  s ∈ fst (func x) -> s ∈ fst (ghostcatd_for_each_signal func (x :: rest)).
Proof.
  intros Hs. simpl. destruct (func x) as [out rc]; simpl in *.
  destruct (rc =? 0); [|exact Hs].
  destruct (ghostcatd_for_each_signal func rest) as [out' rc']; simpl.
  apply elem_of_app. left. exact Hs.
Qed.

Lemma for_each_signal_all {A : Type} (func : A -> list bus_signal * Z)
    (array : list A) (x : A) (s : bus_signal) :
  (forall y, snd (func y) = 0) ->
  x ∈ array -> s ∈ fst (func x) ->
  s ∈ fst (ghostcatd_for_each_signal func array).
Proof.
  intros Hrc Hx Hs. induction array as [|y array IH]; [inversion Hx|].
  apply elem_of_cons in Hx as [->|Hx].
  - apply for_each_signal_first. exact Hs.
  - simpl. specialize (Hrc y). destruct (func y) as [out rc]; simpl in *.
    subst rc. simpl.
    specialize (IH Hx).
    destruct (ghostcatd_for_each_signal func array) as [out' rc']; simpl in *.
    apply elem_of_app. right. exact IH.
Qed.

Lemma poll_unfold (device : ddevice) :
  poll device
  = (refresh_result _ _ _ device,
     set_ddevice_lib_device _ _ _
       (snd (ghostcat_device_refresh_active_resolution
               (ddevice_lib_driver _ _ _ device)
               (ddevice_lib_device _ _ _ device))) device,
     if 0 <? refresh_result _ _ _ device then
       fst (ghostcatd_for_each_signal profile_resync
              (ddevice_profiles _ _ _ device))
     else []).
Proof.
  unfold ghostcatd_device_poll_active_resolution, refresh_result,
    ghostcatd_for_each_profile_signal.
  destruct (ghostcat_device_refresh_active_resolution _ _) as [changed lib].
  simpl. destruct (0 <? changed); reflexivity.
Qed.

Lemma poll_devices_signals (devices : list ddevice) :
  snd (poll_devices sd_bus_rc _ _ _ resolution_resync button_resync led_resync
         devices)
  = flat_map signals_of devices.
Proof.
  induction devices as [|d devices IH]; [reflexivity|].
  simpl. unfold poll_signals at 1.
  destruct (poll d) as [[changed d'] out].
  destruct (poll_devices _ _ _ _ _ _ _ devices) as [rest' out'].
  simpl in *. rewrite IH. reflexivity.
Qed.

Local Abbreviation resynced := (resynced_profiles sd_bus_rc _ _ _).

Lemma for_each_profile_resync_signals (ps : list dprofile) :
  fst (ghostcatd_for_each_signal profile_resync ps)
  = flat_map (fun p => fst (profile_resync p)) (resynced ps).
Proof.
  induction ps as [|p ps IH]; [reflexivity|].
  cbn [ghostcatd_for_each_signal resynced_profiles].
  pose proof (proj2 (profile_resync_emits p)) as Hrc.
  destruct (profile_resync p) as [out rc] eqn:Hp. cbn [snd] in Hrc.
  rewrite <- Hrc.
  destruct (rc =? 0).
  - destruct (ghostcatd_for_each_signal profile_resync ps) as [out' rc'].
    cbn [fst] in *. cbn [flat_map]. rewrite Hp, IH. reflexivity.
  - cbn [flat_map fst]. rewrite Hp. cbn [fst]. rewrite app_nil_r.
    reflexivity.
Qed.

Lemma resynced_profiles_all (ps : list dprofile) :
  (forall p, p ∈ ps -> sd_bus_rc (profile_resync_signal _ _ _ p) = 0) ->
  resynced ps = ps.
Proof.
  induction ps as [|p ps IH]; intros Hrc; [reflexivity|].
  cbn [resynced_profiles].
  rewrite (Hrc p (list_elem_of_here _ _)). cbn [Z.eqb].
  rewrite IH; [reflexivity|].
  intros q Hq. apply Hrc. apply list_elem_of_further. exact Hq.
Qed.

Lemma resynced_profiles_first (p : dprofile) (rest : list dprofile) :
  p ∈ resynced (p :: rest).
Proof.
  cbn [resynced_profiles].
  destruct (sd_bus_rc (profile_resync_signal _ _ _ p) =? 0);
    apply list_elem_of_here.
Qed.


End Poll.



(** ** The three exclusive status bits of a resolution *)

Lemma resolutions_update_resolution (j : nat)
    (f : ghostcat_resolution -> ghostcat_resolution) (p : ghostcat_profile) :
  profile_resolutions (update_resolution j f p)
  = alter f j (profile_resolutions p).
Proof. reflexivity. Qed.

Lemma resolutions_set_profile_dirty (v : bool) (p : ghostcat_profile) :
  profile_resolutions (set_profile_dirty v p) = profile_resolutions p.
Proof. reflexivity. Qed.

Lemma fold_seq_ind {A : Type} (f : A -> nat -> A) (P : nat -> A -> Prop)
    (n : nat) (a : A) :
  P 0%nat a ->
  (forall j x, (j < n)%nat -> P j x -> P (S j) (f x j)) ->
  P n (fold_left f (seq 0 n) a).
Proof.
  induction n as [|n IH]; intros H0 Hstep; [exact H0|].
  rewrite seq_S, fold_left_app. simpl.
  apply Hstep; [lia|]. apply IH; [exact H0|].
  intros j x Hj. apply Hstep. lia.
Qed.

(** The loop over the resolutions of a profile, as an induction principle:
    [P j p] holds of the profile [p] before the iteration at position [j]. *)
Lemma for_each_resolution_ind
    (body : nat -> ghostcat_resolution -> ghostcat_profile -> ghostcat_profile)
    (profile : ghostcat_profile) (P : nat -> ghostcat_profile -> Prop) :
  P 0%nat profile ->
  (forall j p other,
     P j p ->
     length (profile_resolutions p) = length (profile_resolutions profile) ->
     profile_resolutions p !! j = Some other ->
     P (S j) (body j other p)
     /\ length (profile_resolutions (body j other p))
        = length (profile_resolutions profile)) ->
  P (length (profile_resolutions profile))
    (ghostcat_profile_for_each_resolution body profile)
  /\ length (profile_resolutions
               (ghostcat_profile_for_each_resolution body profile))
     = length (profile_resolutions profile).
Proof.
  intros H0 Hstep. unfold ghostcat_profile_for_each_resolution.
  apply (fold_seq_ind _
           (fun j p => P j p
                       /\ length (profile_resolutions p)
                          = length (profile_resolutions profile))).
  - split; [exact H0 | reflexivity].
  - intros j p Hj [HP Hlen].
    destruct (profile_resolutions p !! j) as [other|] eqn:Hother.
    + apply Hstep; assumption.
    + apply lookup_ge_None in Hother. lia.
Qed.

Lemma for_each_resolution_clears (get : ghostcat_resolution -> bool) (i : nat)
    (body : nat -> ghostcat_resolution -> ghostcat_profile -> ghostcat_profile)
    (profile : ghostcat_profile) :
  (forall j other p,
     profile_resolutions p !! j = Some other ->
     clears_at get i j (profile_resolutions p)
       (profile_resolutions (body j other p))) ->
  length (profile_resolutions
            (ghostcat_profile_for_each_resolution body profile))
  = length (profile_resolutions profile)
  /\ forall m r,
       m <> i ->
       profile_resolutions
         (ghostcat_profile_for_each_resolution body profile) !! m = Some r ->
       get r = false.
Proof.
  intros Hbody.
  destruct (for_each_resolution_ind body profile
              (fun j p => forall m r, (m < j)%nat -> m <> i ->
                            profile_resolutions p !! m = Some r ->
                            get r = false)) as [HP Hlen].
  - intros m r Hm. lia.
  - intros j p other HP Hlen Hother.
    destruct (Hbody j other p Hother) as [Hlen' Hclear].
    split; [|congruence].
    intros m r' Hm Hmi Hr'.
    destruct (Hclear m r' Hmi Hr') as (r & Hr & Hget).
    rewrite Hget. destruct (decide (m = j)) as [_|Hmj]; [reflexivity|].
    apply (HP m r); [lia | exact Hmi | exact Hr].
  - split; [exact Hlen|].
    intros m r Hmi Hr. apply (HP m r); [|exact Hmi|exact Hr].
    apply lookup_lt_Some in Hr. lia.
Qed.

Lemma set_active_body_clears (i j : nat) (other : ghostcat_resolution)
    (p : ghostcat_profile) :
  clears_at res_is_active i j (profile_resolutions p)
    (profile_resolutions (update_resolution j (set_res_is_active false) p)).
Proof.
  rewrite resolutions_update_resolution. split; [apply length_alter|].
  intros m r' _ Hr'. rewrite list_lookup_alter in Hr'.
  destruct (decide (j = m)) as [->|Hjm].
  - destruct (profile_resolutions p !! m) as [r|]; [|discriminate].
    injection Hr' as <-. exists r. split; [reflexivity|].
    rewrite decide_True by reflexivity. reflexivity.
  - exists r'. split; [exact Hr'|].
    rewrite decide_False by congruence. reflexivity.
Qed.

(** The bodies of the loops of [ghostcat_resolution_set_default] and
    [ghostcat_resolution_set_dpi_shift_target] have one shape: they clear the
    bit of [other] and set the dirty flag of the resolution at [d], which is
    the target in the first and [other] in the second. *)
Lemma clear_body_clears (get : ghostcat_resolution -> bool)
    (clear : ghostcat_resolution -> ghostcat_resolution)
    (i j d : nat) (other : ghostcat_resolution) (p : ghostcat_profile) :
  (forall r, get (clear r) = false) ->
  (forall r, get (set_res_dirty true r) = get r) ->
  profile_resolutions p !! j = Some other ->
  clears_at get i j (profile_resolutions p)
    (profile_resolutions
       (if (j =? i)%nat || negb (get other) then p
        else set_profile_dirty true
               (update_resolution d (set_res_dirty true)
                  (update_resolution j clear p)))).
Proof.
  intros Hclear Hdirty Hother.
  destruct ((j =? i)%nat || negb (get other)) eqn:Hcond.
  - split; [reflexivity|].
    intros m r' Hmi Hr'. exists r'. split; [exact Hr'|].
    destruct (decide (m = j)) as [->|_]; [|reflexivity].
    apply orb_prop in Hcond as [Hji|Hget].
    + apply Nat.eqb_eq in Hji. congruence.
    + assert (r' = other) by congruence. subst r'.
      destruct (get other); [discriminate | reflexivity].
  - rewrite resolutions_set_profile_dirty, !resolutions_update_resolution.
    split; [rewrite !length_alter; reflexivity|].
    intros m r' Hmi Hr'.
    rewrite list_lookup_alter in Hr'.
    assert (Hinner : exists r0,
               alter clear j (profile_resolutions p) !! m = Some r0
               /\ get r' = get r0).
    { destruct (decide (d = m)) as [->|_].
      - destruct (alter clear j (profile_resolutions p) !! m) as [r0|];
          [|discriminate].
        injection Hr' as <-. exists r0. split; [reflexivity | apply Hdirty].
      - exists r'. split; [exact Hr' | reflexivity]. }
    destruct Hinner as (r0 & Hr0 & ->).
    rewrite list_lookup_alter in Hr0.
    destruct (decide (j = m)) as [->|Hjm].
    + rewrite Hother in Hr0. injection Hr0 as <-.
      exists other. split; [exact Hother|].
      rewrite decide_True by reflexivity. apply Hclear.
    + exists r0. split; [exact Hr0|].
      rewrite decide_False by congruence. reflexivity.
Qed.

(** After the loop, the assignments to the target: the bit is set at [i]
    and nowhere else. *)
Lemma exclusive_after_set (get : ghostcat_resolution -> bool) (i : nat)
    (l l' : list ghostcat_resolution) :
  (forall m r, m <> i -> l !! m = Some r -> get r = false) ->
  (forall m, m <> i -> l' !! m = l !! m) ->
  (forall r, l' !! i = Some r -> get r = true) ->
  forall m r, l' !! m = Some r -> (get r = true <-> m = i).
Proof.
  intros Hclear Hother Htarget m r Hr. split.
  - intros Hget. destruct (decide (m = i)) as [->|Hmi]; [reflexivity|].
    rewrite (Hother m Hmi) in Hr. rewrite (Hclear m r Hmi Hr) in Hget.
    discriminate.
  - intros ->. apply Htarget. exact Hr.
Qed.

(** [ghostcat_resolution_set_active] on a resolution that is not disabled
    succeeds, and afterwards the target is the one active resolution of the
    profile. *)
Lemma set_active_exclusive (profile : ghostcat_profile) (i : nat)
    (resolution : ghostcat_resolution) :
  profile_resolutions profile !! i = Some resolution ->
  res_is_disabled resolution = false ->
  exists profile',
    ghostcat_resolution_set_active profile i = Some (GHOSTCAT_SUCCESS, profile')
    /\ forall m r, profile_resolutions profile' !! m = Some r ->
                   (res_is_active r = true <-> m = i).
Proof.
  intros Hi Hen. unfold ghostcat_resolution_set_active.
  rewrite Hi; simpl. rewrite Hen.
  eexists. split; [reflexivity|].
  rewrite resolutions_set_profile_dirty, !resolutions_update_resolution.
  destruct (for_each_resolution_clears res_is_active i
              (fun j _ p => update_resolution j (set_res_is_active false) p)
              profile) as [Hlen Hclear].
  { intros j other p _. apply set_active_body_clears. exact other. }
  apply (exclusive_after_set res_is_active i _ _ Hclear).
  - intros m Hmi. rewrite !list_lookup_alter_ne by congruence. reflexivity.
  - intros r. rewrite !list_lookup_alter_eq.
    intros Hr. apply fmap_Some in Hr as (r0 & Hr0 & ->).
    apply fmap_Some in Hr0 as (r1 & _ & ->). reflexivity.
Qed.

(** The same for the default bit. *)
Lemma set_default_exclusive (profile : ghostcat_profile) (i : nat)
    (resolution : ghostcat_resolution) :
  profile_resolutions profile !! i = Some resolution ->
  res_is_disabled resolution = false ->
  exists profile',
    ghostcat_resolution_set_default profile i = Some (GHOSTCAT_SUCCESS, profile')
    /\ forall m r, profile_resolutions profile' !! m = Some r ->
                   (res_is_default r = true <-> m = i).
Proof.
  intros Hi Hen. unfold ghostcat_resolution_set_default.
  rewrite Hi; simpl. rewrite Hen.
  match goal with
  | |- context [ghostcat_profile_for_each_resolution ?b profile] =>
      set (body := b)
  end.
  destruct (for_each_resolution_clears res_is_default i body profile)
    as [Hlen Hclear].
  { intros j other p Hother. subst body.
    apply (clear_body_clears res_is_default (set_res_is_default false)
             i j i other p); [reflexivity | reflexivity | exact Hother]. }
  set (p1 := ghostcat_profile_for_each_resolution body profile) in *.
  destruct (profile_resolutions p1 !! i) as [r1|] eqn:Hr1.
  2:{ apply lookup_ge_None in Hr1. apply lookup_lt_Some in Hi. lia. }
  destruct (res_is_default r1) eqn:Hd1; simpl.
  - exists p1. split; [reflexivity|].
    apply (exclusive_after_set res_is_default i _ _ Hclear).
    + reflexivity.
    + intros r Hr. congruence.
  - eexists. split; [reflexivity|].
    rewrite resolutions_set_profile_dirty, !resolutions_update_resolution.
    apply (exclusive_after_set res_is_default i _ _ Hclear).
    + intros m Hmi. rewrite !list_lookup_alter_ne by congruence. reflexivity.
    + intros r. rewrite !list_lookup_alter_eq, Hr1. simpl.
      intros [= Heq]. subst r. reflexivity.
Qed.

(** The same for the shift-target bit. *)
Lemma set_dpi_shift_target_exclusive (profile : ghostcat_profile) (i : nat)
    (resolution : ghostcat_resolution) :
  profile_resolutions profile !! i = Some resolution ->
  res_is_disabled resolution = false ->
  exists profile',
    ghostcat_resolution_set_dpi_shift_target profile i
      = Some (GHOSTCAT_SUCCESS, profile')
    /\ forall m r, profile_resolutions profile' !! m = Some r ->
                   (res_is_dpi_shift_target r = true <-> m = i).
Proof.
  intros Hi Hen. unfold ghostcat_resolution_set_dpi_shift_target.
  rewrite Hi; simpl. rewrite Hen.
  match goal with
  | |- context [ghostcat_profile_for_each_resolution ?b profile] =>
      set (body := b)
  end.
  destruct (for_each_resolution_clears res_is_dpi_shift_target i body profile)
    as [Hlen Hclear].
  { intros j other p Hother. subst body.
    apply (clear_body_clears res_is_dpi_shift_target
             (set_res_is_dpi_shift_target false)
             i j j other p); [reflexivity | reflexivity | exact Hother]. }
  set (p1 := ghostcat_profile_for_each_resolution body profile) in *.
  destruct (profile_resolutions p1 !! i) as [r1|] eqn:Hr1.
  2:{ apply lookup_ge_None in Hr1. apply lookup_lt_Some in Hi. lia. }
  destruct (res_is_dpi_shift_target r1) eqn:Hd1; simpl.
  - exists p1. split; [reflexivity|].
    apply (exclusive_after_set res_is_dpi_shift_target i _ _ Hclear).
    + reflexivity.
    + intros r Hr. congruence.
  - eexists. split; [reflexivity|].
    rewrite resolutions_set_profile_dirty, !resolutions_update_resolution.
    apply (exclusive_after_set res_is_dpi_shift_target i _ _ Hclear).
    + intros m Hmi. rewrite !list_lookup_alter_ne by congruence. reflexivity.
    + intros r. rewrite !list_lookup_alter_eq, Hr1. simpl.
      intros [= Heq]. subst r. reflexivity.
Qed.

(** [ghostcat_resolution_set_dpi_shift_target] marks every sibling whose bit
    it clears dirty. *)
Lemma set_dpi_shift_target_marks_siblings (profile : ghostcat_profile)
    (i : nat) (resolution : ghostcat_resolution) :
  profile_resolutions profile !! i = Some resolution ->
  res_is_disabled resolution = false ->
  exists profile',
    ghostcat_resolution_set_dpi_shift_target profile i
      = Some (GHOSTCAT_SUCCESS, profile')
    /\ forall m r r',
         m <> i ->
         profile_resolutions profile !! m = Some r ->
         profile_resolutions profile' !! m = Some r' ->
         res_is_dpi_shift_target r = true ->
         res_is_dpi_shift_target r' = false /\ res_dirty r' = true.
Proof.
  intros Hi Hen.
  destruct (set_dpi_shift_target_exclusive profile i resolution Hi Hen)
    as (profile' & Hcall & Hexcl).
  exists profile'. split; [exact Hcall|].
  intros m r r' Hmi Hr Hr' Hbit. split.
  { destruct (res_is_dpi_shift_target r') eqn:Hbit'; [|reflexivity].
    apply (Hexcl m r' Hr') in Hbit'. contradiction. }
  revert Hcall. unfold ghostcat_resolution_set_dpi_shift_target.
  rewrite Hi; simpl. rewrite Hen.
  match goal with
  | |- context [ghostcat_profile_for_each_resolution ?b profile] =>
      set (body := b)
  end.
  destruct (for_each_resolution_ind body profile
              (fun j p =>
                 (forall m, (j <= m)%nat ->
                    profile_resolutions p !! m
                    = profile_resolutions profile !! m)
                 /\ (forall m r r', (m < j)%nat -> m <> i ->
                       profile_resolutions profile !! m = Some r ->
                       profile_resolutions p !! m = Some r' ->
                       res_is_dpi_shift_target r = true ->
                       res_dirty r' = true))) as [[_ Hmarked] Hlen].
  - split; [reflexivity|]. intros ? ? ? ?. lia.
  - intros j p other [Hsame Hdone] Hlen Hother. subst body. cbv beta.
    destruct ((j =? i)%nat || negb (res_is_dpi_shift_target other)) eqn:Hcond.
    + split; [|exact Hlen]. split.
      * intros m0 Hm0. apply Hsame. lia.
      * intros m0 r0 r0' Hm0 Hm0i Hr0 Hr0' Hbit0.
        destruct (decide (m0 = j)) as [->|Hne].
        -- rewrite Hsame in Hother by lia.
           assert (r0 = other) by congruence. subst r0.
           apply orb_prop in Hcond as [Hji|Hneg].
           ++ apply Nat.eqb_eq in Hji. congruence.
           ++ rewrite Hbit0 in Hneg. discriminate.
        -- apply (Hdone m0 r0 r0'); auto. lia.
    + rewrite resolutions_set_profile_dirty, !resolutions_update_resolution.
      split; [|rewrite !length_alter; exact Hlen]. split.
      * intros m0 Hm0. rewrite !list_lookup_alter_ne by lia.
        apply Hsame. lia.
      * intros m0 r0 r0' Hm0 Hm0i Hr0 Hr0' Hbit0.
        destruct (decide (m0 = j)) as [->|Hne].
        -- rewrite !list_lookup_alter_eq in Hr0'.
           apply fmap_Some in Hr0' as (x & Hx & ->). reflexivity.
        -- rewrite !list_lookup_alter_ne in Hr0' by congruence.
           apply (Hdone m0 r0 r0'); auto. lia.
  - set (p1 := ghostcat_profile_for_each_resolution body profile) in *.
    assert (Hm : (m < length (profile_resolutions profile))%nat)
      by (eapply lookup_lt_Some; eauto).
    destruct (profile_resolutions p1 !! i) as [r1|] eqn:Hr1.
    2:{ apply lookup_ge_None in Hr1. apply lookup_lt_Some in Hi. lia. }
    destruct (res_is_dpi_shift_target r1); simpl; intros [= <-].
    + apply (Hmarked m r r'); auto.
    + rewrite resolutions_set_profile_dirty, !resolutions_update_resolution,
        !list_lookup_alter_ne in Hr' by congruence.
      apply (Hmarked m r r'); auto.
Qed.

(** C3, where the code departs from the claim.  In a profile whose first
    resolution is the active and the default one and is clean,
    [ghostcat_resolution_set_default] and [ghostcat_resolution_set_active] on
    the second resolution clear the bit of the first one and leave its dirty
    flag clear; [ghostcat_resolution_set_dpi_shift_target] on the first
    resolution clears the bit of the second one and marks it dirty. *)
Theorem sibling_dirty_after_exclusive_setters :
  (exists p',
     ghostcat_resolution_set_default Sample.profile0 1
       = Some (GHOSTCAT_SUCCESS, p')
     /\ res_is_default <$> profile_resolutions Sample.profile0 !! 0%nat
        = Some true
     /\ res_is_default <$> profile_resolutions p' !! 0%nat = Some false
     /\ res_dirty <$> profile_resolutions p' !! 0%nat = Some false)
  /\ (exists p',
        ghostcat_resolution_set_active Sample.profile0 1
          = Some (GHOSTCAT_SUCCESS, p')
        /\ res_is_active <$> profile_resolutions Sample.profile0 !! 0%nat
           = Some true
        /\ res_is_active <$> profile_resolutions p' !! 0%nat = Some false
        /\ res_dirty <$> profile_resolutions p' !! 0%nat = Some false)
  /\ (exists p',
        ghostcat_resolution_set_dpi_shift_target Sample.profile0 0
          = Some (GHOSTCAT_SUCCESS, p')
        /\ res_is_dpi_shift_target
             <$> profile_resolutions Sample.profile0 !! 1%nat = Some true
        /\ res_is_dpi_shift_target <$> profile_resolutions p' !! 1%nat
           = Some false
        /\ res_dirty <$> profile_resolutions p' !! 1%nat = Some true).
Proof.
  repeat split; eexists; repeat split; vm_compute; reflexivity.
Qed.

(** ** Macros: the encoder writes the events of the specification *)

Lemma set_event_append (name group : option string)
    (l : list ghostcat_macro_event) (type data : Z) :
  (length l < MAX_MACRO_EVENTS)%nat ->
  type = GHOSTCAT_MACRO_EVENT_KEY_PRESSED
  \/ type = GHOSTCAT_MACRO_EVENT_KEY_RELEASED ->
  ghostcat_button_macro_set_event (mk_macro name group (padded_events l))
    (length l) type data
  = (0, mk_macro name group (padded_events (l ++ [mk_event type data]))).
Proof.
  intros Hlen Htype. unfold ghostcat_button_macro_set_event.
  apply Nat.leb_gt in Hlen as Hleb. rewrite Hleb.
  assert (Hcond : (type =? GHOSTCAT_MACRO_EVENT_KEY_PRESSED)
                  || (type =? GHOSTCAT_MACRO_EVENT_KEY_RELEASED)
                  || (type =? GHOSTCAT_MACRO_EVENT_WAIT) = true)
    by (destruct Htype as [-> | ->]; reflexivity).
  rewrite Hcond. unfold set_macro_events, padded_events; simpl.
  f_equal. f_equal.
  rewrite insert_app_r_alt by lia. rewrite Nat.sub_diag.
  rewrite length_app; simpl.
  replace (MAX_MACRO_EVENTS - length l)%nat
    with (S (MAX_MACRO_EVENTS - (length l + 1)))%nat by lia.
  simpl. rewrite <- app_assoc. reflexivity.
Qed.

Lemma add_modifiers_events (modifiers type : Z) (name group : option string)
    (table : list ghostcat_modifier_mapping_entry)
    (l : list ghostcat_macro_event) :
  type = GHOSTCAT_MACRO_EVENT_KEY_PRESSED
  \/ type = GHOSTCAT_MACRO_EVENT_KEY_RELEASED ->
  (length l + length table <= MAX_MACRO_EVENTS)%nat ->
  let l' :=
    l ++ (key_event type
            <$> List.filter
                  (fun mapping =>
                     negb (Z.land modifiers (modifier_mask mapping) =? 0))
                  table) in
  fold_left (macro_add_modifier modifiers type) table
    (mk_macro name group (padded_events l), length l)
  = (mk_macro name group (padded_events l'), length l').
Proof.
  intros Htype. revert l.
  induction table as [|mapping table IH]; intros l Hlen; simpl.
  - rewrite app_nil_r. reflexivity.
  - simpl in Hlen.
    destruct (negb (Z.land modifiers (modifier_mask mapping) =? 0)); simpl.
    + rewrite set_event_append by (auto; lia). simpl.
      replace (S (length l))
        with (length (l ++ [mk_event type (key mapping)]))
        by (rewrite length_app; simpl; lia).
      rewrite IH by (rewrite length_app; simpl; lia).
      rewrite <- !app_assoc. reflexivity.
    + apply IH. lia.
Qed.

Lemma selected_modifiers_length (modifiers : Z) :
  (length (selected_modifiers modifiers) <= 8)%nat.
Proof.
  unfold selected_modifiers.
  etransitivity; [apply List.filter_length_le | reflexivity].
Qed.

(** The encoder leaves in the button a macro action whose event array is
    the event list of the specification, padded with
    [GHOSTCAT_MACRO_EVENT_NONE]. *)
Lemma new_from_keycode_events (button : ghostcat_button) (key modifiers : Z) :
  ghostcat_button_macro_new_from_keycode button key modifiers
  = (0, set_button_action
          (mk_action GHOSTCAT_BUTTON_ACTION_TYPE_MACRO
             (action_value (button_action button))
             (Some (mk_macro (Some "key"%string) None
                      (padded_events (keycode_events key modifiers)))))
          button).
Proof.
  unfold ghostcat_button_macro_new_from_keycode.
  pose proof (selected_modifiers_length modifiers) as Hsel.
  change (ghostcat_button_macro_new "key")
    with (mk_macro (Some "key"%string) None (padded_events [])).
  change 0%nat with (length (@nil ghostcat_macro_event)) at 1.
  rewrite add_modifiers_events by (auto; simpl; unfold MAX_MACRO_EVENTS; lia).
  cbv zeta. rewrite app_nil_l.
  fold (selected_modifiers modifiers).
  set (presses := key_event GHOSTCAT_MACRO_EVENT_KEY_PRESSED
                    <$> selected_modifiers modifiers).
  assert (Hpresses : (length presses <= 8)%nat)
    by (subst presses; rewrite length_fmap; exact Hsel).
  rewrite set_event_append by (auto; unfold MAX_MACRO_EVENTS; lia).
  cbn [snd].
  replace (S (length presses))
    with (length (presses ++ [mk_event GHOSTCAT_MACRO_EVENT_KEY_PRESSED key]))
    by (rewrite length_app; simpl; lia).
  rewrite set_event_append
    by (auto; rewrite length_app; simpl; unfold MAX_MACRO_EVENTS; lia).
  cbn [snd].
  match goal with
  | |- context [fold_left _ _ (?m, S (length ?l0))] =>
      replace (S (length l0))
        with (length (l0 ++ [mk_event GHOSTCAT_MACRO_EVENT_KEY_RELEASED key]))
        by (rewrite length_app; simpl; lia)
  end.
  rewrite add_modifiers_events
    by (auto; rewrite !length_app; simpl; unfold MAX_MACRO_EVENTS; lia).
  cbv zeta. fold (selected_modifiers modifiers).
  unfold ghostcat_button_copy_macro, keycode_events.
  cbn [macro_name macro_group macro_events].
  rewrite <- !app_assoc. reflexivity.
Qed.

(** ** Macros: the decoder on the events of the specification *)

Ltac table_entry k :=
  split; [reflexivity | split; [reflexivity | exists k; split; [lia | reflexivity]]].

Lemma modifier_table_ok : Forall table_entry_ok ghostcat_modifier_mapping.
Proof.
  unfold ghostcat_modifier_mapping.
  apply List.Forall_cons; [table_entry 0|].
  apply List.Forall_cons; [table_entry 1|].
  apply List.Forall_cons; [table_entry 2|].
  apply List.Forall_cons; [table_entry 3|].
  apply List.Forall_cons; [table_entry 4|].
  apply List.Forall_cons; [table_entry 5|].
  apply List.Forall_cons; [table_entry 6|].
  apply List.Forall_cons; [table_entry 7|].
  apply List.Forall_nil.
Qed.

Lemma selected_modifiers_ok (modifiers : Z) :
  Forall table_entry_ok (selected_modifiers modifiers).
Proof.
  apply Forall_forall. intros mapping Hin.
  apply list_elem_of_In in Hin.
  unfold selected_modifiers in Hin. apply filter_In in Hin as [Hin _].
  pose proof modifier_table_ok as Hok. rewrite Forall_forall in Hok.
  apply Hok. apply list_elem_of_In. exact Hin.
Qed.

Lemma single_modifier_loop_presses
    (sel : list ghostcat_modifier_mapping_entry)
    (rest : list ghostcat_macro_event) (mc ac : Z) :
  Forall table_entry_ok sel ->
  single_modifier_loop
    ((key_event GHOSTCAT_MACRO_EVENT_KEY_PRESSED <$> sel) ++ rest) mc ac
  = single_modifier_loop rest (mc + Z.of_nat (length sel)) ac.
Proof.
  intros Hsel. revert mc.
  induction Hsel as [|mapping sel (Hmod & _) _ IH]; intros mc.
  - simpl. f_equal. lia.
  - cbn [fmap list_fmap app single_modifier_loop key_event ev_type ev_key].
    rewrite Hmod. simpl. rewrite IH. f_equal. lia.
Qed.

Lemma single_modifier_loop_action_count (l : list ghostcat_macro_event)
    (mc ac : Z) :
  ac <= snd (single_modifier_loop l mc ac).
Proof.
  revert mc ac. induction l as [|e l IH]; intros mc ac; simpl; [lia|].
  destruct ((ev_type e =? GHOSTCAT_MACRO_EVENT_NONE)
            || (ev_type e =? GHOSTCAT_MACRO_EVENT_INVALID)); simpl; [lia|].
  match goal with
  | |- _ <= snd (single_modifier_loop l ?mc' ?ac') =>
      specialize (IH mc' ac'); assert (ac <= ac'); [|lia]
  end.
  destruct (negb _ && _); lia.
Qed.

Lemma single_modifier_loop_key (key : Z) (rest : list ghostcat_macro_event)
    (mc ac : Z) :
  ghostcat_key_is_modifier key = false ->
  single_modifier_loop
    (mk_event GHOSTCAT_MACRO_EVENT_KEY_PRESSED key :: rest) mc ac
  = single_modifier_loop rest mc (ac + 1).
Proof. intros Hkey. simpl. rewrite Hkey. reflexivity. Qed.

Lemma not_single_modifier_key (name group : option string)
    (key modifiers : Z) :
  ghostcat_key_is_modifier key = false ->
  ghostcat_action_is_single_modifier_key
    (mk_macro name group (padded_events (keycode_events key modifiers)))
  = false.
Proof.
  intros Hkey. unfold ghostcat_action_is_single_modifier_key.
  cbn [macro_events]. unfold padded_events, keycode_events.
  rewrite <- !app_assoc.
  rewrite single_modifier_loop_presses by apply selected_modifiers_ok.
  cbn [app]. rewrite single_modifier_loop_key by exact Hkey.
  match goal with
  | |- context [single_modifier_loop ?l ?mc ?ac] =>
      pose proof (single_modifier_loop_action_count l mc ac) as Hge;
      destruct (single_modifier_loop l mc ac) as [mc' ac']
  end.
  cbn [snd] in Hge.
  destruct (Z.eqb_spec ac' 0); [lia|]. apply andb_false_r.
Qed.

Lemma macro_num_keys_loop_modifiers (type : Z)
    (sel : list ghostcat_modifier_mapping_entry)
    (rest : list ghostcat_macro_event) (count : Z) :
  type = GHOSTCAT_MACRO_EVENT_KEY_PRESSED
  \/ type = GHOSTCAT_MACRO_EVENT_KEY_RELEASED ->
  Forall table_entry_ok sel ->
  macro_num_keys_loop ((key_event type <$> sel) ++ rest) count
  = macro_num_keys_loop rest count.
Proof.
  intros Htype Hsel.
  induction Hsel as [|mapping sel (Hmod & _) _ IH]; [reflexivity|].
  cbn [fmap list_fmap app macro_num_keys_loop key_event ev_type ev_key].
  rewrite Hmod.
  destruct Htype as [-> | ->]; simpl; exact IH.
Qed.

Lemma macro_num_keys_loop_padding (n : nat) (count : Z) :
  macro_num_keys_loop (replicate n none_event) count = count.
Proof. destruct n; reflexivity. Qed.

Lemma macro_num_keys_loop_key (key : Z) (rest : list ghostcat_macro_event)
    (count : Z) :
  ghostcat_key_is_modifier key = false ->
  macro_num_keys_loop
    (mk_event GHOSTCAT_MACRO_EVENT_KEY_PRESSED key
     :: mk_event GHOSTCAT_MACRO_EVENT_KEY_RELEASED key :: rest) count
  = macro_num_keys_loop rest (count + 1).
Proof. intros Hkey. simpl. rewrite Hkey. reflexivity. Qed.

Lemma macro_num_keys_keycode (name group : option string)
    (key modifiers : Z) :
  ghostcat_key_is_modifier key = false ->
  ghostcat_action_macro_num_keys
    (mk_macro name group (padded_events (keycode_events key modifiers)))
  = 1.
Proof.
  intros Hkey. unfold ghostcat_action_macro_num_keys.
  cbn [macro_events]. unfold padded_events, keycode_events.
  rewrite <- !app_assoc.
  rewrite macro_num_keys_loop_modifiers
    by (auto; apply selected_modifiers_ok).
  cbn [app]. rewrite macro_num_keys_loop_key by exact Hkey.
  rewrite macro_num_keys_loop_modifiers
    by (auto; apply selected_modifiers_ok).
  apply macro_num_keys_loop_padding.
Qed.

Lemma keycode_loop_presses (sel : list ghostcat_modifier_mapping_entry)
    (rest : list ghostcat_macro_event) (k modifiers : Z) :
  Forall table_entry_ok sel ->
  keycode_from_macro_loop
    ((key_event GHOSTCAT_MACRO_EVENT_KEY_PRESSED <$> sel) ++ rest) k modifiers
  = keycode_from_macro_loop rest k (or_masks sel modifiers).
Proof.
  intros Hsel. revert modifiers.
  induction Hsel as [|mapping sel (_ & Hswitch & _) _ IH]; intros modifiers;
    [reflexivity|].
  cbn [fmap list_fmap app keycode_from_macro_loop key_event ev_type ev_key].
  rewrite Hswitch. simpl. apply IH.
Qed.

Lemma keycode_loop_key (key modifiers : Z) (rest : list ghostcat_macro_event) :
  ghostcat_key_is_modifier key = false ->
  keycode_from_macro_loop
    (mk_event GHOSTCAT_MACRO_EVENT_KEY_PRESSED key
     :: mk_event GHOSTCAT_MACRO_EVENT_KEY_RELEASED key :: rest)
    KEY_RESERVED modifiers
  = (1, Some (key, modifiers)).
Proof.
  intros Hkey. apply switch_modifier_key_not_modifier in Hkey.
  simpl. rewrite Hkey. simpl. rewrite Z.eqb_refl. reflexivity.
Qed.

(** *** The mask accumulated by the decoder is the mask given to the encoder *)

Lemma land_one_bit (m k : Z) :
  0 <= k -> Z.land m (2 ^ k) = 0 \/ Z.land m (2 ^ k) = 2 ^ k.
Proof.
  intros Hk. destruct (Z.testbit m k) eqn:Hbit; [right | left];
    apply Z.bits_inj'; intros n Hn;
    rewrite Z.land_spec, Z.pow2_bits_eqb by exact Hk.
  - destruct (Z.eqb_spec k n) as [<-|_]; [rewrite Hbit; reflexivity|].
    apply andb_false_r.
  - rewrite Z.bits_0.
    destruct (Z.eqb_spec k n) as [<-|_]; [rewrite Hbit; reflexivity|].
    apply andb_false_r.
Qed.

Lemma or_masks_acc (sel : list ghostcat_modifier_mapping_entry) (acc : Z) :
  or_masks sel acc = Z.lor acc (or_masks sel 0).
Proof.
  unfold or_masks. revert acc.
  induction sel as [|mapping sel IH]; intros acc; simpl.
  - rewrite Z.lor_0_r. reflexivity.
  - rewrite IH, (IH (Z.lor 0 (modifier_mask mapping))), Z.lor_0_l, Z.lor_assoc.
    reflexivity.
Qed.

Lemma or_masks_filter (modifiers : Z)
    (table : list ghostcat_modifier_mapping_entry) :
  Forall table_entry_ok table ->
  or_masks
    (List.filter
       (fun mapping => negb (Z.land modifiers (modifier_mask mapping) =? 0))
       table) 0
  = Z.land modifiers (or_masks table 0).
Proof.
  intros Htable.
  induction Htable as [|mapping table (_ & _ & k & Hk & Hmask) _ IH].
  - simpl. rewrite Z.land_0_r. reflexivity.
  - cbn [List.filter].
    assert (Hrhs : or_masks (mapping :: table) 0
                   = Z.lor (modifier_mask mapping) (or_masks table 0)).
    { unfold or_masks at 1. cbn [fold_left]. fold (or_masks table (Z.lor 0 (modifier_mask mapping))).
      rewrite or_masks_acc. reflexivity. }
    rewrite Hrhs, Z.land_lor_distr_r, <- IH.
    destruct (land_one_bit modifiers k Hk) as [Hzero|Hone];
      rewrite <- Hmask in *.
    + rewrite Hzero. simpl. reflexivity.
    + rewrite Hone.
      assert (Hne : (modifier_mask mapping =? 0) = false).
      { apply Z.eqb_neq. rewrite Hmask.
        pose proof (Z.pow_pos_nonneg 2 k ltac:(lia) Hk). lia. }
      rewrite Hne. cbn [negb].
      unfold or_masks at 1. cbn [fold_left].
      fold (or_masks
              (List.filter
                 (fun mapping0 =>
                    negb (Z.land modifiers (modifier_mask mapping0) =? 0))
                 table) (Z.lor 0 (modifier_mask mapping))).
      rewrite or_masks_acc. reflexivity.
Qed.

Lemma or_masks_selected (modifiers : Z) :
  0 <= modifiers < 256 ->
  or_masks (selected_modifiers modifiers) 0 = modifiers.
Proof.
  intros Hrange. unfold selected_modifiers.
  rewrite or_masks_filter by apply modifier_table_ok.
  change (or_masks ghostcat_modifier_mapping 0) with (Z.ones 8).
  rewrite Z.land_ones by lia. apply Z.mod_small. lia.
Qed.

Lemma first_event_keycode (name group : option string) (key modifiers : Z) :
  ev_type (macro_first_event
             (mk_macro name group
                (padded_events (keycode_events key modifiers))))
  = GHOSTCAT_MACRO_EVENT_KEY_PRESSED.
Proof.
  unfold macro_first_event, padded_events, keycode_events. cbn [macro_events].
  destruct (selected_modifiers modifiers); reflexivity.
Qed.

(** The decoder on the event list of the specification. *)
Lemma keycode_from_macro_keycode_events (value : Z)
    (name group : option string) (key modifiers : Z) :
  ghostcat_key_is_modifier key = false ->
  0 <= modifiers < 256 ->
  ghostcat_action_keycode_from_macro
    (mk_action GHOSTCAT_BUTTON_ACTION_TYPE_MACRO value
       (Some (mk_macro name group
                (padded_events (keycode_events key modifiers)))))
  = (1, Some (key, modifiers)).
Proof.
  intros Hkey Hrange. unfold ghostcat_action_keycode_from_macro.
  cbn [action_macro action_type].
  rewrite Z.eqb_refl. cbn [negb].
  rewrite first_event_keycode.
  change (GHOSTCAT_MACRO_EVENT_KEY_PRESSED =? GHOSTCAT_MACRO_EVENT_NONE)
    with false.
  cbv iota.
  rewrite not_single_modifier_key by exact Hkey.
  rewrite macro_num_keys_keycode by exact Hkey.
  rewrite Z.eqb_refl. cbn [negb]. cbv iota.
  cbn [macro_events]. unfold padded_events, keycode_events.
  rewrite <- !app_assoc.
  rewrite keycode_loop_presses by apply selected_modifiers_ok.
  cbn [app]. rewrite keycode_loop_key by exact Hkey.
  rewrite or_masks_selected by exact Hrange. reflexivity.
Qed.

(** C1. For every key that is not one of the eight modifier keys and every
    modifier mask over the eight canonical modifiers,
    [ghostcat_button_macro_new_from_keycode] returns 0 and
    [ghostcat_action_keycode_from_macro] on the action it leaves in the button
    returns 1 and yields the original key and modifier mask. *)
Theorem keycode_macro_round_trip
    (button : ghostcat_button) (key modifiers : Z) :
  ghostcat_key_is_modifier key = false ->
  0 <= modifiers < 256 ->
  fst (ghostcat_button_macro_new_from_keycode button key modifiers) = 0
  /\ ghostcat_action_keycode_from_macro
       (button_action
          (snd (ghostcat_button_macro_new_from_keycode button key modifiers)))
     = (1, Some (key, modifiers)).
Proof.
  intros Hkey Hrange. rewrite new_from_keycode_events. cbn [fst snd].
  split; [reflexivity|].
  unfold set_button_action. cbn [button_action].
  apply keycode_from_macro_keycode_events; assumption.
Qed.

Lemma keycode_macro_round_trip_witness :
  fst (ghostcat_button_macro_new_from_keycode
         (mk_button 3 (mk_action 0 0 None) 0 false) 30 5) = 0
  /\ ghostcat_action_keycode_from_macro
       (button_action
          (snd (ghostcat_button_macro_new_from_keycode
                  (mk_button 3 (mk_action 0 0 None) 0 false) 30 5)))
     = (1, Some (30, 5)).
Proof.
  apply (keycode_macro_round_trip (mk_button 3 (mk_action 0 0 None) 0 false)
           30 5); [reflexivity | lia].
Defined.

(** The encoder and the decoder run on the sample key: [KEY_A] (30) with
    left control and left alt. *)
Example keycode_macro_round_trip_run :
  ghostcat_action_keycode_from_macro
    (button_action
       (snd (ghostcat_button_macro_new_from_keycode
               (mk_button 3 (mk_action 0 0 None) 0 false) 30 5)))
  = (1, Some (30, 5)).
Proof. vm_compute. reflexivity. Qed.

(** * Further properties of the library *)

(** ** Resolutions: DPI values *)

Lemma resolution_has_dpi_In (r : ghostcat_resolution) (dpi : Z) :
  resolution_has_dpi r dpi = true <-> In dpi (res_dpis r).
Proof.
  unfold resolution_has_dpi. rewrite existsb_exists. split.
  - intros (d & Hd & Heq). apply Z.eqb_eq in Heq. subst. exact Hd.
  - intros Hin. exists dpi. split; [exact Hin | apply Z.eqb_refl].
Qed.

Lemma lookup_update_resolution (p : ghostcat_profile) (i m : nat)
    (f : ghostcat_resolution -> ghostcat_resolution) :
  profile_resolutions (update_resolution i f p) !! m
  = if decide (i = m) then f <$> profile_resolutions p !! i
    else profile_resolutions p !! m.
Proof. rewrite resolutions_update_resolution. apply list_lookup_alter. Qed.

(** X1. [ghostcat_resolution_set_dpi] succeeds exactly for the values of the
    resolution's DPI list and fails with Invalid-Value otherwise, leaving the
    profile as it was.  On success both axes hold the value, the other
    resolutions are as before, and the same call again changes nothing. *)
Theorem set_dpi_accepts_listed_values
    (profile : ghostcat_profile) (i : nat) (resolution : ghostcat_resolution)
    (dpi : Z) :
  profile_resolutions profile !! i = Some resolution ->
  exists rc profile',
    ghostcat_resolution_set_dpi profile i dpi = Some (rc, profile')
    /\ (rc = GHOSTCAT_SUCCESS <-> In dpi (res_dpis resolution))
    /\ (rc <> GHOSTCAT_SUCCESS ->
        rc = GHOSTCAT_ERROR_VALUE /\ profile' = profile)
    /\ (rc = GHOSTCAT_SUCCESS ->
        (exists r', profile_resolutions profile' !! i = Some r'
                    /\ res_dpi_x r' = dpi /\ res_dpi_y r' = dpi)
        /\ (forall m, m <> i ->
              profile_resolutions profile' !! m
              = profile_resolutions profile !! m)
        /\ ghostcat_resolution_set_dpi profile' i dpi
           = Some (GHOSTCAT_SUCCESS, profile')).
Proof.
  intros Hi. unfold ghostcat_resolution_set_dpi at 1. rewrite Hi; simpl.
  destruct (resolution_has_dpi resolution dpi) eqn:Hhas; simpl.
  - apply resolution_has_dpi_In in Hhas as Hin.
    destruct (negb (res_dpi_x resolution =? dpi)
              || negb (res_dpi_y resolution =? dpi)) eqn:Hchg.
    + eexists _, _. split; [reflexivity|].
      split; [tauto|]. split; [congruence|]. intros _.
      split; [|split].
      * rewrite resolutions_set_profile_dirty, !lookup_update_resolution.
        rewrite !decide_True by reflexivity. rewrite Hi. simpl.
        eexists. split; [reflexivity|]. split; reflexivity.
      * intros m Hm.
        rewrite resolutions_set_profile_dirty, !lookup_update_resolution.
        rewrite !decide_False by congruence. reflexivity.
      * unfold ghostcat_resolution_set_dpi.
        rewrite resolutions_set_profile_dirty, !lookup_update_resolution.
        rewrite !decide_True by reflexivity. rewrite Hi. simpl.
        unfold resolution_has_dpi in *. simpl. rewrite Hhas. simpl.
        rewrite Z.eqb_refl. reflexivity.
    + exists GHOSTCAT_SUCCESS, profile. split; [reflexivity|].
      split; [tauto|]. split; [congruence|]. intros _.
      apply orb_false_elim in Hchg as [Hx Hy].
      apply negb_false_iff, Z.eqb_eq in Hx, Hy.
      split; [|split].
      * exists resolution. auto.
      * reflexivity.
      * unfold ghostcat_resolution_set_dpi. rewrite Hi; simpl.
        rewrite Hhas, Hx, Hy, Z.eqb_refl. reflexivity.
  - exists GHOSTCAT_ERROR_VALUE, profile. split; [reflexivity|].
    split.
    { split; [discriminate|]. intros Hin.
      apply resolution_has_dpi_In in Hin. congruence. }
    split; [auto|]. discriminate.
Qed.

Lemma set_dpi_accepts_listed_values_witness :
  exists rc profile',
    ghostcat_resolution_set_dpi Sample.profile0 1 1600 = Some (rc, profile')
    /\ (rc = GHOSTCAT_SUCCESS
        <-> In 1600 (res_dpis (Sample.resolution 1 false false false true false)))
    /\ (rc <> GHOSTCAT_SUCCESS ->
        rc = GHOSTCAT_ERROR_VALUE /\ profile' = Sample.profile0)
    /\ (rc = GHOSTCAT_SUCCESS ->
        (exists r', profile_resolutions profile' !! 1%nat = Some r'
                    /\ res_dpi_x r' = 1600 /\ res_dpi_y r' = 1600)
        /\ (forall m, m <> 1%nat ->
              profile_resolutions profile' !! m
              = profile_resolutions Sample.profile0 !! m)
        /\ ghostcat_resolution_set_dpi profile' 1 1600
           = Some (GHOSTCAT_SUCCESS, profile')).
Proof.
  apply (set_dpi_accepts_listed_values Sample.profile0 1
           (Sample.resolution 1 false false false true false) 1600).
  reflexivity.
Defined.

(** X2. [ghostcat_resolution_set_dpi_xy] tests the capability first, then
    that not exactly one value is zero, then that both values are in the DPI
    list: it succeeds exactly when all three hold, and a pair of zeros is
    accepted only when 0 is in the list.  A failure leaves the profile as it
    was; a success stores the two values. *)
Theorem set_dpi_xy_result
    (profile : ghostcat_profile) (i : nat) (resolution : ghostcat_resolution)
    (x y : Z) :
  profile_resolutions profile !! i = Some resolution ->
  exists rc profile',
    ghostcat_resolution_set_dpi_xy profile i x y = Some (rc, profile')
    /\ (rc = GHOSTCAT_ERROR_CAPABILITY
        <-> ghostcat_resolution_has_capability resolution
              GHOSTCAT_RESOLUTION_CAP_SEPARATE_XY_RESOLUTION = false)
    /\ (rc = GHOSTCAT_SUCCESS
        <-> ghostcat_resolution_has_capability resolution
              GHOSTCAT_RESOLUTION_CAP_SEPARATE_XY_RESOLUTION = true
            /\ (x = 0 <-> y = 0)
            /\ In x (res_dpis resolution) /\ In y (res_dpis resolution))
    /\ (rc = GHOSTCAT_SUCCESS \/ rc = GHOSTCAT_ERROR_CAPABILITY
        \/ rc = GHOSTCAT_ERROR_VALUE)
    /\ (rc <> GHOSTCAT_SUCCESS -> profile' = profile)
    /\ (rc = GHOSTCAT_SUCCESS ->
        exists r', profile_resolutions profile' !! i = Some r'
                   /\ res_dpi_x r' = x /\ res_dpi_y r' = y
                   /\ res_dpis r' = res_dpis resolution).
Proof.
  intros Hi. unfold ghostcat_resolution_set_dpi_xy. rewrite Hi; simpl.
  destruct (ghostcat_resolution_has_capability resolution
              GHOSTCAT_RESOLUTION_CAP_SEPARATE_XY_RESOLUTION) eqn:Hcap; simpl.
  2:{ exists GHOSTCAT_ERROR_CAPABILITY, profile.
      split; [reflexivity|]. split; [tauto|].
      split; [split; [discriminate | intros [? _]; discriminate]|].
      split; [auto|]. split; [reflexivity | discriminate]. }
  destruct ((x =? 0) && negb (y =? 0) || negb (x =? 0) && (y =? 0)) eqn:Hzero.
  { exists GHOSTCAT_ERROR_VALUE, profile.
    split; [reflexivity|]. split; [split; discriminate|].
    split.
    { split; [discriminate|]. intros (_ & Hxy & _). exfalso.
      destruct (Z.eqb_spec x 0), (Z.eqb_spec y 0); simpl in Hzero;
        try discriminate; tauto. }
    split; [auto|]. split; [reflexivity | discriminate]. }
  assert (Hxy : x = 0 <-> y = 0).
  { destruct (Z.eqb_spec x 0), (Z.eqb_spec y 0); simpl in Hzero;
      try discriminate; tauto. }
  destruct (resolution_has_dpi resolution x) eqn:Hx; simpl.
  2:{ exists GHOSTCAT_ERROR_VALUE, profile.
      split; [reflexivity|]. split; [split; discriminate|].
      split.
      { split; [discriminate|]. intros (_ & _ & Hin & _).
        apply resolution_has_dpi_In in Hin. congruence. }
      split; [auto|]. split; [reflexivity | discriminate]. }
  destruct (resolution_has_dpi resolution y) eqn:Hy; simpl.
  2:{ exists GHOSTCAT_ERROR_VALUE, profile.
      split; [reflexivity|]. split; [split; discriminate|].
      split.
      { split; [discriminate|]. intros (_ & _ & _ & Hin).
        apply resolution_has_dpi_In in Hin. congruence. }
      split; [auto|]. split; [reflexivity | discriminate]. }
  apply resolution_has_dpi_In in Hx, Hy.
  destruct (negb (res_dpi_x resolution =? x)
            || negb (res_dpi_y resolution =? y)) eqn:Hchg.
  - eexists _, _. split; [reflexivity|]. split; [split; discriminate|].
    split; [tauto|]. split; [auto|]. split; [congruence|]. intros _.
    rewrite resolutions_set_profile_dirty, !lookup_update_resolution.
    rewrite !decide_True by reflexivity. rewrite Hi. simpl.
    eexists. repeat split; reflexivity.
  - exists GHOSTCAT_SUCCESS, profile.
    split; [reflexivity|]. split; [split; discriminate|].
    split; [tauto|]. split; [auto|]. split; [congruence|]. intros _.
    apply orb_false_elim in Hchg as [Hx' Hy'].
    apply negb_false_iff, Z.eqb_eq in Hx', Hy'.
    exists resolution. auto.
Qed.

Lemma set_dpi_xy_result_witness :
  exists rc profile',
    ghostcat_resolution_set_dpi_xy Mouse.profile 1 400 1600
    = Some (rc, profile')
    /\ (rc = GHOSTCAT_ERROR_CAPABILITY
        <-> ghostcat_resolution_has_capability
              (Mouse.resolution 1 false false false true)
              GHOSTCAT_RESOLUTION_CAP_SEPARATE_XY_RESOLUTION = false)
    /\ (rc = GHOSTCAT_SUCCESS
        <-> ghostcat_resolution_has_capability
              (Mouse.resolution 1 false false false true)
              GHOSTCAT_RESOLUTION_CAP_SEPARATE_XY_RESOLUTION = true
            /\ (400 = 0 <-> 1600 = 0)
            /\ In 400 (res_dpis (Mouse.resolution 1 false false false true))
            /\ In 1600 (res_dpis (Mouse.resolution 1 false false false true)))
    /\ (rc = GHOSTCAT_SUCCESS \/ rc = GHOSTCAT_ERROR_CAPABILITY
        \/ rc = GHOSTCAT_ERROR_VALUE)
    /\ (rc <> GHOSTCAT_SUCCESS -> profile' = Mouse.profile)
    /\ (rc = GHOSTCAT_SUCCESS ->
        exists r', profile_resolutions profile' !! 1%nat = Some r'
                   /\ res_dpi_x r' = 400 /\ res_dpi_y r' = 1600
                   /\ res_dpis r'
                      = res_dpis (Mouse.resolution 1 false false false true)).
Proof.
  apply (set_dpi_xy_result Mouse.profile 1
           (Mouse.resolution 1 false false false true) 400 1600).
  reflexivity.
Defined.

(** ** Resolutions: the disabled flag *)

(** X3. [ghostcat_resolution_set_disabled] needs the capability, and refuses
    to disable the active and the default resolution; nothing else is
    tested.  A failure leaves the profile as it was.  A success writes the
    flag and marks the resolution and the profile dirty, also when the flag
    already had the value; the other resolutions and the other fields of
    the resolution are as before. *)
Theorem set_disabled_result
    (profile : ghostcat_profile) (i : nat) (resolution : ghostcat_resolution)
    (disable : bool) :
  profile_resolutions profile !! i = Some resolution ->
  exists rc profile',
    ghostcat_resolution_set_disabled profile i disable = Some (rc, profile')
    /\ (rc = GHOSTCAT_ERROR_CAPABILITY
        <-> ghostcat_resolution_has_capability resolution
              GHOSTCAT_RESOLUTION_CAP_DISABLE = false)
    /\ (rc = GHOSTCAT_SUCCESS
        <-> ghostcat_resolution_has_capability resolution
              GHOSTCAT_RESOLUTION_CAP_DISABLE = true
            /\ (disable = true ->
                res_is_active resolution = false
                /\ res_is_default resolution = false))
    /\ (rc = GHOSTCAT_SUCCESS \/ rc = GHOSTCAT_ERROR_CAPABILITY
        \/ rc = GHOSTCAT_ERROR_VALUE)
    /\ (rc <> GHOSTCAT_SUCCESS -> profile' = profile)
    /\ (rc = GHOSTCAT_SUCCESS ->
        profile_resolutions profile' !! i
        = Some (set_res_dirty true (set_res_is_disabled disable resolution))
        /\ profile_dirty profile' = true
        /\ forall m, m <> i ->
             profile_resolutions profile' !! m
             = profile_resolutions profile !! m).
Proof.
  intros Hi. unfold ghostcat_resolution_set_disabled. rewrite Hi; simpl.
  destruct (ghostcat_resolution_has_capability resolution
              GHOSTCAT_RESOLUTION_CAP_DISABLE) eqn:Hcap; simpl.
  2:{ exists GHOSTCAT_ERROR_CAPABILITY, profile.
      split; [reflexivity|]. split; [tauto|].
      split; [split; [discriminate | intros [? _]; discriminate]|].
      split; [auto|]. split; [reflexivity | discriminate]. }
  destruct (disable && res_is_active resolution) eqn:Hact.
  { apply andb_prop in Hact as [-> Hact].
    exists GHOSTCAT_ERROR_VALUE, profile.
    split; [reflexivity|]. split; [split; discriminate|].
    split.
    { split; [discriminate|]. intros (_ & H). destruct H; congruence. }
    split; [auto|]. split; [reflexivity | discriminate]. }
  destruct (disable && res_is_default resolution) eqn:Hdef.
  { apply andb_prop in Hdef as [-> Hdef].
    exists GHOSTCAT_ERROR_VALUE, profile.
    split; [reflexivity|]. split; [split; discriminate|].
    split.
    { split; [discriminate|]. intros (_ & H). destruct H; congruence. }
    split; [auto|]. split; [reflexivity | discriminate]. }
  eexists _, _. split; [reflexivity|]. split; [split; discriminate|].
  split.
  { split; [|reflexivity]. intros _. split; [reflexivity|].
    intros ->. simpl in Hact, Hdef. auto. }
  split; [auto|]. split; [congruence|]. intros _.
  split; [|split].
  - rewrite resolutions_set_profile_dirty, !lookup_update_resolution.
    rewrite !decide_True by reflexivity. rewrite Hi. reflexivity.
  - reflexivity.
  - intros m Hm.
    rewrite resolutions_set_profile_dirty, !lookup_update_resolution.
    rewrite !decide_False by congruence. reflexivity.
Qed.

Lemma set_disabled_result_witness :
  exists rc profile',
    ghostcat_resolution_set_disabled Mouse.profile 0 true = Some (rc, profile')
    /\ (rc = GHOSTCAT_ERROR_CAPABILITY
        <-> ghostcat_resolution_has_capability
              (Mouse.resolution 0 true true false false)
              GHOSTCAT_RESOLUTION_CAP_DISABLE = false)
    /\ (rc = GHOSTCAT_SUCCESS
        <-> ghostcat_resolution_has_capability
              (Mouse.resolution 0 true true false false)
              GHOSTCAT_RESOLUTION_CAP_DISABLE = true
            /\ (true = true ->
                res_is_active (Mouse.resolution 0 true true false false)
                = false
                /\ res_is_default (Mouse.resolution 0 true true false false)
                   = false))
    /\ (rc = GHOSTCAT_SUCCESS \/ rc = GHOSTCAT_ERROR_CAPABILITY
        \/ rc = GHOSTCAT_ERROR_VALUE)
    /\ (rc <> GHOSTCAT_SUCCESS -> profile' = Mouse.profile)
    /\ (rc = GHOSTCAT_SUCCESS ->
        profile_resolutions profile' !! 0%nat
        = Some (set_res_dirty true
                  (set_res_is_disabled true
                     (Mouse.resolution 0 true true false false)))
        /\ profile_dirty profile' = true
        /\ forall m, m <> 0%nat ->
             profile_resolutions profile' !! m
             = profile_resolutions Mouse.profile !! m).
Proof.
  apply (set_disabled_result Mouse.profile 0
           (Mouse.resolution 0 true true false false) true).
  reflexivity.
Defined.

(** X4. The shift target can be disabled: [ghostcat_resolution_set_disabled]
    does not look at the flag.  The profile it leaves has a resolution that
    is disabled and the shift target, a state that
    [ghostcat_resolution_set_dpi_shift_target] refuses to create. *)
Theorem set_disabled_accepts_shift_target
    (profile : ghostcat_profile) (i : nat) (resolution : ghostcat_resolution) :
  profile_resolutions profile !! i = Some resolution ->
  ghostcat_resolution_has_capability resolution
    GHOSTCAT_RESOLUTION_CAP_DISABLE = true ->
  res_is_active resolution = false ->
  res_is_default resolution = false ->
  res_is_dpi_shift_target resolution = true ->
  exists profile' r',
    ghostcat_resolution_set_disabled profile i true
    = Some (GHOSTCAT_SUCCESS, profile')
    /\ profile_resolutions profile' !! i = Some r'
    /\ res_is_disabled r' = true
    /\ res_is_dpi_shift_target r' = true
    /\ ghostcat_resolution_set_dpi_shift_target profile' i
       = Some (GHOSTCAT_ERROR_VALUE, profile').
Proof.
  intros Hi Hcap Hact Hdef Hshift.
  unfold ghostcat_resolution_set_disabled. rewrite Hi; simpl.
  rewrite Hcap, Hact, Hdef. simpl.
  eexists _, _. split; [reflexivity|].
  assert (Hlook :
    profile_resolutions
      (set_profile_dirty true
         (update_resolution i (set_res_dirty true)
            (update_resolution i (set_res_is_disabled true) profile))) !! i
    = Some (set_res_dirty true (set_res_is_disabled true resolution))).
  { rewrite resolutions_set_profile_dirty, !lookup_update_resolution.
    rewrite !decide_True by reflexivity. rewrite Hi. reflexivity. }
  split; [exact Hlook|]. split; [reflexivity|]. split; [exact Hshift|].
  unfold ghostcat_resolution_set_dpi_shift_target. rewrite Hlook.
  reflexivity.
Qed.

Lemma set_disabled_accepts_shift_target_witness :
  exists profile' r',
    ghostcat_resolution_set_disabled Mouse.profile 1 true
    = Some (GHOSTCAT_SUCCESS, profile')
    /\ profile_resolutions profile' !! 1%nat = Some r'
    /\ res_is_disabled r' = true
    /\ res_is_dpi_shift_target r' = true
    /\ ghostcat_resolution_set_dpi_shift_target profile' 1
       = Some (GHOSTCAT_ERROR_VALUE, profile').
Proof.
  apply (set_disabled_accepts_shift_target Mouse.profile 1
           (Mouse.resolution 1 false false false true));
    reflexivity.
Defined.

(** ** Resolutions: what the exclusive setters leave alone *)

Lemma fmap_alter_absorb {A B : Type} (e : A -> B) (f : A -> A) (i : nat)
    (l : list A) :
  (forall x, e (f x) = e x) -> e <$> alter f i l = e <$> l.
Proof.
  intros He. revert i. induction l as [|a l IH]; intros [|i]; simpl;
    [reflexivity | reflexivity | |].
  - rewrite He. reflexivity.
  - f_equal. apply IH.
Qed.

Lemma resolutions_forget_profile
    (forget : ghostcat_resolution -> ghostcat_resolution)
    (p : ghostcat_profile) :
  profile_resolutions (forget_profile forget p)
  = forget <$> profile_resolutions p.
Proof. reflexivity. Qed.

Lemma forget_profile_update_resolution
    (forget f : ghostcat_resolution -> ghostcat_resolution) (j : nat)
    (p : ghostcat_profile) :
  (forall r, forget (f r) = forget r) ->
  forget_profile forget (update_resolution j f p) = forget_profile forget p.
Proof.
  intros Hf. destruct p. unfold forget_profile, update_resolution,
    set_profile_dirty, set_profile_resolutions. simpl.
  f_equal. apply fmap_alter_absorb, Hf.
Qed.

Lemma forget_profile_set_dirty
    (forget : ghostcat_resolution -> ghostcat_resolution) (v : bool)
    (p : ghostcat_profile) :
  forget_profile forget (set_profile_dirty v p) = forget_profile forget p.
Proof. destruct p. reflexivity. Qed.

Lemma forget_profile_length
    (forget : ghostcat_resolution -> ghostcat_resolution)
    (p q : ghostcat_profile) :
  forget_profile forget p = forget_profile forget q ->
  length (profile_resolutions p) = length (profile_resolutions q).
Proof.
  intros H. apply (f_equal profile_resolutions) in H.
  rewrite !resolutions_forget_profile in H.
  apply (f_equal length) in H. rewrite !length_fmap in H. exact H.
Qed.

Lemma forget_profile_lookup
    (forget : ghostcat_resolution -> ghostcat_resolution)
    (p q : ghostcat_profile) (m : nat) (r : ghostcat_resolution) :
  forget_profile forget p = forget_profile forget q ->
  profile_resolutions p !! m = Some r ->
  exists r0, profile_resolutions q !! m = Some r0 /\ forget r = forget r0.
Proof.
  intros H Hr. apply (f_equal profile_resolutions) in H.
  rewrite !resolutions_forget_profile in H.
  apply (f_equal (fun l => l !! m)) in H.
  rewrite !list_lookup_fmap, Hr in H. simpl in H.
  destruct (profile_resolutions q !! m) as [r0|]; [|discriminate].
  exists r0. split; [reflexivity|]. simpl in H. congruence.
Qed.

Lemma for_each_resolution_frame
    (forget : ghostcat_resolution -> ghostcat_resolution)
    (body : nat -> ghostcat_resolution -> ghostcat_profile -> ghostcat_profile)
    (profile : ghostcat_profile) :
  (forall j other p,
     forget_profile forget (body j other p) = forget_profile forget p) ->
  forget_profile forget (ghostcat_profile_for_each_resolution body profile)
  = forget_profile forget profile.
Proof.
  intros Hbody.
  destruct (for_each_resolution_ind body profile
              (fun _ p => forget_profile forget p
                          = forget_profile forget profile)) as [HP _];
    [reflexivity | | exact HP].
  intros j p other HP Hlen _. split.
  - rewrite Hbody. exact HP.
  - rewrite <- Hlen. apply (forget_profile_length forget), Hbody.
Qed.

Lemma set_active_frame (profile profile' : ghostcat_profile) (i : nat)
    (rc : Z) :
  ghostcat_resolution_set_active profile i = Some (rc, profile') ->
  forget_profile forget_is_active profile'
  = forget_profile forget_is_active profile.
Proof.
  unfold ghostcat_resolution_set_active.
  destruct (profile_resolutions profile !! i) as [resolution|];
    [simpl | discriminate].
  destruct (res_is_disabled resolution); intros [= _ <-]; [reflexivity|].
  rewrite forget_profile_set_dirty.
  rewrite !forget_profile_update_resolution by (intros []; reflexivity).
  apply for_each_resolution_frame. intros j other p.
  apply forget_profile_update_resolution. intros []; reflexivity.
Qed.

Lemma set_default_frame (profile profile' : ghostcat_profile) (i : nat)
    (rc : Z) :
  ghostcat_resolution_set_default profile i = Some (rc, profile') ->
  forget_profile forget_is_default profile'
  = forget_profile forget_is_default profile.
Proof.
  unfold ghostcat_resolution_set_default.
  destruct (profile_resolutions profile !! i) as [resolution|];
    [simpl | discriminate].
  destruct (res_is_disabled resolution); [intros [= _ <-]; reflexivity|].
  match goal with
  | |- context [ghostcat_profile_for_each_resolution ?b profile] =>
      set (body := b)
  end.
  assert (Hloop :
    forget_profile forget_is_default
      (ghostcat_profile_for_each_resolution body profile)
    = forget_profile forget_is_default profile).
  { apply for_each_resolution_frame. intros j other p. subst body. simpl.
    destruct ((j =? i)%nat || negb (res_is_default other)); [reflexivity|].
    rewrite forget_profile_set_dirty.
    rewrite !forget_profile_update_resolution by (intros []; reflexivity).
    reflexivity. }
  set (p1 := ghostcat_profile_for_each_resolution body profile) in *.
  destruct (profile_resolutions p1 !! i) as [r1|]; [|discriminate].
  destruct (negb (res_is_default r1)); intros [= _ <-]; [|exact Hloop].
  rewrite forget_profile_set_dirty.
  rewrite !forget_profile_update_resolution by (intros []; reflexivity).
  exact Hloop.
Qed.

Lemma set_dpi_shift_target_frame (profile profile' : ghostcat_profile)
    (i : nat) (rc : Z) :
  ghostcat_resolution_set_dpi_shift_target profile i = Some (rc, profile') ->
  forget_profile forget_is_dpi_shift_target profile'
  = forget_profile forget_is_dpi_shift_target profile.
Proof.
  unfold ghostcat_resolution_set_dpi_shift_target.
  destruct (profile_resolutions profile !! i) as [resolution|];
    [simpl | discriminate].
  destruct (res_is_disabled resolution); [intros [= _ <-]; reflexivity|].
  match goal with
  | |- context [ghostcat_profile_for_each_resolution ?b profile] =>
      set (body := b)
  end.
  assert (Hloop :
    forget_profile forget_is_dpi_shift_target
      (ghostcat_profile_for_each_resolution body profile)
    = forget_profile forget_is_dpi_shift_target profile).
  { apply for_each_resolution_frame. intros j other p. subst body. simpl.
    destruct ((j =? i)%nat || negb (res_is_dpi_shift_target other));
      [reflexivity|].
    rewrite forget_profile_set_dirty.
    rewrite !forget_profile_update_resolution by (intros []; reflexivity).
    reflexivity. }
  set (p1 := ghostcat_profile_for_each_resolution body profile) in *.
  destruct (profile_resolutions p1 !! i) as [r1|]; [|discriminate].
  destruct (negb (res_is_dpi_shift_target r1)); intros [= _ <-];
    [|exact Hloop].
  rewrite forget_profile_set_dirty.
  rewrite !forget_profile_update_resolution by (intros []; reflexivity).
  exact Hloop.
Qed.

(** X5. The three exclusive setters change nothing but their own bit and the
    dirty flags: whatever they return, the profile they leave differs from
    the one they were given only in that bit of its resolutions, in the
    dirty flag of its resolutions and in its own dirty flag.  The number
    and order of the resolutions, their indices, DPI values and lists,
    capabilities and other bits, and every other field of the profile are
    as before. *)
Theorem exclusive_setters_frame
    (profile profile' : ghostcat_profile) (i : nat) (rc : Z) :
  (ghostcat_resolution_set_active profile i = Some (rc, profile') ->
   forget_profile forget_is_active profile'
   = forget_profile forget_is_active profile)
  /\ (ghostcat_resolution_set_default profile i = Some (rc, profile') ->
      forget_profile forget_is_default profile'
      = forget_profile forget_is_default profile)
  /\ (ghostcat_resolution_set_dpi_shift_target profile i
      = Some (rc, profile') ->
      forget_profile forget_is_dpi_shift_target profile'
      = forget_profile forget_is_dpi_shift_target profile).
Proof.
  split; [|split].
  - apply set_active_frame.
  - apply set_default_frame.
  - apply set_dpi_shift_target_frame.
Qed.

Lemma exclusive_setter_keeps_disabled_consistent
    (get : ghostcat_resolution -> bool)
    (forget : ghostcat_resolution -> ghostcat_resolution)
    (profile profile' : ghostcat_profile) (i : nat)
    (resolution : ghostcat_resolution) :
  (forall r r0, forget r = forget r0 ->
     res_is_disabled r = res_is_disabled r0
     /\ (res_is_active r = res_is_active r0 \/ get = res_is_active)
     /\ (res_is_default r = res_is_default r0 \/ get = res_is_default)) ->
  profile_resolutions profile !! i = Some resolution ->
  res_is_disabled resolution = false ->
  forget_profile forget profile' = forget_profile forget profile ->
  (forall m r, profile_resolutions profile' !! m = Some r ->
               (get r = true <-> m = i)) ->
  disabled_consistent profile ->
  disabled_consistent profile'.
Proof.
  intros Hforget Hi Hen Hframe Hexcl Hcons m r Hr Hdis.
  destruct (forget_profile_lookup forget profile' profile m r Hframe Hr)
    as (r0 & Hr0 & Heq).
  destruct (Hforget r r0 Heq) as (Hd & Ha & Hf).
  assert (Hm : m <> i).
  { intros ->. rewrite Hi in Hr0. injection Hr0 as <-. congruence. }
  assert (Hget : get r = false).
  { destruct (get r) eqn:Hg; [|reflexivity].
    apply (Hexcl m r Hr) in Hg. contradiction. }
  destruct (Hcons m r0 Hr0) as [Ha0 Hf0]; [congruence|].
  split.
  - destruct Ha as [Ha | ->]; [congruence | exact Hget].
  - destruct Hf as [Hf | ->]; [congruence | exact Hget].
Qed.

Lemma pointwise_keeps_disabled_consistent
    (f : ghostcat_resolution -> ghostcat_resolution)
    (profile profile' : ghostcat_profile) (i : nat)
    (resolution : ghostcat_resolution) :
  profile_resolutions profile !! i = Some resolution ->
  profile_resolutions profile' = alter f i (profile_resolutions profile) ->
  (res_is_disabled (f resolution) = true ->
   res_is_active (f resolution) = false
   /\ res_is_default (f resolution) = false) ->
  disabled_consistent profile ->
  disabled_consistent profile'.
Proof.
  intros Hi Hres Hf Hcons m r Hr Hdis. rewrite Hres in Hr.
  destruct (decide (i = m)) as [<- | Hm].
  - rewrite list_lookup_alter_eq, Hi in Hr. injection Hr as <-. auto.
  - rewrite list_lookup_alter_ne in Hr by exact Hm. eauto.
Qed.

(** X6. No setter of a resolution makes a disabled resolution active or
    default: if no resolution of a profile is disabled and at the same time
    active or default, the same holds of the profile that
    [ghostcat_resolution_set_active], [ghostcat_resolution_set_default],
    [ghostcat_resolution_set_dpi_shift_target], [ghostcat_resolution_set_dpi],
    [ghostcat_resolution_set_dpi_xy] and [ghostcat_resolution_set_disabled]
    leave, whatever they return. *)
Theorem resolution_setters_keep_disabled_consistent
    (profile profile' : ghostcat_profile) (i : nat) (rc : Z) :
  disabled_consistent profile ->
  ghostcat_resolution_set_active profile i = Some (rc, profile')
  \/ ghostcat_resolution_set_default profile i = Some (rc, profile')
  \/ ghostcat_resolution_set_dpi_shift_target profile i = Some (rc, profile')
  \/ (exists dpi,
        ghostcat_resolution_set_dpi profile i dpi = Some (rc, profile'))
  \/ (exists x y,
        ghostcat_resolution_set_dpi_xy profile i x y = Some (rc, profile'))
  \/ (exists disable,
        ghostcat_resolution_set_disabled profile i disable
        = Some (rc, profile')) ->
  disabled_consistent profile'.
Proof.
  intros Hcons Hcall.
  destruct (profile_resolutions profile !! i) as [resolution|] eqn:Hi.
  2:{ exfalso.
      unfold ghostcat_resolution_set_active, ghostcat_resolution_set_default,
        ghostcat_resolution_set_dpi_shift_target, ghostcat_resolution_set_dpi,
        ghostcat_resolution_set_dpi_xy, ghostcat_resolution_set_disabled
        in Hcall.
      rewrite Hi in Hcall. simpl in Hcall.
      destruct Hcall as [H | [H | [H | [[? H] | [(? & ? & H) | [? H]]]]]];
        discriminate. }
  destruct Hcall as [H | [H | [H | [[dpi H] | [(x & y & H) | [disable H]]]]]].
  - destruct (res_is_disabled resolution) eqn:Hen.
    { unfold ghostcat_resolution_set_active in H. rewrite Hi in H.
      simpl in H. rewrite Hen in H. injection H as _ <-. exact Hcons. }
    destruct (set_active_exclusive profile i resolution Hi Hen)
      as (p & Hp & Hexcl).
    rewrite Hp in H. injection H as _ <-.
    apply (exclusive_setter_keeps_disabled_consistent res_is_active
             forget_is_active profile p i resolution); auto.
    + intros [] [] [=]. subst. simpl. auto.
    + apply (set_active_frame _ _ _ _ Hp).
  - destruct (res_is_disabled resolution) eqn:Hen.
    { unfold ghostcat_resolution_set_default in H. rewrite Hi in H.
      simpl in H. rewrite Hen in H. injection H as _ <-. exact Hcons. }
    destruct (set_default_exclusive profile i resolution Hi Hen)
      as (p & Hp & Hexcl).
    rewrite Hp in H. injection H as _ <-.
    apply (exclusive_setter_keeps_disabled_consistent res_is_default
             forget_is_default profile p i resolution); auto.
    + intros [] [] [=]. subst. simpl. auto.
    + apply (set_default_frame _ _ _ _ Hp).
  - intros m r Hr Hdis.
    destruct (forget_profile_lookup forget_is_dpi_shift_target
                profile' profile m r
                (set_dpi_shift_target_frame _ _ _ _ H) Hr)
      as (r0 & Hr0 & Heq).
    destruct r, r0. injection Heq as <- <- <- <- <- <- <- <-.
    apply (Hcons m _ Hr0). exact Hdis.
  - unfold ghostcat_resolution_set_dpi in H. rewrite Hi in H. simpl in H.
    destruct (resolution_has_dpi resolution dpi); simpl in H;
      [|injection H as _ <-; exact Hcons].
    destruct (negb (res_dpi_x resolution =? dpi)
              || negb (res_dpi_y resolution =? dpi));
      injection H as _ <-; [|exact Hcons].
    apply (pointwise_keeps_disabled_consistent
             (fun r => set_res_dirty true
                         (set_res_dpi_y dpi (set_res_dpi_x dpi r)))
             profile _ i resolution Hi); [| |exact Hcons].
    + rewrite resolutions_set_profile_dirty, !resolutions_update_resolution.
      rewrite !list_alter_alter_eq. reflexivity.
    + simpl. intros Hdis. apply (Hcons i resolution Hi Hdis).
  - unfold ghostcat_resolution_set_dpi_xy in H. rewrite Hi in H. simpl in H.
    destruct (ghostcat_resolution_has_capability resolution
                GHOSTCAT_RESOLUTION_CAP_SEPARATE_XY_RESOLUTION); simpl in H;
      [|injection H as _ <-; exact Hcons].
    destruct ((x =? 0) && negb (y =? 0) || negb (x =? 0) && (y =? 0));
      [injection H as _ <-; exact Hcons|].
    destruct (negb (resolution_has_dpi resolution x)
              || negb (resolution_has_dpi resolution y));
      [injection H as _ <-; exact Hcons|].
    destruct (negb (res_dpi_x resolution =? x)
              || negb (res_dpi_y resolution =? y));
      injection H as _ <-; [|exact Hcons].
    apply (pointwise_keeps_disabled_consistent
             (fun r => set_res_dirty true
                         (set_res_dpi_y y (set_res_dpi_x x r)))
             profile _ i resolution Hi); [| |exact Hcons].
    + rewrite resolutions_set_profile_dirty, !resolutions_update_resolution.
      rewrite !list_alter_alter_eq. reflexivity.
    + simpl. intros Hdis. apply (Hcons i resolution Hi Hdis).
  - unfold ghostcat_resolution_set_disabled in H. rewrite Hi in H.
    simpl in H.
    destruct (ghostcat_resolution_has_capability resolution
                GHOSTCAT_RESOLUTION_CAP_DISABLE); simpl in H;
      [|injection H as _ <-; exact Hcons].
    destruct (disable && res_is_active resolution) eqn:Hact;
      [injection H as _ <-; exact Hcons|].
    destruct (disable && res_is_default resolution) eqn:Hdef;
      injection H as _ <-; [exact Hcons|].
    apply (pointwise_keeps_disabled_consistent
             (fun r => set_res_dirty true (set_res_is_disabled disable r))
             profile _ i resolution Hi); [| |exact Hcons].
    + rewrite resolutions_set_profile_dirty, !resolutions_update_resolution.
      rewrite !list_alter_alter_eq. reflexivity.
    + simpl. intros ->. simpl in Hact, Hdef. auto.
Qed.

Lemma mouse_profile_disabled_consistent : disabled_consistent Mouse.profile.
Proof.
  intros [|[|[|m]]] r Hr Hdis; simpl in Hr; try discriminate;
    injection Hr as <-; simpl in Hdis; try discriminate; auto.
Defined.

Lemma resolution_setters_keep_disabled_consistent_witness :
  disabled_consistent
    (set_profile_dirty true
       (update_resolution 1 (set_res_dirty true)
          (update_resolution 1 (set_res_is_disabled true) Mouse.profile))).
Proof.
  apply (resolution_setters_keep_disabled_consistent Mouse.profile _ 1
           GHOSTCAT_SUCCESS mouse_profile_disabled_consistent).
  do 5 right. exists true. reflexivity.
Defined.

(** ** Resolutions: the DPI list of a range *)

Lemma dpi_stepsize_bounds (dpi : Z) : 50 <= dpi_stepsize dpi <= 500.
Proof.
  unfold dpi_stepsize.
  destruct (dpi <? 1000), (dpi <? 2600), (dpi <? 5000); lia.
Qed.

Lemma dpi_list_from_range_loop_spec (max : Z) (room : nat) :
  max + 500 < 2 ^ 32 ->
  forall dpi, 0 <= dpi ->
    let l := (dpi_list_from_range_loop room dpi max).1 in
    let maxed_out := (dpi_list_from_range_loop room dpi max).2 in
    strictly_increasing l = true
    /\ Forall (fun d => dpi <= d <= max) l
    /\ (length l <= room)%nat
    /\ (forall d rest, l = d :: rest -> d = dpi)
    /\ (dpi <= max -> (0 < room)%nat -> exists rest, l = dpi :: rest)
    /\ (maxed_out = false -> length l = room).
Proof.
  intros Hmax. induction room as [|room IH]; intros dpi Hdpi.
  - simpl. repeat split; auto; try lia; try discriminate.
  - cbn [dpi_list_from_range_loop].
    destruct (Z.ltb_spec max dpi) as [Hlt | Hle].
    + simpl. repeat split; auto; try lia; discriminate.
    + pose proof (dpi_stepsize_bounds dpi) as Hstep.
      rewrite (Z.mod_small (dpi + dpi_stepsize dpi)) by lia.
      specialize (IH (dpi + dpi_stepsize dpi) ltac:(lia)).
      destruct (dpi_list_from_range_loop room (dpi + dpi_stepsize dpi) max)
        as [l' m'].
      cbn [fst snd] in *.
      destruct IH as (Hinc & Hall & Hlen & Hhd & _ & Hfull).
      split; [|split; [|split; [|split; [|split]]]].
      * destruct l' as [|y rest]; [reflexivity|].
        change (strictly_increasing (dpi :: y :: rest))
          with ((dpi <? y) && strictly_increasing (y :: rest)).
        rewrite Hinc, andb_true_r.
        apply Z.ltb_lt. rewrite (Hhd y rest eq_refl). lia.
      * apply List.Forall_cons; [lia|].
        eapply List.Forall_impl; [|exact Hall]. simpl. intros d Hd. lia.
      * simpl. lia.
      * intros d rest [= <- _]. reflexivity.
      * intros _ _. eexists. reflexivity.
      * intros Hm. simpl. rewrite (Hfull Hm). reflexivity.
Qed.

(** X7. For a range whose upper end leaves room for one more step in an
    [unsigned int], the list that
    [ghostcat_resolution_set_dpi_list_from_range] builds satisfies the
    assertions of [ghostcat_resolution_set_dpi_list]: it has at most 300
    entries, strictly increasing.  Every entry lies within the range, the
    lower end is an entry when the range is not empty, and the function
    reports an overflow only when it has filled all 300 entries. *)
Theorem dpi_list_from_range_valid
    (res : ghostcat_resolution) (min max : Z) :
  0 <= min -> max + 500 < 2 ^ 32 ->
  let res' := (ghostcat_resolution_set_dpi_list_from_range res min max).1 in
  let overflow :=
    (ghostcat_resolution_set_dpi_list_from_range res min max).2 in
  ghostcat_resolution_set_dpi_list res (res_dpis res') = Some res'
  /\ Forall (fun d => min <= d <= max) (res_dpis res')
  /\ (min <= max -> resolution_has_dpi res' min = true)
  /\ (overflow = true -> length (res_dpis res') = DPIS_LENGTH).
Proof.
  intros Hmin Hmax.
  pose proof (dpi_list_from_range_loop_spec max DPIS_LENGTH Hmax min Hmin)
    as Hspec.
  unfold ghostcat_resolution_set_dpi_list_from_range.
  destruct (dpi_list_from_range_loop DPIS_LENGTH min max) as [l m].
  cbn [fst snd] in *.
  destruct Hspec as (Hinc & Hall & Hlen & _ & Hhd & Hfull).
  change (res_dpis (set_res_dpis l res)) with l.
  split; [|split; [|split]].
  - unfold ghostcat_resolution_set_dpi_list. rewrite Hinc.
    apply Nat.leb_le in Hlen. rewrite Hlen. reflexivity.
  - exact Hall.
  - intros Hle. apply resolution_has_dpi_In.
    change (res_dpis (set_res_dpis l res)) with l.
    destruct (Hhd Hle) as [rest ->]; [unfold DPIS_LENGTH; lia|].
    left. reflexivity.
  - intros Hm. apply Hfull. destruct m; [discriminate | reflexivity].
Qed.

Lemma dpi_list_from_range_valid_witness :
  let res' :=
    (ghostcat_resolution_set_dpi_list_from_range
       (Sample.resolution 0 true true false false false) 400 3200).1 in
  let overflow :=
    (ghostcat_resolution_set_dpi_list_from_range
       (Sample.resolution 0 true true false false false) 400 3200).2 in
  ghostcat_resolution_set_dpi_list
    (Sample.resolution 0 true true false false false) (res_dpis res')
  = Some res'
  /\ Forall (fun d => 400 <= d <= 3200) (res_dpis res')
  /\ (400 <= 3200 -> resolution_has_dpi res' 400 = true)
  /\ (overflow = true -> length (res_dpis res') = DPIS_LENGTH).
Proof.
  apply (dpi_list_from_range_valid
           (Sample.resolution 0 true true false false false) 400 3200);
    lia.
Defined.

(** ** The sanity check after the probe *)

Lemma sanity_check_resolutions_forallb (l : list ghostcat_resolution) :
  sanity_check_resolutions l
  = forallb (fun r => negb (length (res_dpis r) =? 0)%nat) l.
Proof.
  induction l as [|r l IH]; [reflexivity|]. simpl.
  unfold ghostcat_resolution_get_dpi_list. rewrite IH.
  destruct (res_dpis r); reflexivity.
Qed.

Lemma sanity_check_profiles_spec (ps : list ghostcat_profile)
    (has_active : bool) :
  sanity_check_profiles ps has_active
  = if forallb profile_sane ps
       && (length (List.filter profile_is_active ps)
           + (if has_active then 1 else 0) <=? 1)%nat
    then Some (has_active
               || negb (length (List.filter profile_is_active ps) =? 0)%nat)
    else None.
Proof.
  revert has_active. induction ps as [|p ps IH]; intros has_active.
  - simpl. destruct has_active; reflexivity.
  - cbn [sanity_check_profiles forallb List.filter].
    unfold profile_sane at 1. rewrite IH.
    rewrite sanity_check_resolutions_forallb.
    unfold ghostcat_profile_get_report_rate_list.
    rewrite (Z.leb_antisym 16 (profile_num_resolutions p)).
    destruct (profile_is_active p); cbn [length];
    destruct has_active, (16 <? profile_num_resolutions p),
      (forallb _ (profile_resolutions p)), (profile_rates p),
      (forallb profile_sane ps),
      (length (List.filter profile_is_active ps)) as [|[|n]];
      reflexivity.
Qed.

(** X8. [ghostcat_sanity_check_device] accepts a device exactly when its
    profile count (an unsigned number) is between 1 and 16, exactly one of its profiles is
    active, and every profile has at most 16 resolutions, a report-rate
    list that is not empty, and resolutions whose DPI lists are not empty.
    A dirty profile is logged and accepted; the profile count is not
    compared with the profiles found. *)
Theorem sanity_check_device_iff (device : ghostcat_device) :
  0 <= device_num_profiles device ->
  ghostcat_sanity_check_device device = true
  <-> 1 <= device_num_profiles device <= 16
      /\ num_active_profiles device = 1%nat
      /\ forallb profile_sane (device_profiles device) = true.
Proof.
  intros Hnum. unfold ghostcat_sanity_check_device, num_active_profiles.
  rewrite sanity_check_profiles_spec. cbn [orb].
  destruct (Z.eqb_spec (device_num_profiles device) 0) as [H0 | H0];
    cbn [orb].
  { split; [discriminate | lia]. }
  destruct (Z.ltb_spec 16 (device_num_profiles device)) as [H16 | H16].
  { split; [discriminate | lia]. }
  destruct (forallb profile_sane (device_profiles device)); cbn [andb].
  2:{ split; [discriminate | intros (_ & _ & ?); discriminate]. }
  destruct (length (List.filter profile_is_active (device_profiles device)))
    as [|[|n]]; cbn.
  - split; [discriminate | lia].
  - split; [intros _ | reflexivity].
    split; [|split; reflexivity]. lia.
  - split; [discriminate | lia].
Qed.

Lemma sanity_check_device_iff_witness :
  ghostcat_sanity_check_device Sample.device2 = true
  <-> 1 <= device_num_profiles Sample.device2 <= 16
      /\ num_active_profiles Sample.device2 = 1%nat
      /\ forallb profile_sane (device_profiles Sample.device2) = true.
Proof.
  apply (sanity_check_device_iff Sample.device2). simpl. lia.
Defined.

(** ** Profiles: the switch of the active profile *)

(** X9. On a device with more than one profile,
    [ghostcat_profile_set_active] on an enabled profile succeeds and leaves
    exactly that profile active.  The target and every profile that was
    active are marked [is_active_dirty] and [dirty], also when the target
    was the active profile already; the profiles that were not active are
    not written. *)
Theorem profile_set_active_switches
    (device : ghostcat_device) (k : nat) (profile : ghostcat_profile) :
  device_profiles device !! k = Some profile ->
  profile_is_enabled profile = true ->
  device_num_profiles device <> 1 ->
  exists device',
    ghostcat_profile_set_active device k = Some (GHOSTCAT_SUCCESS, device')
    /\ length (device_profiles device') = length (device_profiles device)
    /\ forall m p',
         device_profiles device' !! m = Some p' ->
         exists p,
           device_profiles device !! m = Some p
           /\ (profile_is_active p' = true <-> m = k)
           /\ (m = k \/ profile_is_active p = true ->
               profile_is_active_dirty p' = true /\ profile_dirty p' = true)
           /\ (m <> k -> profile_is_active p = false -> p' = p).
Proof.
  intros Hk Hen Hnum. unfold ghostcat_profile_set_active.
  rewrite Hk; simpl. rewrite Hen; simpl.
  apply Z.eqb_neq in Hnum. rewrite Hnum.
  eexists. split; [reflexivity|]. split.
  { simpl. rewrite length_alter, length_fmap. reflexivity. }
  intros m p'. cbn [device_profiles set_device_profiles].
  rewrite list_lookup_alter, !list_lookup_fmap.
  destruct (decide (k = m)) as [<- | Hm].
  - rewrite Hk. simpl. intros [= <-]. exists profile.
    split; [reflexivity|].
    destruct (profile_is_active profile); simpl;
      (split; [tauto|]); (split; [auto | congruence]).
  - destruct (device_profiles device !! m) as [p|]; [|simpl; discriminate].
    simpl. intros [= <-]. exists p. split; [reflexivity|].
    destruct (profile_is_active p) eqn:Hact; simpl.
    + split; [split; [discriminate | congruence]|].
      split; [auto | discriminate].
    + split; [split; congruence|].
      split; [intros [? | ?]; congruence | reflexivity].
Qed.

Lemma profile_set_active_switches_witness :
  exists device',
    ghostcat_profile_set_active Sample.device2 1
    = Some (GHOSTCAT_SUCCESS, device')
    /\ length (device_profiles device')
       = length (device_profiles Sample.device2)
    /\ forall m p',
         device_profiles device' !! m = Some p' ->
         exists p,
           device_profiles Sample.device2 !! m = Some p
           /\ (profile_is_active p' = true <-> m = 1%nat)
           /\ (m = 1%nat \/ profile_is_active p = true ->
               profile_is_active_dirty p' = true /\ profile_dirty p' = true)
           /\ (m <> 1%nat -> profile_is_active p = false -> p' = p).
Proof.
  apply (profile_set_active_switches Sample.device2 1 Sample.profile1);
    [reflexivity | reflexivity | simpl; lia].
Defined.

(** ** Commit: return values and what is written *)

Lemma commit_profiles_no_callback (driver : ghostcat_driver)
    (device : ghostcat_device) (todo done : list ghostcat_profile) :
  set_active_profile driver = None ->
  existsb switch_pending todo = true ->
  (commit_profiles driver device done todo).1
  = GHOSTCAT_ERROR_IMPLEMENTATION.
Proof.
  intros Hcb. revert done.
  induction todo as [|p todo IH]; intros done Hex; [discriminate|].
  cbn [commit_profiles]. cbv zeta.
  rewrite commit_clear_profile_switch, Hcb.
  cbn [existsb] in Hex.
  destruct (switch_pending p); [reflexivity|].
  apply IH. exact Hex.
Qed.

(** X10. A switch needs the driver's [set_active_profile] callback: after
    [ghostcat_profile_set_active] on a device with more than one profile,
    [ghostcat_device_commit] with a driver that has a [commit] callback,
    which succeeds and leaves the device alone, but no [set_active_profile]
    callback returns the Implementation error. *)
Theorem commit_after_switch_needs_callback
    (driver : ghostcat_driver) (device : ghostcat_device) (k : nat)
    (profile : ghostcat_profile)
    (callback : ghostcat_device -> Z * ghostcat_device) :
  device_profiles device !! k = Some profile ->
  profile_is_enabled profile = true ->
  device_num_profiles device <> 1 ->
  commit driver = Some callback ->
  (forall d, callback d = (0, d)) ->
  set_active_profile driver = None ->
  exists device',
    ghostcat_profile_set_active device k = Some (GHOSTCAT_SUCCESS, device')
    /\ (ghostcat_device_commit driver device').1
       = GHOSTCAT_ERROR_IMPLEMENTATION.
Proof.
  intros Hk Hen Hnum Hcommit Hcb Hswitch.
  unfold ghostcat_profile_set_active.
  rewrite Hk; simpl. rewrite Hen; simpl.
  apply Z.eqb_neq in Hnum. rewrite Hnum.
  eexists. split; [reflexivity|].
  unfold ghostcat_device_commit. rewrite Hcommit, Hcb.
  cbn [negb Z.eqb]. cbv iota.
  match goal with
  | |- context [commit_profiles driver ?d ?done ?todo] =>
      pose proof (commit_profiles_no_callback driver d todo done Hswitch)
        as Hloop;
      destruct (commit_profiles driver d done todo) as [rc ps]
  end.
  cbn [fst] in *. apply Hloop.
  apply existsb_exists.
  cbn [device_profiles set_device_profiles].
  eexists. split.
  - apply list_elem_of_In, list_elem_of_lookup. exists k.
    rewrite list_lookup_alter_eq, list_lookup_fmap, Hk. reflexivity.
  - destruct (profile_is_active profile); reflexivity.
Qed.

Lemma commit_after_switch_needs_callback_witness :
  exists device',
    ghostcat_profile_set_active Sample.device2 1
    = Some (GHOSTCAT_SUCCESS, device')
    /\ (ghostcat_device_commit
          (mk_driver "no switch" (Some (fun device => (0, device))) None None)
          device').1
       = GHOSTCAT_ERROR_IMPLEMENTATION.
Proof.
  apply (commit_after_switch_needs_callback
           (mk_driver "no switch" (Some (fun device => (0, device))) None None)
           Sample.device2 1 Sample.profile1 (fun device => (0, device)));
    [reflexivity | reflexivity | simpl; lia | reflexivity | reflexivity
    | reflexivity].
Defined.

Lemma forget_flags_clear (p : ghostcat_profile) :
  forget_flags (commit_clear_profile p) = forget_flags p.
Proof.
  destruct p. unfold forget_flags, commit_clear_profile. simpl.
  rewrite <- !list_fmap_compose. reflexivity.
Qed.

Lemma forget_flags_is_active_dirty (v : bool) (p : ghostcat_profile) :
  forget_flags (set_profile_is_active_dirty v p) = forget_flags p.
Proof. destruct p. reflexivity. Qed.

Lemma commit_profiles_frame (driver : ghostcat_driver)
    (device : ghostcat_device) (todo done : list ghostcat_profile) :
  forget_flags <$> (commit_profiles driver device done todo).2
  = forget_flags <$> (done ++ todo).
Proof.
  revert done. induction todo as [|p todo IH]; intros done.
  - simpl. rewrite app_nil_r. reflexivity.
  - assert (Hstop :
      forget_flags <$> (done ++ commit_clear_profile p :: todo)
      = forget_flags <$> (done ++ p :: todo)).
    { rewrite !fmap_app, !fmap_cons, forget_flags_clear. reflexivity. }
    assert (Hnext :
      forget_flags
        <$> (commit_profiles driver device
               (done ++ [set_profile_is_active_dirty false
                           (commit_clear_profile p)]) todo).2
      = forget_flags <$> (done ++ p :: todo)).
    { rewrite IH, <- app_assoc, !fmap_app, !fmap_cons.
      rewrite forget_flags_is_active_dirty, forget_flags_clear.
      reflexivity. }
    cbn [commit_profiles]. cbv zeta.
    destruct (profile_is_active_dirty (commit_clear_profile p)
              && profile_is_active (commit_clear_profile p));
      [|exact Hnext].
    destruct (set_active_profile driver) as [cb|]; [|exact Hstop].
    destruct (negb (cb _ _ =? 0)); [exact Hstop | exact Hnext].
Qed.

Lemma commit_profiles_codes (driver : ghostcat_driver)
    (device : ghostcat_device) (todo done : list ghostcat_profile) :
  (commit_profiles driver device done todo).1 = GHOSTCAT_SUCCESS
  \/ (commit_profiles driver device done todo).1 = GHOSTCAT_ERROR_DEVICE
  \/ (commit_profiles driver device done todo).1
     = GHOSTCAT_ERROR_IMPLEMENTATION.
Proof.
  revert done. induction todo as [|p todo IH]; intros done.
  - left. reflexivity.
  - cbn [commit_profiles]. cbv zeta.
    destruct (profile_is_active_dirty (commit_clear_profile p)
              && profile_is_active (commit_clear_profile p));
      [|apply IH].
    destruct (set_active_profile driver) as [cb|]; [|right; right; reflexivity].
    destruct (negb (cb _ _ =? 0)); [right; left; reflexivity | apply IH].
Qed.

(** X11. [ghostcat_device_commit] returns Success or one of three library
    errors, never the driver's own error value, and the Capability error
    exactly when the driver has no [commit] callback.  Of the device as the
    driver's callback left it, it writes dirty flags only: the profiles,
    with the dirty flags of their subtrees cleared, are the same before and
    after, for every return value. *)
Theorem device_commit_codes_and_frame
    (driver : ghostcat_driver) (device : ghostcat_device) :
  let rc := (ghostcat_device_commit driver device).1 in
  let device' := (ghostcat_device_commit driver device).2 in
  (rc = GHOSTCAT_SUCCESS \/ rc = GHOSTCAT_ERROR_CAPABILITY
   \/ rc = GHOSTCAT_ERROR_DEVICE \/ rc = GHOSTCAT_ERROR_IMPLEMENTATION)
  /\ (rc = GHOSTCAT_ERROR_CAPABILITY <-> commit driver = None)
  /\ match commit driver with
     | None => device' = device
     | Some callback =>
         device_name device' = device_name (callback device).2
         /\ device_num_profiles device'
            = device_num_profiles (callback device).2
         /\ forget_flags <$> device_profiles device'
            = forget_flags <$> device_profiles (callback device).2
     end.
Proof.
  unfold ghostcat_device_commit.
  destruct (commit driver) as [callback|].
  2:{ cbn [fst snd]. repeat split; auto. }
  destruct (callback device) as [rc0 device1]. cbn [fst snd].
  destruct (negb (rc0 =? 0)).
  { cbn [fst snd]. split; [auto|]. split; [|auto].
    split; [discriminate | discriminate]. }
  pose proof (commit_profiles_codes driver device1 (device_profiles device1) [])
    as Hcodes.
  pose proof (commit_profiles_frame driver device1 (device_profiles device1) [])
    as Hframe.
  destruct (commit_profiles driver device1 [] (device_profiles device1))
    as [rc ps].
  cbn [fst snd] in *. split; [tauto|]. split.
  - split; [|discriminate]. intros ->.
    destruct Hcodes as [H | [H | H]]; discriminate.
  - split; [reflexivity|]. split; [reflexivity|]. exact Hframe.
Qed.

(** * Buttons *)

Lemma land_shiftl_testbit (c k : Z) :
  0 <= k -> (Z.land c (Z.shiftl 1 k) =? 0) = negb (Z.testbit c k).
Proof.
  intros Hk. rewrite Z.shiftl_1_l.
  destruct (Z.testbit c k) eqn:Hbit; simpl.
  - apply Z.eqb_neq. intros H0.
    assert (Hb : Z.testbit (Z.land c (2 ^ k)) k = true).
    { rewrite Z.land_spec, Hbit, Z.pow2_bits_true by exact Hk. reflexivity. }
    rewrite H0, Z.bits_0 in Hb. discriminate.
  - apply Z.eqb_eq. apply Z.bits_inj'. intros n Hn.
    rewrite Z.land_spec, Z.pow2_bits_eqb, Z.bits_0 by exact Hk.
    destruct (Z.eqb_spec k n) as [<- | _]; [rewrite Hbit; reflexivity|].
    apply andb_false_r.
Qed.

(** X12. A button supports an action type exactly when the type is one of
    the five action types and [ghostcat_button_enable_action_type] has set
    its bit: enabling one type adds that type and changes the answer for no
    other, and for a value outside the five types, such as the Unknown
    type, the answer is no whatever the capability bits are. *)
Theorem has_action_type_enabled (button : ghostcat_button) (type type' : Z) :
  0 <= type <= 4 ->
  ghostcat_button_has_action_type
    (ghostcat_button_enable_action_type button type) type'
  = (type' =? type) || ghostcat_button_has_action_type button type'
  /\ (~ 0 <= type' <= 4 ->
      ghostcat_button_has_action_type button type' = false).
Proof.
  intros Ht. unfold ghostcat_button_has_action_type,
    ghostcat_button_enable_action_type, set_button_action_caps,
    GHOSTCAT_BUTTON_ACTION_TYPE_NONE, GHOSTCAT_BUTTON_ACTION_TYPE_BUTTON,
    GHOSTCAT_BUTTON_ACTION_TYPE_SPECIAL, GHOSTCAT_BUTTON_ACTION_TYPE_KEY,
    GHOSTCAT_BUTTON_ACTION_TYPE_MACRO.
  cbn [button_action_caps].
  destruct ((type' =? 0) || (type' =? 1) || (type' =? 2) || (type' =? 3)
            || (type' =? 4)) eqn:Hfive.
  - assert (Hr : 0 <= type' <= 4).
    { repeat (apply orb_prop in Hfive as [Hfive | Hfive]);
        apply Z.eqb_eq in Hfive; lia. }
    split; [|intros Hn; contradiction].
    rewrite !land_shiftl_testbit by lia. rewrite !negb_involutive.
    rewrite Z.lor_spec, Z.shiftl_1_l, Z.pow2_bits_eqb by lia.
    rewrite orb_comm, (Z.eqb_sym type type'). reflexivity.
  - assert (Hr : ~ 0 <= type' <= 4).
    { intros Hr.
      assert (Hc : type' = 0 \/ type' = 1 \/ type' = 2 \/ type' = 3
                   \/ type' = 4) by lia.
      destruct Hc as [-> | [-> | [-> | [-> | ->]]]]; discriminate. }
    split; [|reflexivity].
    destruct (Z.eqb_spec type' type) as [-> | _]; [contradiction|].
    reflexivity.
Qed.

Lemma has_action_type_enabled_witness :
  ghostcat_button_has_action_type
    (ghostcat_button_enable_action_type Pad.button
       GHOSTCAT_BUTTON_ACTION_TYPE_KEY)
    GHOSTCAT_BUTTON_ACTION_TYPE_UNKNOWN
  = (GHOSTCAT_BUTTON_ACTION_TYPE_UNKNOWN =? GHOSTCAT_BUTTON_ACTION_TYPE_KEY)
    || ghostcat_button_has_action_type Pad.button
         GHOSTCAT_BUTTON_ACTION_TYPE_UNKNOWN
  /\ (~ 0 <= GHOSTCAT_BUTTON_ACTION_TYPE_UNKNOWN <= 4 ->
      ghostcat_button_has_action_type Pad.button
        GHOSTCAT_BUTTON_ACTION_TYPE_UNKNOWN = false).
Proof.
  apply (has_action_type_enabled Pad.button GHOSTCAT_BUTTON_ACTION_TYPE_KEY
           GHOSTCAT_BUTTON_ACTION_TYPE_UNKNOWN).
  unfold GHOSTCAT_BUTTON_ACTION_TYPE_KEY. lia.
Defined.

Lemma buttons_update_button (j : nat) (f : ghostcat_button -> ghostcat_button)
    (p : ghostcat_profile) :
  profile_buttons (update_button j f p) = alter f j (profile_buttons p).
Proof. reflexivity. Qed.

Lemma buttons_set_profile_dirty (v : bool) (p : ghostcat_profile) :
  profile_buttons (set_profile_dirty v p) = profile_buttons p.
Proof. reflexivity. Qed.

Lemma lookup_update_button (p : ghostcat_profile) (j m : nat)
    (f : ghostcat_button -> ghostcat_button) :
  profile_buttons (update_button j f p) !! m
  = if decide (j = m) then f <$> profile_buttons p !! j
    else profile_buttons p !! m.
Proof. rewrite buttons_update_button. apply list_lookup_alter. Qed.

Lemma profile_dirty_set_profile_dirty (v : bool) (p : ghostcat_profile) :
  profile_dirty (set_profile_dirty v p) = v.
Proof. reflexivity. Qed.

Lemma button_setter_outcome (profile : ghostcat_profile) (j : nat)
    (button : ghostcat_button) (type value : Z) :
  profile_buttons profile !! j = Some button ->
  type = GHOSTCAT_BUTTON_ACTION_TYPE_NONE /\ value = 0
  \/ type = GHOSTCAT_BUTTON_ACTION_TYPE_BUTTON
  \/ type = GHOSTCAT_BUTTON_ACTION_TYPE_SPECIAL
  \/ type = GHOSTCAT_BUTTON_ACTION_TYPE_KEY ->
  exists rc profile',
    (if negb (ghostcat_button_has_action_type button type) then
       Some (GHOSTCAT_ERROR_CAPABILITY, profile)
     else
       Some (GHOSTCAT_SUCCESS,
             set_profile_dirty true
               (update_button j (set_button_dirty true)
                  (update_button j
                     (fun b => ghostcat_button_set_action b
                                 (mk_action type value None)) profile))))
    = Some (rc, profile')
    /\ setter_outcome profile j button type value rc profile'.
Proof.
  intros Hj Htype. unfold setter_outcome.
  destruct (ghostcat_button_has_action_type button type) eqn:Hcap;
    cbn [negb].
  2:{ exists GHOSTCAT_ERROR_CAPABILITY, profile. split; [reflexivity|].
      split; [split; discriminate|]. split; [auto | discriminate]. }
  eexists _, _. split; [reflexivity|].
  split; [tauto|]. split; [congruence|]. intros _.
  eexists. split.
  { rewrite buttons_set_profile_dirty, !lookup_update_button.
    rewrite !decide_True by reflexivity. rewrite Hj. reflexivity. }
  split; [|split; [|split; [|split; [|split; [|split; [|split; [|split]]]]]]].
  - destruct Htype as [[-> ->] | [-> | [-> | ->]]]; reflexivity.
  - destruct Htype as [[-> ->] | [-> | [-> | ->]]]; reflexivity.
  - destruct Htype as [[-> ->] | [-> | [-> | ->]]]; reflexivity.
  - destruct Htype as [[-> ->] | [-> | [-> | ->]]]; reflexivity.
  - destruct Htype as [[-> ->] | [-> | [-> | ->]]]; reflexivity.
  - destruct Htype as [[-> ->] | [-> | [-> | ->]]]; reflexivity.
  - destruct Htype as [[-> ->] | [-> | [-> | ->]]]; reflexivity.
  - apply profile_dirty_set_profile_dirty.
  - intros m Hm.
    rewrite buttons_set_profile_dirty, !lookup_update_button.
    rewrite !decide_False by congruence. reflexivity.
Qed.

(** X13. [ghostcat_button_set_button], [ghostcat_button_set_special],
    [ghostcat_button_set_key] and [ghostcat_button_disable] succeed exactly
    when the button supports the action type; otherwise they return the
    Capability error and write nothing.  After a success the getter of the
    type reads the value that was set, [ghostcat_button_get_button] and
    [ghostcat_button_get_key] read 0 and [ghostcat_button_get_special] reads
    Invalid for the other types, [ghostcat_button_get_macro] returns null,
    the macro storage the button had is kept, and the button and the
    profile are dirty. *)
Theorem button_setters_outcome
    (profile : ghostcat_profile) (j : nat) (button : ghostcat_button)
    (value : Z) :
  profile_buttons profile !! j = Some button ->
  (exists rc profile',
     ghostcat_button_set_button profile j value = Some (rc, profile')
     /\ setter_outcome profile j button GHOSTCAT_BUTTON_ACTION_TYPE_BUTTON
          value rc profile')
  /\ (exists rc profile',
        ghostcat_button_set_special profile j value = Some (rc, profile')
        /\ setter_outcome profile j button GHOSTCAT_BUTTON_ACTION_TYPE_SPECIAL
             value rc profile')
  /\ (exists rc profile',
        ghostcat_button_set_key profile j value = Some (rc, profile')
        /\ setter_outcome profile j button GHOSTCAT_BUTTON_ACTION_TYPE_KEY
             value rc profile')
  /\ (exists rc profile',
        ghostcat_button_disable profile j = Some (rc, profile')
        /\ setter_outcome profile j button GHOSTCAT_BUTTON_ACTION_TYPE_NONE
             0 rc profile').
Proof.
  intros Hj.
  unfold ghostcat_button_set_button, ghostcat_button_set_special,
    ghostcat_button_set_key, ghostcat_button_disable.
  rewrite Hj. cbn [mbind option_bind].
  split; [|split; [|split]]; apply button_setter_outcome; auto.
Qed.

Lemma button_setters_outcome_witness :
  (exists rc profile',
     ghostcat_button_set_button Pad.profile 0 3 = Some (rc, profile')
     /\ setter_outcome Pad.profile 0 Pad.button
          GHOSTCAT_BUTTON_ACTION_TYPE_BUTTON 3 rc profile')
  /\ (exists rc profile',
        ghostcat_button_set_special Pad.profile 0 3 = Some (rc, profile')
        /\ setter_outcome Pad.profile 0 Pad.button
             GHOSTCAT_BUTTON_ACTION_TYPE_SPECIAL 3 rc profile')
  /\ (exists rc profile',
        ghostcat_button_set_key Pad.profile 0 3 = Some (rc, profile')
        /\ setter_outcome Pad.profile 0 Pad.button
             GHOSTCAT_BUTTON_ACTION_TYPE_KEY 3 rc profile')
  /\ (exists rc profile',
        ghostcat_button_disable Pad.profile 0 = Some (rc, profile')
        /\ setter_outcome Pad.profile 0 Pad.button
             GHOSTCAT_BUTTON_ACTION_TYPE_NONE 0 rc profile').
Proof.
  apply (button_setters_outcome Pad.profile 0 Pad.button 3). reflexivity.
Defined.

(** * Macros of a button *)

(** X14. A macro stored with [ghostcat_button_set_macro] is read back by
    [ghostcat_button_get_macro] with its name and its events, and without
    its group.  The button then reads as no button, key or special
    assignment, [ghostcat_action_keycode_from_macro] decodes the action of
    the button as it decodes the macro that was given, and the button and
    the profile are dirty. *)
Theorem set_macro_get_macro
    (profile : ghostcat_profile) (j : nat) (button : ghostcat_button)
    (macro : ghostcat_macro) :
  profile_buttons profile !! j = Some button ->
  ghostcat_button_has_action_type button GHOSTCAT_BUTTON_ACTION_TYPE_MACRO
  = true ->
  exists profile' button',
    ghostcat_button_set_macro profile j macro
    = Some (GHOSTCAT_SUCCESS, profile')
    /\ profile_buttons profile' !! j = Some button'
    /\ ghostcat_button_get_macro button'
       = macro_copy (mk_macro (macro_name macro) None (macro_events macro))
    /\ ghostcat_button_get_button button' = 0
    /\ ghostcat_button_get_key button' = 0
    /\ ghostcat_button_get_special button'
       = GHOSTCAT_BUTTON_ACTION_SPECIAL_INVALID
    /\ ghostcat_action_keycode_from_macro (button_action button')
       = ghostcat_action_keycode_from_macro
           (mk_action GHOSTCAT_BUTTON_ACTION_TYPE_MACRO 0 (Some macro))
    /\ button_dirty button' = true
    /\ profile_dirty profile' = true.
Proof.
  intros Hj Hcap. unfold ghostcat_button_set_macro.
  rewrite Hj. cbn [mbind option_bind]. rewrite Hcap. cbn [negb].
  eexists _, _. split; [reflexivity|]. split.
  { rewrite buttons_set_profile_dirty, !lookup_update_button.
    rewrite !decide_True by reflexivity. rewrite Hj. reflexivity. }
  split; [reflexivity|]. split; [reflexivity|]. split; [reflexivity|].
  split; [reflexivity|]. split; [destruct macro; reflexivity|].
  split; [reflexivity | apply profile_dirty_set_profile_dirty].
Qed.

Lemma set_macro_get_macro_witness :
  exists profile' button',
    ghostcat_button_set_macro Pad.profile 0
      (mk_macro (Some "copy"%string) (Some "editing"%string)
         (padded_events (keycode_events 46 MODIFIER_LEFTCTRL)))
    = Some (GHOSTCAT_SUCCESS, profile')
    /\ profile_buttons profile' !! 0%nat = Some button'
    /\ ghostcat_button_get_macro button'
       = macro_copy
           (mk_macro (Some "copy"%string) None
              (padded_events (keycode_events 46 MODIFIER_LEFTCTRL)))
    /\ ghostcat_button_get_button button' = 0
    /\ ghostcat_button_get_key button' = 0
    /\ ghostcat_button_get_special button'
       = GHOSTCAT_BUTTON_ACTION_SPECIAL_INVALID
    /\ ghostcat_action_keycode_from_macro (button_action button')
       = ghostcat_action_keycode_from_macro
           (mk_action GHOSTCAT_BUTTON_ACTION_TYPE_MACRO 0
              (Some (mk_macro (Some "copy"%string) (Some "editing"%string)
                       (padded_events (keycode_events 46 MODIFIER_LEFTCTRL)))))
    /\ button_dirty button' = true
    /\ profile_dirty profile' = true.
Proof.
  apply (set_macro_get_macro Pad.profile 0 Pad.button
           (mk_macro (Some "copy"%string) (Some "editing"%string)
              (padded_events (keycode_events 46 MODIFIER_LEFTCTRL))));
    reflexivity.
Defined.

(** X15. The macro storage of a button outlives the macro assignment: after
    [ghostcat_button_set_macro] and then [ghostcat_button_set_key], the
    button still holds the copy of the macro, but
    [ghostcat_button_get_macro] returns null and
    [ghostcat_action_keycode_from_macro] refuses the action with [-EINVAL]:
    both look at the action type first. *)
Theorem set_key_after_set_macro
    (profile : ghostcat_profile) (j : nat) (button : ghostcat_button)
    (macro : ghostcat_macro) (key : Z) :
  profile_buttons profile !! j = Some button ->
  ghostcat_button_has_action_type button GHOSTCAT_BUTTON_ACTION_TYPE_MACRO
  = true ->
  ghostcat_button_has_action_type button GHOSTCAT_BUTTON_ACTION_TYPE_KEY
  = true ->
  exists profile1 profile2 button2,
    ghostcat_button_set_macro profile j macro
    = Some (GHOSTCAT_SUCCESS, profile1)
    /\ ghostcat_button_set_key profile1 j key
       = Some (GHOSTCAT_SUCCESS, profile2)
    /\ profile_buttons profile2 !! j = Some button2
    /\ action_macro (button_action button2)
       = Some (mk_macro (macro_name macro) (macro_group macro)
                 (macro_events macro))
    /\ ghostcat_button_get_key button2 = key
    /\ ghostcat_button_get_macro button2 = macro_null
    /\ ghostcat_action_keycode_from_macro (button_action button2)
       = (- EINVAL, None).
Proof.
  intros Hj Hmacro Hkey. unfold ghostcat_button_set_macro.
  rewrite Hj. cbn [mbind option_bind]. rewrite Hmacro. cbn [negb].
  set (profile1 :=
         set_profile_dirty true
           (update_button j (set_button_dirty true)
              (update_button j (fun b => ghostcat_button_copy_macro b macro)
                 profile))).
  assert (H1 : profile_buttons profile1 !! j
               = Some (set_button_dirty true
                         (ghostcat_button_copy_macro button macro))).
  { subst profile1.
    rewrite buttons_set_profile_dirty, !lookup_update_button.
    rewrite !decide_True by reflexivity. rewrite Hj. reflexivity. }
  exists profile1. unfold ghostcat_button_set_key.
  rewrite H1. cbn [mbind option_bind].
  change (ghostcat_button_has_action_type
            (set_button_dirty true (ghostcat_button_copy_macro button macro))
            GHOSTCAT_BUTTON_ACTION_TYPE_KEY)
    with (ghostcat_button_has_action_type button
            GHOSTCAT_BUTTON_ACTION_TYPE_KEY).
  rewrite Hkey. cbn [negb].
  set (profile2 :=
         set_profile_dirty true
           (update_button j (set_button_dirty true)
              (update_button j
                 (fun b =>
                    ghostcat_button_set_action b
                      (mk_action GHOSTCAT_BUTTON_ACTION_TYPE_KEY key None))
                 profile1))).
  assert (H2 : profile_buttons profile2 !! j
               = Some (set_button_dirty true
                         (ghostcat_button_set_action
                            (set_button_dirty true
                               (ghostcat_button_copy_macro button macro))
                            (mk_action GHOSTCAT_BUTTON_ACTION_TYPE_KEY key
                               None)))).
  { subst profile2.
    rewrite buttons_set_profile_dirty, !lookup_update_button.
    rewrite !decide_True by reflexivity. rewrite H1. reflexivity. }
  exists profile2. eexists.
  split; [reflexivity|]. split; [reflexivity|]. split; [exact H2|].
  split; [reflexivity|]. split; [reflexivity|]. split; reflexivity.
Qed.

Lemma set_key_after_set_macro_witness :
  exists profile1 profile2 button2,
    ghostcat_button_set_macro Pad.profile 0
      (mk_macro (Some "copy"%string) None
         (padded_events (keycode_events 46 MODIFIER_LEFTCTRL)))
    = Some (GHOSTCAT_SUCCESS, profile1)
    /\ ghostcat_button_set_key profile1 0 30
       = Some (GHOSTCAT_SUCCESS, profile2)
    /\ profile_buttons profile2 !! 0%nat = Some button2
    /\ action_macro (button_action button2)
       = Some (mk_macro (Some "copy"%string) None
                 (padded_events (keycode_events 46 MODIFIER_LEFTCTRL)))
    /\ ghostcat_button_get_key button2 = 30
    /\ ghostcat_button_get_macro button2 = macro_null
    /\ ghostcat_action_keycode_from_macro (button_action button2)
       = (- EINVAL, None).
Proof.
  apply (set_key_after_set_macro Pad.profile 0 Pad.button
           (mk_macro (Some "copy"%string) None
              (padded_events (keycode_events 46 MODIFIER_LEFTCTRL))) 30);
    reflexivity.
Defined.

(** * Macro events *)

Lemma macro_event_at_insert (m : ghostcat_macro) (index i : nat)
    (e : ghostcat_macro_event) :
  (index < length (macro_events m))%nat ->
  macro_event_at (set_macro_events (<[index := e]> (macro_events m)) m) i
  = if decide (index = i) then e else macro_event_at m i.
Proof.
  intros Hlen. unfold macro_event_at, set_macro_events.
  cbn [macro_events].
  destruct (decide (index = i)) as [<- | Hne].
  - rewrite list_lookup_insert_eq by exact Hlen. reflexivity.
  - rewrite list_lookup_insert_ne by exact Hne. reflexivity.
Qed.

Lemma macro_event_at_alter (m : ghostcat_macro) (index i : nat)
    (f : ghostcat_macro_event -> ghostcat_macro_event) :
  (index < length (macro_events m))%nat ->
  macro_event_at (set_macro_events (alter f index (macro_events m)) m) i
  = if decide (index = i) then f (macro_event_at m i)
    else macro_event_at m i.
Proof.
  intros Hlen. unfold macro_event_at, set_macro_events.
  cbn [macro_events].
  destruct (decide (index = i)) as [<- | Hne].
  - rewrite list_lookup_alter_eq.
    destruct (lookup_lt_is_Some_2 _ _ Hlen) as [e ->]. reflexivity.
  - rewrite list_lookup_alter_ne by exact Hne. reflexivity.
Qed.

Lemma unsigned_to_int_small (v : Z) : v < 2 ^ 31 -> unsigned_to_int v = v.
Proof.
  intros Hv. unfold unsigned_to_int.
  destruct (Z.ltb_spec v (2 ^ 31)); [reflexivity | lia].
Qed.

(** X16. [ghostcat_button_macro_set_event] accepts an index below 256 and the
    event types None, Key-Pressed, Key-Released and Wait; otherwise it
    returns the Value error and leaves the macro alone.  After a success the
    getters at that index read back the type, the key of a key event
    through [ghostcat_button_macro_get_event_key] and the timeout of a wait
    through [ghostcat_button_macro_get_event_timeout]; the other getter
    reads [-EINVAL] or 0.  An event of type None keeps the data the slot
    held.  No other slot changes.  Beyond the array the getters read
    Invalid, 0 and 0. *)
Theorem macro_event_round_trip
    (m : ghostcat_macro) (index i : nat) (type data : Z) :
  length (macro_events m) = MAX_MACRO_EVENTS ->
  0 <= data < 2 ^ 31 ->
  let rc := (ghostcat_button_macro_set_event m index type data).1 in
  let m' := (ghostcat_button_macro_set_event m index type data).2 in
  (rc = 0
   <-> (index < MAX_MACRO_EVENTS)%nat
       /\ (type = GHOSTCAT_MACRO_EVENT_NONE
           \/ type = GHOSTCAT_MACRO_EVENT_KEY_PRESSED
           \/ type = GHOSTCAT_MACRO_EVENT_KEY_RELEASED
           \/ type = GHOSTCAT_MACRO_EVENT_WAIT))
  /\ (rc <> 0 -> rc = GHOSTCAT_ERROR_VALUE /\ m' = m)
  /\ (rc = 0 ->
      ghostcat_button_macro_get_event_type m' index = type
      /\ (type = GHOSTCAT_MACRO_EVENT_KEY_PRESSED
          \/ type = GHOSTCAT_MACRO_EVENT_KEY_RELEASED ->
          ghostcat_button_macro_get_event_key m' index = data
          /\ ghostcat_button_macro_get_event_timeout m' index = 0)
      /\ (type = GHOSTCAT_MACRO_EVENT_WAIT ->
          ghostcat_button_macro_get_event_timeout m' index = data
          /\ ghostcat_button_macro_get_event_key m' index = - EINVAL)
      /\ (type = GHOSTCAT_MACRO_EVENT_NONE ->
          ev_key (macro_event_at m' index) = ev_key (macro_event_at m index)
          /\ ghostcat_button_macro_get_event_timeout m' index = 0
          /\ ghostcat_button_macro_get_event_key m' index = - EINVAL)
      /\ (i <> index -> macro_event_at m' i = macro_event_at m i)
      /\ length (macro_events m') = MAX_MACRO_EVENTS)
  /\ ((MAX_MACRO_EVENTS <= i)%nat ->
      ghostcat_button_macro_get_event_type m i = GHOSTCAT_MACRO_EVENT_INVALID
      /\ ghostcat_button_macro_get_event_key m i = 0
      /\ ghostcat_button_macro_get_event_timeout m i = 0).
Proof.
  intros Hlen Hdata. cbv zeta.
  assert (Hbeyond :
    (MAX_MACRO_EVENTS <= i)%nat ->
    ghostcat_button_macro_get_event_type m i = GHOSTCAT_MACRO_EVENT_INVALID
    /\ ghostcat_button_macro_get_event_key m i = 0
    /\ ghostcat_button_macro_get_event_timeout m i = 0).
  { intros Hi. apply Nat.leb_le in Hi.
    unfold ghostcat_button_macro_get_event_type,
      ghostcat_button_macro_get_event_key,
      ghostcat_button_macro_get_event_timeout.
    rewrite Hi. auto. }
  unfold ghostcat_button_macro_set_event.
  destruct (Nat.leb_spec MAX_MACRO_EVENTS index) as [Hout | Hin].
  { cbn [fst snd]. split; [|split; [|split; [|exact Hbeyond]]].
    - split; [discriminate | lia].
    - auto.
    - discriminate. }
  assert (Hin' : (MAX_MACRO_EVENTS <=? index)%nat = false)
    by (apply Nat.leb_gt; exact Hin).
  assert (Hidx : (index < length (macro_events m))%nat) by lia.
  unfold ghostcat_button_macro_get_event_type,
    ghostcat_button_macro_get_event_key,
    ghostcat_button_macro_get_event_timeout.
  rewrite Hin'.
  destruct ((type =? GHOSTCAT_MACRO_EVENT_KEY_PRESSED)
            || (type =? GHOSTCAT_MACRO_EVENT_KEY_RELEASED)
            || (type =? GHOSTCAT_MACRO_EVENT_WAIT)) eqn:Hkind.
  - cbn [fst snd].
    assert (Htype : type = GHOSTCAT_MACRO_EVENT_KEY_PRESSED
                    \/ type = GHOSTCAT_MACRO_EVENT_KEY_RELEASED
                    \/ type = GHOSTCAT_MACRO_EVENT_WAIT).
    { repeat (apply orb_prop in Hkind as [Hkind | Hkind]);
        apply Z.eqb_eq in Hkind; auto. }
    split; [|split; [|split; [|exact Hbeyond]]].
    + split; [intros _; split; [exact Hin | tauto] | reflexivity].
    + intros Hne. contradiction Hne. reflexivity.
    + intros _. rewrite !macro_event_at_insert by exact Hidx.
      rewrite !decide_True by reflexivity. cbn [ev_type ev_key].
      rewrite unsigned_to_int_small by lia.
      split; [reflexivity|]. split; [|split; [|split; [|split]]].
      * intros [-> | ->]; split; reflexivity.
      * intros ->. split; reflexivity.
      * intros ->. discriminate.
      * intros Hi. rewrite decide_False by congruence. reflexivity.
      * cbn [macro_events set_macro_events]. rewrite length_insert.
        exact Hlen.
  - destruct (Z.eqb_spec type GHOSTCAT_MACRO_EVENT_NONE) as [-> | Hnone].
    + cbn [fst snd].
      split; [|split; [|split; [|exact Hbeyond]]].
      * split; [intros _; split; [exact Hin | tauto] | reflexivity].
      * intros Hne. contradiction Hne. reflexivity.
      * intros _. rewrite !macro_event_at_alter by exact Hidx.
        rewrite !decide_True by reflexivity. cbn [ev_type ev_key].
        split; [reflexivity|]. split; [|split; [|split; [|split]]].
        -- intros [? | ?]; discriminate.
        -- discriminate.
        -- intros _. repeat split; reflexivity.
        -- intros Hi. rewrite decide_False by congruence. reflexivity.
        -- cbn [macro_events set_macro_events]. rewrite length_alter.
           exact Hlen.
    + cbn [fst snd]. split; [|split; [|split; [|exact Hbeyond]]].
      * split; [discriminate|]. intros [_ Htype]. exfalso.
        destruct Htype as [-> | [-> | [-> | ->]]];
          [contradiction | discriminate..].
      * auto.
      * discriminate.
Qed.

Lemma macro_event_round_trip_witness :
  let m := ghostcat_button_macro_new "m" in
  let rc :=
    (ghostcat_button_macro_set_event m 2 GHOSTCAT_MACRO_EVENT_WAIT 150).1 in
  let m' :=
    (ghostcat_button_macro_set_event m 2 GHOSTCAT_MACRO_EVENT_WAIT 150).2 in
  (rc = 0
   <-> (2 < MAX_MACRO_EVENTS)%nat
       /\ (GHOSTCAT_MACRO_EVENT_WAIT = GHOSTCAT_MACRO_EVENT_NONE
           \/ GHOSTCAT_MACRO_EVENT_WAIT = GHOSTCAT_MACRO_EVENT_KEY_PRESSED
           \/ GHOSTCAT_MACRO_EVENT_WAIT = GHOSTCAT_MACRO_EVENT_KEY_RELEASED
           \/ GHOSTCAT_MACRO_EVENT_WAIT = GHOSTCAT_MACRO_EVENT_WAIT))
  /\ (rc <> 0 -> rc = GHOSTCAT_ERROR_VALUE /\ m' = m)
  /\ (rc = 0 ->
      ghostcat_button_macro_get_event_type m' 2 = GHOSTCAT_MACRO_EVENT_WAIT
      /\ (GHOSTCAT_MACRO_EVENT_WAIT = GHOSTCAT_MACRO_EVENT_KEY_PRESSED
          \/ GHOSTCAT_MACRO_EVENT_WAIT = GHOSTCAT_MACRO_EVENT_KEY_RELEASED ->
          ghostcat_button_macro_get_event_key m' 2 = 150
          /\ ghostcat_button_macro_get_event_timeout m' 2 = 0)
      /\ (GHOSTCAT_MACRO_EVENT_WAIT = GHOSTCAT_MACRO_EVENT_WAIT ->
          ghostcat_button_macro_get_event_timeout m' 2 = 150
          /\ ghostcat_button_macro_get_event_key m' 2 = - EINVAL)
      /\ (GHOSTCAT_MACRO_EVENT_WAIT = GHOSTCAT_MACRO_EVENT_NONE ->
          ev_key (macro_event_at m' 2) = ev_key (macro_event_at m 2)
          /\ ghostcat_button_macro_get_event_timeout m' 2 = 0
          /\ ghostcat_button_macro_get_event_key m' 2 = - EINVAL)
      /\ (300%nat <> 2%nat -> macro_event_at m' 300 = macro_event_at m 300)
      /\ length (macro_events m') = MAX_MACRO_EVENTS)
  /\ ((MAX_MACRO_EVENTS <= 300)%nat ->
      ghostcat_button_macro_get_event_type m 300
      = GHOSTCAT_MACRO_EVENT_INVALID
      /\ ghostcat_button_macro_get_event_key m 300 = 0
      /\ ghostcat_button_macro_get_event_timeout m 300 = 0).
Proof.
  apply (macro_event_round_trip (ghostcat_button_macro_new "m") 2 300
           GHOSTCAT_MACRO_EVENT_WAIT 150); [reflexivity | lia].
Defined.

(** * The decoder of key macros *)

Lemma byte_lor (a b : Z) :
  0 <= a < 256 -> 0 <= b < 256 -> 0 <= Z.lor a b < 256.
Proof.
  intros Ha Hb.
  assert (Hmod : Z.lor a b = Z.lor a b mod 2 ^ 8).
  { rewrite <- Z.land_ones by lia. rewrite Z.land_lor_distr_l.
    rewrite !Z.land_ones by lia.
    rewrite (Z.mod_small a), (Z.mod_small b) by lia. reflexivity. }
  rewrite Hmod. pose proof (Z.mod_pos_bound (Z.lor a b) (2 ^ 8)). lia.
Qed.

Lemma byte_land (a b : Z) : 0 <= a < 256 -> 0 <= Z.land a b < 256.
Proof.
  intros Ha.
  assert (Hmod : Z.land a b = Z.land a b mod 2 ^ 8).
  { rewrite <- (Z.land_ones (Z.land a b)) by lia.
    rewrite (Z.land_comm a b), <- Z.land_assoc, Z.land_ones by lia.
    rewrite (Z.mod_small a) by lia. reflexivity. }
  rewrite Hmod. pose proof (Z.mod_pos_bound (Z.land a b) (2 ^ 8)). lia.
Qed.

Lemma switch_modifier_key_mask (k mask : Z) :
  switch_modifier_key k = Some mask -> 0 <= mask < 256.
Proof.
  unfold switch_modifier_key.
  repeat match goal with
         | |- context [k =? ?c] => destruct (k =? c)
         end;
    intros [= <-]; vm_compute; split; congruence.
Qed.

Lemma keycode_loop_contract (events : list ghostcat_macro_event) :
  forall key modifiers,
    0 <= modifiers < 256 ->
    ((keycode_from_macro_loop events key modifiers).1 = 1
     \/ (keycode_from_macro_loop events key modifiers).1 = 0
     \/ (keycode_from_macro_loop events key modifiers).1 = - EINVAL)
    /\ ((keycode_from_macro_loop events key modifiers).1 = 1
        <-> is_Some (keycode_from_macro_loop events key modifiers).2)
    /\ (forall k m,
          (keycode_from_macro_loop events key modifiers).2 = Some (k, m) ->
          0 <= m < 256).
Proof.
  assert (Hfail :
    ((- EINVAL, @None (Z * Z)).1 = 1 \/ (- EINVAL, @None (Z * Z)).1 = 0
     \/ (- EINVAL, @None (Z * Z)).1 = - EINVAL)
    /\ ((- EINVAL, @None (Z * Z)).1 = 1
        <-> is_Some (- EINVAL, @None (Z * Z)).2)
    /\ (forall k m, (- EINVAL, @None (Z * Z)).2 = Some (k, m) ->
                    0 <= m < 256)).
  { cbn [fst snd]. split; [auto|]. split; [|discriminate].
    split; [discriminate | intros [? ?]; discriminate]. }
  induction events as [|event rest IH]; intros key modifiers Hm;
    [exact Hfail|].
  cbn [keycode_from_macro_loop].
  destruct (ev_type event =? GHOSTCAT_MACRO_EVENT_INVALID); [exact Hfail|].
  destruct (ev_type event =? GHOSTCAT_MACRO_EVENT_NONE).
  { cbn [fst snd]. split; [auto|]. split; [|discriminate].
    split; [discriminate | intros [? ?]; discriminate]. }
  destruct (ev_type event =? GHOSTCAT_MACRO_EVENT_KEY_PRESSED).
  { destruct (switch_modifier_key (ev_key event)) as [mask|] eqn:Hsw.
    - apply IH. apply byte_lor; [exact Hm|].
      apply (switch_modifier_key_mask _ _ Hsw).
    - destruct (negb (key =? KEY_RESERVED)); [exact Hfail | apply IH, Hm]. }
  destruct (ev_type event =? GHOSTCAT_MACRO_EVENT_KEY_RELEASED).
  { destruct (switch_modifier_key (ev_key event)) as [mask|] eqn:Hsw.
    - apply IH. apply byte_land, Hm.
    - destruct (negb (ev_key event =? key)); [exact Hfail|].
      cbn [fst snd]. split; [auto|]. split.
      + split; [intros _; eexists; reflexivity | reflexivity].
      + intros k m [= <- <-]. exact Hm. }
  destruct (ev_type event =? GHOSTCAT_MACRO_EVENT_WAIT);
    [apply IH, Hm | exact Hfail].
Qed.

(** X17. [ghostcat_action_keycode_from_macro] returns 1, 0 or [-EINVAL] and
    nothing else; it writes the key and the modifier mask exactly when it
    returns 1, and the mask it writes is a mask of the eight modifier bits,
    between 0 and 255. *)
Theorem keycode_from_macro_contract (action : ghostcat_button_action) :
  let rc := (ghostcat_action_keycode_from_macro action).1 in
  let out := (ghostcat_action_keycode_from_macro action).2 in
  (rc = 1 \/ rc = 0 \/ rc = - EINVAL)
  /\ (rc = 1 <-> is_Some out)
  /\ (forall key modifiers,
        out = Some (key, modifiers) -> 0 <= modifiers < 256).
Proof.
  cbv zeta.
  assert (Hfail :
    ((- EINVAL, @None (Z * Z)).1 = 1 \/ (- EINVAL, @None (Z * Z)).1 = 0
     \/ (- EINVAL, @None (Z * Z)).1 = - EINVAL)
    /\ ((- EINVAL, @None (Z * Z)).1 = 1
        <-> is_Some (- EINVAL, @None (Z * Z)).2)
    /\ (forall k m, (- EINVAL, @None (Z * Z)).2 = Some (k, m) ->
                    0 <= m < 256)).
  { cbn [fst snd]. split; [auto|]. split; [|discriminate].
    split; [discriminate | intros [? ?]; discriminate]. }
  unfold ghostcat_action_keycode_from_macro.
  destruct (action_macro action) as [macro|]; [|exact Hfail].
  destruct (negb (action_type action =? GHOSTCAT_BUTTON_ACTION_TYPE_MACRO));
    [exact Hfail|].
  destruct (ev_type (macro_first_event macro) =? GHOSTCAT_MACRO_EVENT_NONE);
    [exact Hfail|].
  destruct (ghostcat_action_is_single_modifier_key macro).
  { cbn [fst snd]. split; [auto|]. split.
    - split; [intros _; eexists; reflexivity | reflexivity].
    - intros k m [= <- <-]. lia. }
  destruct (negb (ghostcat_action_macro_num_keys macro =? 1));
    [exact Hfail|].
  apply keycode_loop_contract. lia.
Qed.

(** ** Wait events *)

Lemma macro_num_keys_loop_wait (pre post : list ghostcat_macro_event)
    (t count : Z) :
  macro_num_keys_loop (pre ++ mk_event GHOSTCAT_MACRO_EVENT_WAIT t :: post)
    count
  = macro_num_keys_loop (pre ++ post) count.
Proof.
  revert count. induction pre as [|e pre IH]; intros count.
  - rewrite !app_nil_l. cbn [macro_num_keys_loop ev_type ev_key].
    change (GHOSTCAT_MACRO_EVENT_WAIT =? GHOSTCAT_MACRO_EVENT_NONE)
      with false.
    change (GHOSTCAT_MACRO_EVENT_WAIT =? GHOSTCAT_MACRO_EVENT_INVALID)
      with false.
    change (GHOSTCAT_MACRO_EVENT_WAIT =? GHOSTCAT_MACRO_EVENT_KEY_PRESSED)
      with false.
    cbn [orb]. destruct (ghostcat_key_is_modifier t); reflexivity.
  - rewrite <- !app_comm_cons. cbn [macro_num_keys_loop].
    destruct ((ev_type e =? GHOSTCAT_MACRO_EVENT_NONE)
              || (ev_type e =? GHOSTCAT_MACRO_EVENT_INVALID));
      [reflexivity|].
    destruct (ghostcat_key_is_modifier (ev_key e)); [apply IH|].
    destruct (ev_type e =? GHOSTCAT_MACRO_EVENT_KEY_PRESSED); apply IH.
Qed.

Lemma single_modifier_loop_wait (pre post : list ghostcat_macro_event)
    (t mc ac : Z) :
  single_modifier_loop (pre ++ mk_event GHOSTCAT_MACRO_EVENT_WAIT t :: post)
    mc ac
  = single_modifier_loop (pre ++ post) mc ac.
Proof.
  revert mc ac. induction pre as [|e pre IH]; intros mc ac.
  - rewrite !app_nil_l. cbn [single_modifier_loop ev_type ev_key].
    change (GHOSTCAT_MACRO_EVENT_WAIT =? GHOSTCAT_MACRO_EVENT_NONE)
      with false.
    change (GHOSTCAT_MACRO_EVENT_WAIT =? GHOSTCAT_MACRO_EVENT_INVALID)
      with false.
    change (GHOSTCAT_MACRO_EVENT_WAIT =? GHOSTCAT_MACRO_EVENT_KEY_PRESSED)
      with false.
    cbn [orb]. rewrite !andb_false_r. reflexivity.
  - rewrite <- !app_comm_cons. cbn [single_modifier_loop].
    destruct ((ev_type e =? GHOSTCAT_MACRO_EVENT_NONE)
              || (ev_type e =? GHOSTCAT_MACRO_EVENT_INVALID));
      [reflexivity|].
    cbv zeta. apply IH.
Qed.

Lemma keycode_loop_wait (pre post : list ghostcat_macro_event)
    (t key modifiers : Z) :
  keycode_from_macro_loop
    (pre ++ mk_event GHOSTCAT_MACRO_EVENT_WAIT t :: post) key modifiers
  = keycode_from_macro_loop (pre ++ post) key modifiers.
Proof.
  revert key modifiers. induction pre as [|e pre IH]; intros key modifiers.
  - rewrite !app_nil_l. reflexivity.
  - rewrite <- !app_comm_cons. cbn [keycode_from_macro_loop].
    destruct (ev_type e =? GHOSTCAT_MACRO_EVENT_INVALID); [reflexivity|].
    destruct (ev_type e =? GHOSTCAT_MACRO_EVENT_NONE); [reflexivity|].
    destruct (ev_type e =? GHOSTCAT_MACRO_EVENT_KEY_PRESSED).
    { destruct (switch_modifier_key (ev_key e)); [apply IH|].
      destruct (negb (key =? KEY_RESERVED)); [reflexivity | apply IH]. }
    destruct (ev_type e =? GHOSTCAT_MACRO_EVENT_KEY_RELEASED).
    { destruct (switch_modifier_key (ev_key e)); [apply IH | reflexivity]. }
    destruct (ev_type e =? GHOSTCAT_MACRO_EVENT_WAIT);
      [apply IH | reflexivity].
Qed.

Lemma macro_num_keys_loop_stops (post extra : list ghostcat_macro_event)
    (count : Z) :
  existsb (fun e => ev_type e =? GHOSTCAT_MACRO_EVENT_NONE) post = true ->
  macro_num_keys_loop (post ++ extra) count = macro_num_keys_loop post count.
Proof.
  revert count. induction post as [|e post IH]; intros count Hex;
    [discriminate|].
  rewrite <- app_comm_cons. cbn [macro_num_keys_loop existsb] in *.
  destruct (ev_type e =? GHOSTCAT_MACRO_EVENT_NONE); [reflexivity|].
  cbn [orb] in *.
  destruct (ev_type e =? GHOSTCAT_MACRO_EVENT_INVALID); [reflexivity|].
  destruct (ghostcat_key_is_modifier (ev_key e)); [apply IH, Hex|].
  destruct (ev_type e =? GHOSTCAT_MACRO_EVENT_KEY_PRESSED); apply IH, Hex.
Qed.

Lemma single_modifier_loop_stops (post extra : list ghostcat_macro_event)
    (mc ac : Z) :
  existsb (fun e => ev_type e =? GHOSTCAT_MACRO_EVENT_NONE) post = true ->
  single_modifier_loop (post ++ extra) mc ac
  = single_modifier_loop post mc ac.
Proof.
  revert mc ac. induction post as [|e post IH]; intros mc ac Hex;
    [discriminate|].
  rewrite <- app_comm_cons. cbn [single_modifier_loop existsb] in *.
  destruct (ev_type e =? GHOSTCAT_MACRO_EVENT_NONE); [reflexivity|].
  cbn [orb] in *.
  destruct (ev_type e =? GHOSTCAT_MACRO_EVENT_INVALID); [reflexivity|].
  cbv zeta. apply IH, Hex.
Qed.

Lemma keycode_loop_stops (post extra : list ghostcat_macro_event)
    (key modifiers : Z) :
  existsb (fun e => ev_type e =? GHOSTCAT_MACRO_EVENT_NONE) post = true ->
  keycode_from_macro_loop (post ++ extra) key modifiers
  = keycode_from_macro_loop post key modifiers.
Proof.
  revert key modifiers. induction post as [|e post IH];
    intros key modifiers Hex; [discriminate|].
  rewrite <- app_comm_cons. cbn [keycode_from_macro_loop existsb] in *.
  destruct (ev_type e =? GHOSTCAT_MACRO_EVENT_NONE).
  { destruct (ev_type e =? GHOSTCAT_MACRO_EVENT_INVALID); reflexivity. }
  cbn [orb] in Hex.
  destruct (ev_type e =? GHOSTCAT_MACRO_EVENT_INVALID); [reflexivity|].
  destruct (ev_type e =? GHOSTCAT_MACRO_EVENT_KEY_PRESSED).
  { destruct (switch_modifier_key (ev_key e)); [apply IH, Hex|].
    destruct (negb (key =? KEY_RESERVED)); [reflexivity | apply IH, Hex]. }
  destruct (ev_type e =? GHOSTCAT_MACRO_EVENT_KEY_RELEASED).
  { destruct (switch_modifier_key (ev_key e)); [apply IH, Hex | reflexivity]. }
  destruct (ev_type e =? GHOSTCAT_MACRO_EVENT_WAIT);
    [apply IH, Hex | reflexivity].
Qed.

(** X18. Wait events are transparent to the decoder.  Take a wait event out
    of a macro, anywhere but in the first slot, move the later events one
    slot down and fill the last slot with None: if the part behind the wait
    event holds a None event, [ghostcat_action_keycode_from_macro] returns
    for the two macros the same value, the same key and the same
    modifiers. *)
Theorem keycode_from_macro_ignores_wait
    (type value t : Z) (name group : option string)
    (first : ghostcat_macro_event) (pre post : list ghostcat_macro_event) :
  existsb (fun e => ev_type e =? GHOSTCAT_MACRO_EVENT_NONE) post = true ->
  ghostcat_action_keycode_from_macro
    (mk_action type value
       (Some (mk_macro name group
                (first :: pre ++ mk_event GHOSTCAT_MACRO_EVENT_WAIT t
                                 :: post))))
  = ghostcat_action_keycode_from_macro
      (mk_action type value
         (Some (mk_macro name group
                  (first :: pre ++ post ++ [none_event])))).
Proof.
  intros Hnone. unfold ghostcat_action_keycode_from_macro,
    ghostcat_action_is_single_modifier_key, ghostcat_action_macro_num_keys,
    macro_first_event.
  cbn [action_macro action_type macro_events lookup list_lookup default
       from_option id].
  rewrite !app_comm_cons.
  rewrite single_modifier_loop_wait, macro_num_keys_loop_wait,
    keycode_loop_wait.
  rewrite !app_assoc.
  assert (Hex :
    existsb (fun e => ev_type e =? GHOSTCAT_MACRO_EVENT_NONE)
      ((first :: pre) ++ post) = true).
  { rewrite existsb_app, Hnone. apply orb_true_r. }
  rewrite (single_modifier_loop_stops ((first :: pre) ++ post) [none_event])
    by exact Hex.
  rewrite (macro_num_keys_loop_stops ((first :: pre) ++ post) [none_event])
    by exact Hex.
  rewrite (keycode_loop_stops ((first :: pre) ++ post) [none_event])
    by exact Hex.
  reflexivity.
Qed.

Lemma keycode_from_macro_ignores_wait_witness :
  ghostcat_action_keycode_from_macro
    (mk_action GHOSTCAT_BUTTON_ACTION_TYPE_MACRO 0
       (Some (mk_macro None None
                (mk_event GHOSTCAT_MACRO_EVENT_KEY_PRESSED 30
                 :: [] ++ mk_event GHOSTCAT_MACRO_EVENT_WAIT 150
                          :: [mk_event GHOSTCAT_MACRO_EVENT_KEY_RELEASED 30;
                              none_event]))))
  = ghostcat_action_keycode_from_macro
      (mk_action GHOSTCAT_BUTTON_ACTION_TYPE_MACRO 0
         (Some (mk_macro None None
                  (mk_event GHOSTCAT_MACRO_EVENT_KEY_PRESSED 30
                   :: [] ++ [mk_event GHOSTCAT_MACRO_EVENT_KEY_RELEASED 30;
                             none_event] ++ [none_event])))).
Proof.
  apply (keycode_from_macro_ignores_wait GHOSTCAT_BUTTON_ACTION_TYPE_MACRO 0
           150 None None (mk_event GHOSTCAT_MACRO_EVENT_KEY_PRESSED 30) []
           [mk_event GHOSTCAT_MACRO_EVENT_KEY_RELEASED 30; none_event]).
  reflexivity.
Defined.

Lemma single_modifier_loop_no_press (rest : list ghostcat_macro_event)
    (mc ac : Z) :
  Forall (fun e => ev_type e <> GHOSTCAT_MACRO_EVENT_KEY_PRESSED) rest ->
  single_modifier_loop rest mc ac = (mc, ac).
Proof.
  intros Hrest. revert mc ac.
  induction Hrest as [|e rest He _ IH]; intros mc ac; [reflexivity|].
  cbn [single_modifier_loop].
  destruct ((ev_type e =? GHOSTCAT_MACRO_EVENT_NONE)
            || (ev_type e =? GHOSTCAT_MACRO_EVENT_INVALID));
    [reflexivity|].
  apply Z.eqb_neq in He. rewrite He, !andb_false_r. apply IH.
Qed.

(** X19. In the first slot a wait event is not transparent.  For a macro
    that starts with a wait and then presses one modifier key and no other
    key, [ghostcat_action_keycode_from_macro] takes the macro for a lone
    modifier and returns 1 with the content of the first slot as the key:
    the key it writes is the timeout of the wait, not the modifier. *)
Theorem keycode_from_macro_leading_wait
    (value t k : Z) (name group : option string)
    (rest : list ghostcat_macro_event) :
  ghostcat_key_is_modifier k = true ->
  Forall (fun e => ev_type e <> GHOSTCAT_MACRO_EVENT_KEY_PRESSED) rest ->
  ghostcat_action_keycode_from_macro
    (mk_action GHOSTCAT_BUTTON_ACTION_TYPE_MACRO value
       (Some (mk_macro name group
                (mk_event GHOSTCAT_MACRO_EVENT_WAIT t
                 :: mk_event GHOSTCAT_MACRO_EVENT_KEY_PRESSED k :: rest))))
  = (1, Some (t, 0)).
Proof.
  intros Hk Hrest. unfold ghostcat_action_keycode_from_macro,
    ghostcat_action_is_single_modifier_key, macro_first_event.
  cbn [action_macro action_type macro_events lookup list_lookup default
       from_option id ev_type ev_key].
  change (single_modifier_loop
            (mk_event GHOSTCAT_MACRO_EVENT_WAIT t
             :: mk_event GHOSTCAT_MACRO_EVENT_KEY_PRESSED k :: rest) 0 0)
    with (single_modifier_loop
            ([] ++ mk_event GHOSTCAT_MACRO_EVENT_WAIT t
                :: mk_event GHOSTCAT_MACRO_EVENT_KEY_PRESSED k :: rest) 0 0).
  rewrite single_modifier_loop_wait, app_nil_l.
  cbn [single_modifier_loop ev_type ev_key]. rewrite Hk.
  change (GHOSTCAT_MACRO_EVENT_KEY_PRESSED =? GHOSTCAT_MACRO_EVENT_NONE)
    with false.
  change (GHOSTCAT_MACRO_EVENT_KEY_PRESSED =? GHOSTCAT_MACRO_EVENT_INVALID)
    with false.
  change (GHOSTCAT_MACRO_EVENT_KEY_PRESSED =? GHOSTCAT_MACRO_EVENT_KEY_PRESSED)
    with true.
  cbn [orb andb negb].
  rewrite (single_modifier_loop_no_press rest (0 + 1) 0 Hrest).
  reflexivity.
Qed.

Lemma keycode_from_macro_leading_wait_witness :
  ghostcat_action_keycode_from_macro
    (mk_action GHOSTCAT_BUTTON_ACTION_TYPE_MACRO 0
       (Some (mk_macro None None
                (mk_event GHOSTCAT_MACRO_EVENT_WAIT 150
                 :: mk_event GHOSTCAT_MACRO_EVENT_KEY_PRESSED KEY_LEFTCTRL
                 :: [mk_event GHOSTCAT_MACRO_EVENT_KEY_RELEASED KEY_LEFTCTRL;
                     none_event]))))
  = (1, Some (150, 0)).
Proof.
  apply (keycode_from_macro_leading_wait 0 150 KEY_LEFTCTRL None None
           [mk_event GHOSTCAT_MACRO_EVENT_KEY_RELEASED KEY_LEFTCTRL;
            none_event]).
  - reflexivity.
  - apply List.Forall_cons; [discriminate|].
    apply List.Forall_cons; [discriminate|]. apply List.Forall_nil.
Defined.

Lemma set_active_enabled_succeeds (device : ghostcat_device) (k : nat)
    (profile : ghostcat_profile) :
  device_profiles device !! k = Some profile ->
  profile_is_enabled profile = true ->
  exists device',
    ghostcat_profile_set_active device k = Some (GHOSTCAT_SUCCESS, device').
Proof.
  intros Hk Hen. unfold ghostcat_profile_set_active.
  rewrite Hk. cbn [mbind option_bind]. rewrite Hen. cbn [negb].
  destruct (device_num_profiles device =? 1); eexists; reflexivity.
Qed.

Lemma device_commit_codes (driver : ghostcat_driver)
    (device : ghostcat_device) :
  (ghostcat_device_commit driver device).1 = GHOSTCAT_SUCCESS
  \/ (ghostcat_device_commit driver device).1 = GHOSTCAT_ERROR_CAPABILITY
  \/ (ghostcat_device_commit driver device).1 = GHOSTCAT_ERROR_DEVICE
  \/ (ghostcat_device_commit driver device).1
     = GHOSTCAT_ERROR_IMPLEMENTATION.
Proof.
  unfold ghostcat_device_commit.
  destruct (commit driver) as [callback|]; [|auto].
  destruct (callback device) as [rc0 device1].
  destruct (negb (rc0 =? 0)); [auto|].
  pose proof (commit_profiles_codes driver device1 (device_profiles device1) [])
    as Hcodes.
  destruct (commit_profiles driver device1 [] (device_profiles device1))
    as [rc ps].
  cbn [fst] in *. tauto.
Qed.

(** * The daemon: commit and the profile calls *)

Section DaemonCalls.

Variable sd_bus_rc : bus_signal -> Z.
Variables ghostcatd_resolution ghostcatd_button ghostcatd_led : Type.
Variable resolution_resync : ghostcatd_resolution -> list bus_signal * Z.
Variable button_resync : ghostcatd_button -> list bus_signal * Z.
Variable led_resync : ghostcatd_led -> list bus_signal * Z.
Variable sd_bus_reply_rc : Z.

Local Abbreviation dprofile :=
  (ghostcatd_profile ghostcatd_resolution ghostcatd_button ghostcatd_led).
Local Abbreviation ddevice :=
  (ghostcatd_device ghostcatd_resolution ghostcatd_button ghostcatd_led).
Local Abbreviation resync :=
  (ghostcatd_device_resync sd_bus_rc _ _ _ resolution_resync button_resync
     led_resync).
Local Abbreviation commit_pending :=
  (ghostcatd_device_commit_pending sd_bus_rc _ _ _ resolution_resync
     button_resync led_resync).
Local Abbreviation daemon_set_active :=
  (ghostcatd_profile_set_active sd_bus_rc _ _ _ resolution_resync
     button_resync led_resync sd_bus_reply_rc).
Local Abbreviation daemon_set_disabled :=
  (ghostcatd_profile_set_disabled sd_bus_rc ghostcatd_resolution
     ghostcatd_button ghostcatd_led).
Local Abbreviation resync_signal :=
  (fun device : ddevice =>
     emit_signal (ddevice_path _ _ _ device) Device_interface "Resync").

Lemma for_each_signal_always {A : Type} (func : A -> list bus_signal * Z)
    (signal : A -> bus_signal) (array : list A) :
  (forall x, func x = ([signal x], 0)) ->
  ghostcatd_for_each_signal func array = (signal <$> array, 0).
Proof.
  intros Hfunc. induction array as [|x array IH]; [reflexivity|].
  cbn [ghostcatd_for_each_signal]. rewrite Hfunc, IH. reflexivity.
Qed.

Lemma notify_dirty_all (profiles : list dprofile) :
  ghostcatd_for_each_signal (ghostcatd_profile_notify_dirty sd_bus_rc _ _ _)
    profiles
  = (profile_signal "IsDirty" <$> profiles, 0).
Proof. apply for_each_signal_always. reflexivity. Qed.

Lemma active_signal_all (profiles : list dprofile) :
  ghostcatd_for_each_signal
    (ghostcatd_profile_active_signal_cb sd_bus_rc _ _ _) profiles
  = (profile_signal "IsActive" <$> profiles, 0).
Proof. apply for_each_signal_always. reflexivity. Qed.

Lemma resync_emits (device : ddevice) :
  resync_signal device ∈ (resync device).1
  /\ (resync device).2 = sd_bus_rc (resync_signal device).
Proof.
  unfold ghostcatd_device_resync, sd_bus_emit_signal. cbn [fst snd].
  split; [|reflexivity]. apply elem_of_app. right. apply list_elem_of_here.
Qed.

Lemma resync_signal_not_property (name : string) (device : ddevice)
    (profiles : list dprofile) :
  resync_signal device ∉ profile_signal name <$> profiles.
Proof.
  intros Hin. apply list_elem_of_fmap in Hin as (p & Heq & _). discriminate.
Qed.

(** X20. The commit task of the daemon always tells the bus that the
    [IsDirty] property of every profile of the device changed, whatever
    [ghostcat_device_commit] returned.  It emits the [Resync] signal of the
    device exactly when the commit failed; after a successful commit the
    [IsDirty] signals, one per profile in order, are all it emits.  The
    library device is left as the commit left it. *)
Theorem commit_pending_signals (device : ddevice) (driver : ghostcat_driver) :
  ddevice_lib_driver _ _ _ device = Some driver ->
  exists device' out,
    commit_pending device = Some (device', out)
    /\ ddevice_lib_device _ _ _ device'
       = (ghostcat_device_commit driver (ddevice_lib_device _ _ _ device)).2
    /\ ddevice_profiles _ _ _ device' = ddevice_profiles _ _ _ device
    /\ (forall p, p ∈ ddevice_profiles _ _ _ device ->
                  profile_signal "IsDirty" p ∈ out)
    /\ (resync_signal device ∈ out
        <-> (ghostcat_device_commit driver
               (ddevice_lib_device _ _ _ device)).1 <> GHOSTCAT_SUCCESS)
    /\ ((ghostcat_device_commit driver (ddevice_lib_device _ _ _ device)).1
        = GHOSTCAT_SUCCESS ->
        out = profile_signal "IsDirty" <$> ddevice_profiles _ _ _ device).
Proof.
  intros Hdriver. unfold ghostcatd_device_commit_pending.
  rewrite Hdriver. cbn [mbind option_bind].
  pose proof (device_commit_codes driver
                (ddevice_lib_device _ _ _ device)) as Hcodes.
  destruct (ghostcat_device_commit driver (ddevice_lib_device _ _ _ device))
    as [r lib].
  cbn [fst snd] in *. unfold ghostcatd_for_each_profile_signal.
  cbn [ddevice_profiles set_ddevice_lib_device].
  rewrite notify_dirty_all. cbn [fst].
  eexists _, _. split; [reflexivity|].
  split; [reflexivity|]. split; [reflexivity|]. split.
  { intros p Hp. apply elem_of_app. right.
    apply list_elem_of_fmap. exists p. auto. }
  destruct Hcodes as [-> | Hneg].
  - cbn [Z.ltb Z.compare GHOSTCAT_SUCCESS]. rewrite app_nil_l. split.
    + split; [|intros H; contradiction H; reflexivity].
      intros Hin. exfalso.
      exact (resync_signal_not_property "IsDirty" device _ Hin).
    + reflexivity.
  - assert (Hlt : (r <? 0) = true).
    { apply Z.ltb_lt.
      destruct Hneg as [-> | [-> | ->]]; reflexivity. }
    rewrite Hlt. split.
    + split.
      * intros _ Hr. subst r. discriminate.
      * intros _. apply elem_of_app. left.
        apply (resync_emits
                 (set_ddevice_lib_device _ _ _ lib device)).
    + intros Hr. subst r. discriminate.
Qed.

(** X21. The [SetActive] method of the daemon never replies with an error
    value: a reply, when one is sent, is 0.  When the library refuses the
    switch because the profile is disabled, the daemon leaves the library
    device alone and emits the [Resync] signal of the device; if the bus
    took that signal, the caller still receives the reply 0, and the
    [IsActive] signals of all profiles are emitted as after a switch.  When
    the profile is enabled there is no [Resync]; the reply is 0 and the
    library device is as [ghostcat_profile_set_active] left it. *)
Theorem daemon_set_active_reply
    (device : ddevice) (profile : dprofile) (lib_profile : ghostcat_profile) :
  device_profiles (ddevice_lib_device _ _ _ device)
    !! dprofile_lib_profile _ _ _ profile = Some lib_profile ->
  exists r device' out reply,
    daemon_set_active device profile = Some (r, device', out, reply)
    /\ (reply = None \/ reply = Some 0)
    /\ ddevice_profiles _ _ _ device' = ddevice_profiles _ _ _ device
    /\ (profile_is_enabled lib_profile = false ->
        ddevice_lib_device _ _ _ device' = ddevice_lib_device _ _ _ device
        /\ resync_signal device ∈ out
        /\ (0 <= sd_bus_rc (resync_signal device) ->
            reply = Some 0
            /\ forall p, p ∈ ddevice_profiles _ _ _ device ->
                         profile_signal "IsActive" p ∈ out))
    /\ (profile_is_enabled lib_profile = true ->
        Some (GHOSTCAT_SUCCESS, ddevice_lib_device _ _ _ device')
        = ghostcat_profile_set_active (ddevice_lib_device _ _ _ device)
            (dprofile_lib_profile _ _ _ profile)
        /\ reply = Some 0
        /\ out = (profile_signal "IsActive" <$> ddevice_profiles _ _ _ device)
                 ++ [profile_signal "IsDirty" profile]).
Proof.
  intros Hk. unfold ghostcatd_profile_set_active.
  destruct (profile_is_enabled lib_profile) eqn:Hen.
  - destruct (set_active_enabled_succeeds (ddevice_lib_device _ _ _ device)
                (dprofile_lib_profile _ _ _ profile) lib_profile Hk Hen)
      as [lib Hlib].
    rewrite Hlib. cbn [mbind option_bind]. cbv beta iota zeta.
    change (GHOSTCAT_SUCCESS <? 0) with false. cbv iota.
    unfold ghostcatd_for_each_profile_signal.
    cbn [ddevice_profiles set_ddevice_lib_device].
    rewrite active_signal_all. cbn [fst]. rewrite app_nil_l.
    destruct (sd_bus_reply_rc <? 0);
      (eexists _, _, _, _; split; [reflexivity|]);
      (split; [right; reflexivity|]); (split; [reflexivity|]);
      (split; [discriminate|]); intros _; repeat split; reflexivity.
  - unfold ghostcat_profile_set_active. rewrite Hk. cbn [mbind option_bind].
    rewrite Hen. cbn [negb mbind option_bind]. cbv beta iota zeta.
    change (GHOSTCAT_ERROR_VALUE <? 0) with true. cbv iota.
    assert (Hsame :
      set_ddevice_lib_device _ _ _ (ddevice_lib_device _ _ _ device) device
      = device) by (destruct device; reflexivity).
    rewrite Hsame.
    destruct (resync_emits device) as [Hin Hrc].
    destruct (resync device) as [out1 r1]. cbn [fst snd] in *.
    unfold ghostcatd_for_each_profile_signal.
    rewrite active_signal_all. cbn [fst].
    destruct (Z.ltb_spec r1 0) as [Hneg | Hpos].
    + eexists _, _, _, _. split; [reflexivity|].
      split; [left; reflexivity|]. split; [reflexivity|].
      split; [|discriminate]. intros _.
      split; [reflexivity|]. split; [exact Hin|]. lia.
    + destruct (sd_bus_reply_rc <? 0);
        (eexists _, _, _, _; split; [reflexivity|]);
        (split; [right; reflexivity|]); (split; [reflexivity|]);
        (split; [|discriminate]); intros _;
        (split; [reflexivity|]);
        (split; [apply elem_of_app; left; exact Hin|]); intros _;
        (split; [reflexivity|]); intros p Hp;
        apply elem_of_app; right; apply elem_of_app; left;
        apply list_elem_of_fmap; exists p; auto.
Qed.

(** X22. The setter of the [Disabled] property returns 0 whatever the
    library answers.  When [ghostcat_profile_set_enabled] succeeds, the
    profile of the library device is as it left it and the daemon emits the
    [Disabled] and [IsDirty] signals of the profile; when it fails, for a
    profile without the capability or for disabling the active profile,
    the library device is unchanged and the daemon emits nothing: the
    caller cannot tell the two apart. *)
Theorem daemon_set_disabled_returns_zero
    (profile : dprofile) (lib_device : ghostcat_device)
    (lib_profile : ghostcat_profile) (disabled : bool)
    (rest : sd_bus_message) :
  device_profiles lib_device !! dprofile_lib_profile _ _ _ profile
  = Some lib_profile ->
  exists lib_device' out,
    daemon_set_disabled (bus_b disabled :: rest) profile lib_device
    = Some (0, lib_device', out)
    /\ ((ghostcat_profile_set_enabled lib_profile (negb disabled)).1
        = GHOSTCAT_SUCCESS ->
        device_profiles lib_device' !! dprofile_lib_profile _ _ _ profile
        = Some (ghostcat_profile_set_enabled lib_profile (negb disabled)).2
        /\ out = [profile_signal "Disabled" profile;
                  profile_signal "IsDirty" profile])
    /\ ((ghostcat_profile_set_enabled lib_profile (negb disabled)).1
        <> GHOSTCAT_SUCCESS ->
        lib_device' = lib_device /\ out = [])
    /\ (ghostcat_profile_has_capability lib_profile
          GHOSTCAT_PROFILE_CAP_DISABLE = false
        \/ profile_is_active lib_profile = true /\ disabled = true ->
        lib_device' = lib_device /\ out = []).
Proof.
  intros Hk. unfold ghostcatd_profile_set_disabled.
  cbn [sd_bus_message_read_b]. change (1 <? 0) with false. cbv iota.
  unfold ghostcat_device_profile_set_enabled. rewrite Hk.
  cbn [mbind option_bind].
  assert (Hfail :
    forall rc, rc <> GHOSTCAT_SUCCESS ->
    exists lib_device' out,
      (if rc =? 0 then
         Some (0,
               set_device_profiles
                 (<[dprofile_lib_profile _ _ _ profile := lib_profile]>
                    (device_profiles lib_device)) lib_device,
               (sd_bus_emit_properties_changed sd_bus_rc
                  (dprofile_path _ _ _ profile) Profile_interface
                  ["Disabled"%string]).1
               ++ (ghostcatd_profile_notify_dirty sd_bus_rc _ _ _ profile).1)
       else
         Some (0,
               set_device_profiles
                 (<[dprofile_lib_profile _ _ _ profile := lib_profile]>
                    (device_profiles lib_device)) lib_device, []))
      = Some (0, lib_device', out)
      /\ lib_device' = lib_device /\ out = []).
  { intros rc Hrc. change GHOSTCAT_SUCCESS with 0 in Hrc.
    apply Z.eqb_neq in Hrc. rewrite Hrc.
    eexists _, _. split; [reflexivity|]. split; [|reflexivity].
    rewrite list_insert_id by exact Hk. destruct lib_device; reflexivity. }
  unfold ghostcat_profile_set_enabled.
  destruct (ghostcat_profile_has_capability lib_profile
              GHOSTCAT_PROFILE_CAP_DISABLE) eqn:Hcap; cbn [negb].
  2:{ destruct (Hfail GHOSTCAT_ERROR_CAPABILITY) as (d & out & Heq & -> & ->);
        [discriminate|].
      exists lib_device, []. split; [exact Heq|].
      cbn [fst snd]. split; [discriminate|]. auto. }
  destruct (profile_is_active lib_profile && negb (negb disabled)) eqn:Hact.
  { destruct (Hfail GHOSTCAT_ERROR_VALUE) as (d & out & Heq & -> & ->);
      [discriminate|].
    exists lib_device, []. split; [exact Heq|].
    cbn [fst snd]. split; [discriminate|]. auto. }
  cbn [fst snd]. change (GHOSTCAT_SUCCESS =? 0) with true. cbv iota.
  eexists _, _. split; [reflexivity|]. split; [|split].
  - intros _. split; [|reflexivity].
    cbn [device_profiles set_device_profiles].
    apply list_lookup_insert_eq. apply lookup_lt_Some in Hk. exact Hk.
  - intros H. contradiction H. reflexivity.
  - intros [Hc | [Ha ->]]; [discriminate|].
    rewrite Ha in Hact. discriminate.
Qed.

End DaemonCalls.

Lemma commit_pending_signals_witness :
  exists device' out,
    ghostcatd_device_commit_pending (fun _ => 0) string string string
      (Sample.child_resync Resolution_interface)
      (Sample.child_resync Button_interface)
      (Sample.child_resync Led_interface)
      (Sample.ddevice (Some Sample.failing_commit_driver))
    = Some (device', out)
    /\ ddevice_lib_device _ _ _ device'
       = (ghostcat_device_commit Sample.failing_commit_driver
            (ddevice_lib_device _ _ _
               (Sample.ddevice (Some Sample.failing_commit_driver)))).2
    /\ ddevice_profiles _ _ _ device'
       = ddevice_profiles _ _ _
           (Sample.ddevice (Some Sample.failing_commit_driver))
    /\ (forall p,
          p ∈ ddevice_profiles _ _ _
                (Sample.ddevice (Some Sample.failing_commit_driver)) ->
          profile_signal "IsDirty" p ∈ out)
    /\ (emit_signal
          (ddevice_path _ _ _
             (Sample.ddevice (Some Sample.failing_commit_driver)))
          Device_interface "Resync" ∈ out
        <-> (ghostcat_device_commit Sample.failing_commit_driver
               (ddevice_lib_device _ _ _
                  (Sample.ddevice (Some Sample.failing_commit_driver)))).1
            <> GHOSTCAT_SUCCESS)
    /\ ((ghostcat_device_commit Sample.failing_commit_driver
           (ddevice_lib_device _ _ _
              (Sample.ddevice (Some Sample.failing_commit_driver)))).1
        = GHOSTCAT_SUCCESS ->
        out = profile_signal "IsDirty"
                <$> ddevice_profiles _ _ _
                      (Sample.ddevice (Some Sample.failing_commit_driver))).
Proof.
  apply (commit_pending_signals (fun _ => 0) string string string
           (Sample.child_resync Resolution_interface)
           (Sample.child_resync Button_interface)
           (Sample.child_resync Led_interface)
           (Sample.ddevice (Some Sample.failing_commit_driver))
           Sample.failing_commit_driver).
  reflexivity.
Defined.

Lemma daemon_set_active_reply_witness :
  exists r device' out reply,
    ghostcatd_profile_set_active (fun _ => 0) string string string
      (Sample.child_resync Resolution_interface)
      (Sample.child_resync Button_interface)
      (Sample.child_resync Led_interface) 0
      (Sample.ddevice (Some Sample.test_driver))
      (Sample.dprofile 1 "/profile/hidraw0/p1")
    = Some (r, device', out, reply)
    /\ reply = Some 0
    /\ out = [profile_signal "IsActive"
                (Sample.dprofile 0 "/profile/hidraw0/p0");
              profile_signal "IsActive"
                (Sample.dprofile 1 "/profile/hidraw0/p1");
              profile_signal "IsDirty"
                (Sample.dprofile 1 "/profile/hidraw0/p1")].
Proof.
  destruct (daemon_set_active_reply (fun _ => 0) string string string
              (Sample.child_resync Resolution_interface)
              (Sample.child_resync Button_interface)
              (Sample.child_resync Led_interface) 0
              (Sample.ddevice (Some Sample.test_driver))
              (Sample.dprofile 1 "/profile/hidraw0/p1")
              Sample.profile1 eq_refl)
    as (r & device' & out & reply & Hcall & _ & _ & _ & Hen).
  destruct (Hen eq_refl) as (_ & Hreply & Hout).
  exists r, device', out, reply. auto.
Defined.

Lemma daemon_set_disabled_returns_zero_witness :
  exists lib_device' out,
    ghostcatd_profile_set_disabled (fun _ => 0) string string string
      [bus_b true] (Sample.dprofile 0 "/profile/hidraw0/p0") Sample.device2
    = Some (0, lib_device', out)
    /\ lib_device' = Sample.device2 /\ out = [].
Proof.
  destruct (daemon_set_disabled_returns_zero (fun _ => 0) string string string
              (Sample.dprofile 0 "/profile/hidraw0/p0") Sample.device2
              Sample.profile0 true [] eq_refl)
    as (lib' & out & Hcall & _ & _ & Hrefused).
  exists lib', out. split; [exact Hcall|].
  apply Hrefused. right. split; reflexivity.
Defined.

(** * The command line of the daemon, again *)

(** X23. The exit status of [main] is 0 or 1, and it is 1 exactly when the
    last thing [main] printed is one of its two error lines.  Only the
    first argument is looked at.  Without an argument, when the
    installation of the bus policy fails, [main] starts nothing, prints
    nothing and exits with status 0; with [--version] it prints the version
    and exits with status 0 whatever the start-up steps would return. *)
Theorem main_exit_status (env : startup) (argv : list string) :
  ((main env argv).2 = EXIT_SUCCESS \/ (main env argv).2 = EXIT_FAILURE)
  /\ ((main env argv).2 = EXIT_FAILURE
      <-> last (main env argv).1.1 = Some log_error_bus_name_taken
          \/ exists errno,
               last (main env argv).1.1
               = Some (log_error_failed_to_start errno))
  /\ (forall program arg rest,
        argv = program :: arg :: rest -> main env argv = main env [program; arg])
  /\ (argv !! 1%nat = None ->
      install_ghostcatd_devel_dbus_policy env = false ->
      main env argv = ([], LL_INFO, EXIT_SUCCESS))
  /\ (argv !! 1%nat = Some "--version"%string ->
      main env argv = ([print_version], LL_INFO, EXIT_SUCCESS)).
Proof.
  assert (Hexit : forall out level r,
    (forall o, last out = Some o -> o = print_usage) ->
    ((main_exit out level r).2 = EXIT_SUCCESS
     \/ (main_exit out level r).2 = EXIT_FAILURE)
    /\ ((main_exit out level r).2 = EXIT_FAILURE
        <-> last (main_exit out level r).1.1 = Some log_error_bus_name_taken
            \/ exists errno,
                 last (main_exit out level r).1.1
                 = Some (log_error_failed_to_start errno))).
  { intros out level r Hout. unfold main_exit.
    destruct (r <? 0); [destruct (r =? - EEXIST)|]; cbn [fst snd].
    - rewrite last_snoc. split; [auto|]. split; [auto | reflexivity].
    - rewrite last_snoc. split; [auto|].
      split; [intros _; right; eexists; reflexivity | reflexivity].
    - split; [auto|]. split; [discriminate|].
      intros [H | [e H]]; apply Hout in H; discriminate. }
  assert (Hstart : forall level,
    ((main_start env level).2 = EXIT_SUCCESS
     \/ (main_start env level).2 = EXIT_FAILURE)
    /\ ((main_start env level).2 = EXIT_FAILURE
        <-> last (main_start env level).1.1 = Some log_error_bus_name_taken
            \/ exists errno,
                 last (main_start env level).1.1
                 = Some (log_error_failed_to_start errno))).
  { intros level. unfold main_start.
    destruct (negb (install_ghostcatd_devel_dbus_policy env));
      [|destruct (ghostcatd_new env <? 0)];
      apply Hexit; discriminate. }
  assert (Hmain :
    ((main env argv).2 = EXIT_SUCCESS \/ (main env argv).2 = EXIT_FAILURE)
    /\ ((main env argv).2 = EXIT_FAILURE
        <-> last (main env argv).1.1 = Some log_error_bus_name_taken
            \/ exists errno,
                 last (main env argv).1.1
                 = Some (log_error_failed_to_start errno))).
  { unfold main. destruct (argv !! 1%nat) as [arg|]; [|apply Hstart].
    destruct (String.eqb arg "--version").
    { cbn [fst snd]. split; [auto|]. split; [discriminate|].
      intros [H | [e H]]; discriminate. }
    destruct (String.eqb arg "--quiet"); [apply Hstart|].
    destruct (String.eqb arg "--verbose" || String.eqb arg "--verbose=raw");
      [apply Hstart|].
    destruct (String.eqb arg "--verbose=debug"); [apply Hstart|].
    apply Hexit. intros o [= <-]. reflexivity. }
  destruct Hmain as [H1 H2].
  split; [exact H1|]. split; [exact H2|]. split; [|split].
  - intros program arg rest ->. reflexivity.
  - intros Hnone Hinstall. unfold main, main_start. rewrite Hnone, Hinstall.
    reflexivity.
  - intros Hversion. unfold main. rewrite Hversion. reflexivity.
Qed.

(** * The Mars Gaming driver *)

(** X24. For a report rate in the range that the daemon lets through, 125
    to 8000 Hz, [marsgaming_commit_profile_report_rate] sends the polling
    interval [1000 / hz], a value between 0 and 8, and it sends 0 exactly
    when the rate is above 1000 Hz.  For the four rates that the probe
    announces the interval is not 0, and
    [marsgaming_probe_profile_report_rate] computes from it the rate that
    was committed. *)
Theorem marsgaming_polling_interval (profile : ghostcat_profile) :
  profile_rate_dirty profile = true ->
  125 <= profile_hz profile <= 8000 ->
  exists interval,
    marsgaming_commit_profile_report_rate profile = Some (0, Some interval)
    /\ interval = 1000 / profile_hz profile
    /\ 0 <= interval <= 8
    /\ (interval = 0 <-> 1000 < profile_hz profile)
    /\ (In (profile_hz profile) [125; 250; 500; 1000] ->
        exists profile',
          marsgaming_probe_profile_report_rate interval profile
          = Some profile'
          /\ profile_hz profile' = profile_hz profile
          /\ profile_rates profile' = [125; 250; 500; 1000]).
Proof.
  intros Hdirty Hhz. unfold marsgaming_commit_profile_report_rate.
  rewrite Hdirty. cbn [negb].
  rewrite unsigned_to_int_small by lia.
  destruct (Z.eqb_spec (profile_hz profile) 0) as [H0 | _]; [lia|].
  rewrite Z.quot_div_nonneg by lia.
  assert (Hrange : 0 <= 1000 / profile_hz profile <= 8).
  { split; [apply Z.div_pos; lia|].
    apply Z.div_le_upper_bound; lia. }
  rewrite Z.mod_small by lia.
  eexists. split; [reflexivity|]. split; [reflexivity|].
  split; [exact Hrange|]. split.
  - split.
    + intros Hz. apply Z.div_small_iff in Hz; lia.
    + intros Hgt. apply Z.div_small. lia.
  - intros Hin. unfold marsgaming_probe_profile_report_rate.
    cbn [In] in Hin.
    destruct Hin as [H | [H | [H | [H | []]]]]; rewrite <- H;
      eexists; (split; [reflexivity|]); split; reflexivity.
Qed.

Lemma marsgaming_polling_interval_witness :
  exists interval,
    marsgaming_commit_profile_report_rate
      (set_profile_rate_dirty true (set_profile_hz 8000 Sample.profile0))
    = Some (0, Some interval)
    /\ interval = 0.
Proof.
  destruct (marsgaming_polling_interval
              (set_profile_rate_dirty true
                 (set_profile_hz 8000 Sample.profile0)) eq_refl)
    as (interval & Hcall & _ & _ & Hzero & _); [simpl; lia|].
  exists interval. split; [exact Hcall|]. apply Hzero. simpl. lia.
Defined.

Lemma profile_is_active_forget_flags (p : ghostcat_profile) :
  profile_is_active (forget_flags p) = profile_is_active p.
Proof. reflexivity. Qed.

Section Marsgaming.

Variable marsgaming_query_current_profile : ghostcat_device -> Z.
Variable marsgaming_commit_profile : ghostcat_profile -> ghostcat_profile.

(** The commands that send a profile to the mouse do not write the
    [is_active] flag of the profile. *)
Hypothesis commit_profile_is_active :
  forall p, profile_is_active (marsgaming_commit_profile p)
            = profile_is_active p.

Local Abbreviation driver :=
  (marsgaming_driver marsgaming_query_current_profile
     marsgaming_commit_profile).

(** X25. With the Mars Gaming driver a commit takes the active profile from
    the mouse, not from the library: after [ghostcat_profile_set_active] on
    a device with several profiles, [ghostcat_device_commit] succeeds and
    clears every dirty flag, and the profiles it leaves active are the
    ones whose index is the current profile that the mouse reports.  When
    that is not the index of the profile that was to become active, this
    profile is not active after the commit: the driver's commit has
    overwritten [is_active] before the library looks for the profile to
    switch to. *)
Theorem marsgaming_commit_overrides_switch
    (device : ghostcat_device) (k : nat) (profile : ghostcat_profile) :
  device_profiles device !! k = Some profile ->
  profile_is_enabled profile = true ->
  device_num_profiles device <> 1 ->
  exists device1 device2,
    ghostcat_profile_set_active device k = Some (GHOSTCAT_SUCCESS, device1)
    /\ ghostcat_device_commit driver device1 = (GHOSTCAT_SUCCESS, device2)
    /\ device_flags_clean device2 = true
    /\ (forall m p0 p2,
          device_profiles device !! m = Some p0 ->
          device_profiles device2 !! m = Some p2 ->
          profile_is_active p2
          = (marsgaming_query_current_profile device1 =? profile_index p0))
    /\ (marsgaming_query_current_profile device1 <> profile_index profile ->
        exists p2, device_profiles device2 !! k = Some p2
                   /\ profile_is_active p2 = false).
Proof.
  intros Hk Hen Hnum.
  assert (Hset : exists device1,
    ghostcat_profile_set_active device k = Some (GHOSTCAT_SUCCESS, device1)
    /\ forall m p0, device_profiles device !! m = Some p0 ->
         exists p1, device_profiles device1 !! m = Some p1
                    /\ profile_index p1 = profile_index p0).
  { unfold ghostcat_profile_set_active. rewrite Hk.
    cbn [mbind option_bind]. rewrite Hen. cbn [negb].
    apply Z.eqb_neq in Hnum. rewrite Hnum.
    eexists. split; [reflexivity|]. intros m p0 Hm.
    cbn [device_profiles set_device_profiles].
    rewrite list_lookup_alter, !list_lookup_fmap.
    destruct (decide (k = m)) as [<- | Hne].
    - rewrite Hm. cbn [fmap option_fmap option_map].
      eexists. split; [reflexivity|].
      destruct (profile_is_active p0); reflexivity.
    - rewrite Hm. cbn [fmap option_fmap option_map].
      eexists. split; [reflexivity|].
      destruct (profile_is_active p0); reflexivity. }
  destruct Hset as (device1 & Hset & Hindex).
  exists device1.
  set (current := marsgaming_query_current_profile device1).
  set (device1' :=
         set_device_profiles
           ((fun p => marsgaming_commit_profile
                        (set_profile_is_active (current =? profile_index p) p))
              <$> device_profiles device1) device1).
  destruct (commit_profiles_success driver device1'
              (device_profiles device1') [] eq_refl)
    as (ps & Hloop & Hclean).
  { intros p _ _. exists marsgaming_set_active_profile.
    split; reflexivity. }
  pose proof (commit_profiles_frame driver device1'
                (device_profiles device1') []) as Hframe.
  rewrite Hloop in Hframe. cbn [snd] in Hframe. rewrite app_nil_l in Hframe.
  assert (Hcommit :
    ghostcat_device_commit driver device1
    = (GHOSTCAT_SUCCESS, set_device_profiles ps device1')).
  { unfold ghostcat_device_commit.
    change (commit driver)
      with (Some (marsgaming_commit marsgaming_query_current_profile
                    marsgaming_commit_profile)).
    cbv beta iota zeta.
    change (marsgaming_commit marsgaming_query_current_profile
              marsgaming_commit_profile device1) with (0, device1').
    cbv beta iota zeta. change (0 =? 0) with true. cbn [negb]. cbv iota.
    rewrite Hloop. reflexivity. }
  exists (set_device_profiles ps device1').
  split; [exact Hset|]. split; [exact Hcommit|].
  split; [exact Hclean|].
  assert (Hactive : forall m p0 p2,
    device_profiles device !! m = Some p0 ->
    ps !! m = Some p2 ->
    profile_is_active p2 = (current =? profile_index p0)).
  { intros m p0 p2 Hm Hp2.
    destruct (Hindex m p0 Hm) as (p1 & Hp1 & Hidx).
    apply (f_equal (fun l => l !! m)) in Hframe.
    rewrite !list_lookup_fmap, Hp2 in Hframe.
    subst device1'. cbn [device_profiles set_device_profiles] in Hframe.
    rewrite list_lookup_fmap, Hp1 in Hframe.
    cbn [fmap option_fmap option_map] in Hframe.
    apply (inj Some) in Hframe.
    apply (f_equal profile_is_active) in Hframe.
    rewrite !profile_is_active_forget_flags in Hframe.
    rewrite Hframe, commit_profile_is_active, <- Hidx. reflexivity. }
  split; [exact Hactive|].
  intros Hother.
  destruct (Hindex k profile Hk) as (p1 & Hp1 & _).
  assert (Hlen : length ps = length (device_profiles device1)).
  { apply (f_equal length) in Hframe.
    subst device1'. cbn [device_profiles set_device_profiles] in Hframe.
    rewrite !length_fmap in Hframe. exact Hframe. }
  destruct (lookup_lt_is_Some_2 ps k) as [p2 Hp2].
  { rewrite Hlen. apply lookup_lt_Some in Hp1. exact Hp1. }
  exists p2. split; [exact Hp2|].
  rewrite (Hactive k profile p2 Hk Hp2). apply Z.eqb_neq. exact Hother.
Qed.

End Marsgaming.

Lemma marsgaming_commit_overrides_switch_witness :
  exists device1 device2,
    ghostcat_profile_set_active Sample.device2 1
    = Some (GHOSTCAT_SUCCESS, device1)
    /\ ghostcat_device_commit
         (marsgaming_driver (fun _ => 0) (fun p => p)) device1
       = (GHOSTCAT_SUCCESS, device2)
    /\ exists p2, device_profiles device2 !! 1%nat = Some p2
                  /\ profile_is_active p2 = false.
Proof.
  destruct (marsgaming_commit_overrides_switch (fun _ => 0) (fun p => p)
              (fun _ => eq_refl) Sample.device2 1 Sample.profile1
              eq_refl eq_refl)
    as (device1 & device2 & Hset & Hcommit & _ & _ & Hother);
    [simpl; lia|].
  exists device1, device2. split; [exact Hset|]. split; [exact Hcommit|].
  apply Hother. simpl. lia.
Defined.

(** * Values of a profile and capabilities of a resolution *)

(** X26. [ghostcat_profile_set_report_rate],
    [ghostcat_profile_set_angle_snapping] and [ghostcat_profile_set_debounce]
    accept every value: they return Success and store it.  A call with the
    value the profile already has writes nothing; a call with another value
    raises the flag of that value and the dirty flag of the profile.  A
    second call with the same value writes nothing, and the angle-snapping
    and debounce setters give the same profile in either order. *)
Theorem value_setters (profile : ghostcat_profile) (hz snapping debounce : Z) :
  let rate := ghostcat_profile_set_report_rate profile hz in
  let angle := ghostcat_profile_set_angle_snapping profile snapping in
  let bounce := ghostcat_profile_set_debounce profile debounce in
  (rate.1 = GHOSTCAT_SUCCESS /\ profile_hz rate.2 = hz
   /\ (profile_hz profile = hz -> rate.2 = profile)
   /\ (profile_hz profile <> hz ->
       profile_rate_dirty rate.2 = true /\ profile_dirty rate.2 = true)
   /\ ghostcat_profile_set_report_rate rate.2 hz = (GHOSTCAT_SUCCESS, rate.2))
  /\ (angle.1 = GHOSTCAT_SUCCESS /\ profile_angle_snapping angle.2 = snapping
      /\ (profile_angle_snapping profile = snapping -> angle.2 = profile)
      /\ (profile_angle_snapping profile <> snapping ->
          profile_angle_snapping_dirty angle.2 = true
          /\ profile_dirty angle.2 = true)
      /\ ghostcat_profile_set_angle_snapping angle.2 snapping
         = (GHOSTCAT_SUCCESS, angle.2))
  /\ (bounce.1 = GHOSTCAT_SUCCESS /\ profile_debounce bounce.2 = debounce
      /\ (profile_debounce profile = debounce -> bounce.2 = profile)
      /\ (profile_debounce profile <> debounce ->
          profile_debounce_dirty bounce.2 = true
          /\ profile_dirty bounce.2 = true)
      /\ ghostcat_profile_set_debounce bounce.2 debounce
         = (GHOSTCAT_SUCCESS, bounce.2))
  /\ (ghostcat_profile_set_debounce angle.2 debounce).2
     = (ghostcat_profile_set_angle_snapping bounce.2 snapping).2.
Proof.
  cbv zeta.
  unfold ghostcat_profile_set_report_rate, ghostcat_profile_set_angle_snapping,
    ghostcat_profile_set_debounce.
  destruct profile as [index name buttons resolutions leds hz0 rates
    rate_dirty snapping0 snapping_dirty debounce0 debounce_dirty
    num_resolutions is_active is_active_dirty is_enabled dirty capabilities].
  cbn [profile_hz profile_angle_snapping profile_debounce].
  split; [|split; [|split]].
  - destruct (Z.eqb_spec hz0 hz) as [-> | Hne]; cbn [negb fst snd].
    + rewrite Z.eqb_refl. cbn [negb profile_hz].
      repeat split; try reflexivity; congruence.
    + cbn [profile_hz set_profile_hz set_profile_dirty
           set_profile_rate_dirty].
      rewrite Z.eqb_refl. cbn [negb].
      repeat split; try reflexivity; congruence.
  - destruct (Z.eqb_spec snapping0 snapping) as [-> | Hne];
      cbn [negb fst snd].
    + rewrite Z.eqb_refl. cbn [negb profile_angle_snapping].
      repeat split; try reflexivity; congruence.
    + cbn [profile_angle_snapping set_profile_angle_snapping
           set_profile_dirty set_profile_angle_snapping_dirty].
      rewrite Z.eqb_refl. cbn [negb].
      repeat split; try reflexivity; congruence.
  - destruct (Z.eqb_spec debounce0 debounce) as [-> | Hne];
      cbn [negb fst snd].
    + rewrite Z.eqb_refl. cbn [negb profile_debounce].
      repeat split; try reflexivity; congruence.
    + cbn [profile_debounce set_profile_debounce set_profile_dirty
           set_profile_debounce_dirty].
      rewrite Z.eqb_refl. cbn [negb].
      repeat split; try reflexivity; congruence.
  - destruct (snapping0 =? snapping) eqn:Ha, (debounce0 =? debounce) eqn:Hb;
      simpl; rewrite ?Ha, ?Hb; reflexivity.
Qed.

(** X27. A resolution has a capability exactly when
    [ghostcat_resolution_set_cap] has set its bit: setting one capability
    adds it and changes the answer of [ghostcat_resolution_has_capability]
    for no other capability. *)
Theorem resolution_has_capability_set_cap
    (res : ghostcat_resolution) (cap cap' : Z) :
  0 <= cap -> 0 <= cap' ->
  ghostcat_resolution_has_capability (ghostcat_resolution_set_cap cap res) cap'
  = (cap' =? cap) || ghostcat_resolution_has_capability res cap'.
Proof.
  intros Hcap Hcap'. unfold ghostcat_resolution_has_capability,
    ghostcat_resolution_set_cap, set_res_capabilities.
  cbn [res_capabilities].
  rewrite !land_shiftl_testbit by lia. rewrite !negb_involutive.
  rewrite Z.lor_spec, Z.shiftl_1_l, Z.pow2_bits_eqb by lia.
  rewrite orb_comm, (Z.eqb_sym cap cap'). reflexivity.
Qed.

Lemma resolution_has_capability_set_cap_witness :
  ghostcat_resolution_has_capability
    (ghostcat_resolution_set_cap GHOSTCAT_RESOLUTION_CAP_DISABLE
       (Sample.resolution 0 true true false false false))
    GHOSTCAT_RESOLUTION_CAP_SEPARATE_XY_RESOLUTION
  = (GHOSTCAT_RESOLUTION_CAP_SEPARATE_XY_RESOLUTION
     =? GHOSTCAT_RESOLUTION_CAP_DISABLE)
    || ghostcat_resolution_has_capability
         (Sample.resolution 0 true true false false false)
         GHOSTCAT_RESOLUTION_CAP_SEPARATE_XY_RESOLUTION.
Proof.
  apply (resolution_has_capability_set_cap
           (Sample.resolution 0 true true false false false)
           GHOSTCAT_RESOLUTION_CAP_DISABLE
           GHOSTCAT_RESOLUTION_CAP_SEPARATE_XY_RESOLUTION);
    unfold GHOSTCAT_RESOLUTION_CAP_DISABLE,
      GHOSTCAT_RESOLUTION_CAP_SEPARATE_XY_RESOLUTION; lia.
Defined.
